(** * Google Media Backup (Windows client): orchestration core

    A shallow embedding of the download/transcription core of the
    repository:

    - [utils/config.py]          : [AppConfig], [FileState],
                                   [TranscriptionState], [DownloadStats],
                                   [ConfigManager]
    - [utils/paths.py]           : [Paths]
    - [core/drive_client.py]     : [DriveClient] (the object),
                                   [drive_client] (its methods)
    - [core/photos_client.py]    : [PhotosClient], [photos_client]
    - [core/transcription.py]    : [transcription] (transcript writers)
    - [core/download_manager.py] : [DownloadManager], [download_manager]

    Conventions of the embedding.

    - Python [str] is Rocq [string] (the UTF-8 bytes of the text); the
      string tests the code performs are against ASCII literals, for which
      prefix, suffix and [rfind] agree on bytes and on code points.
      [strip] and the slice of an id count in characters, and are written
      on the encoding.
    - A Python [dict] is an insertion-ordered association list ([Dict]),
      because the code iterates over [values()] and [items()].
    - Exceptions are explicit: a computation returns [result A].  Effectful
      code runs in the monad [M] over the [World] (local file system, the
      persisted JSON documents, the singletons of the process and the trace
      of the calls made to collaborators).  Of the log, the trace keeps
      the errors and the warnings; lines at information or debug level
      are not recorded.
    - A [FileState] is a record passed by value.  The code shares one
      object between the store and the worker; the two readings agree for
      a store that keeps every record under its id.
    - What the remote services answer, the clock and the flags set by other
      threads are read from an environment [Env] of oracles.
    - The local file system fails only for a reason the model represents:
      a path that is missing, or is a directory where a file is expected,
      and so on; and the removal of a file, for which the code has
      handlers, fails where the environment says the system refuses
      it. *)

From Stdlib Require Import ZArith QArith Qround String Ascii DecimalString.
From stdpp Require Import gmap strings list fin_maps.

Local Open Scope Z_scope.
Local Open Scope string_scope.
Local Open Scope list_scope.

(* ===================================================================== *)
(** ** Python values and exceptions                                       *)
(* ===================================================================== *)

Inductive exn : Type :=
  | RuntimeError (msg : string)
  | TypeError (msg : string)
  | ValueError (msg : string)
  | AttributeError (msg : string)
  | JSONDecodeError (msg : string)
  | OSError (msg : string)
  | HttpError (msg : string)
  | RequestException (msg : string)
  | OtherException (msg : string).

(** [str(e)] *)
Definition exn_str (e : exn) : string :=
  match e with
  | RuntimeError m | TypeError m | ValueError m | AttributeError m
  | JSONDecodeError m | OSError m | HttpError m | RequestException m
  | OtherException m => m
  end.

Inductive result (A : Type) : Type :=
  | Ok (a : A)
  | Raise (e : exn).
Arguments Ok {A} a.
Arguments Raise {A} e.

Definition is_Ok {A} (r : result A) : bool :=
  match r with Ok _ => true | Raise _ => false end.

(** Values that travel through [json.dump] / [json.load] and that a
    dataclass field can hold at run time (Python does not check the
    annotations). *)
#[warnings="-register-all"]
Inductive value : Type :=
  | VNone
  | VBool (b : bool)
  | VInt (z : Z)
  | VStr (s : string)
  | VList (l : list value)
  | VDict (d : list (string * value)).

(** Truth value testing, [bool(v)]. *)
Definition truthy (v : value) : bool :=
  match v with
  | VNone => false
  | VBool b => b
  | VInt z => negb (Z.eqb z 0)
  | VStr s => negb (String.eqb s "")
  | VList l => match l with [] => false | _ => true end
  | VDict d => match d with [] => false | _ => true end
  end.

(* ===================================================================== *)
(** ** [str] methods                                                      *)
(* ===================================================================== *)

Module PyStr.

(** [s.startswith(p)] *)
Definition startswith (s p : string) : bool := String.prefix p s.

(** [s.endswith(suf)] *)
Fixpoint endswith (s suf : string) : bool :=
  String.eqb s suf ||
  match s with
  | EmptyString => false
  | String _ s' => endswith s' suf
  end.

Definition lower_ascii (c : ascii) : ascii :=
  let n := nat_of_ascii c in
  if ((65 <=? n) && (n <=? 90))%nat then ascii_of_nat (n + 32) else c.

(** [s.lower()]; bytes outside ASCII are left alone.  No character
    outside ASCII lowers to a letter of the suffixes the code compares
    with (".pdf", ".xlsx", ".pptx"). *)
Fixpoint lower (s : string) : string :=
  match s with
  | EmptyString => EmptyString
  | String c s' => String (lower_ascii c) (lower s')
  end.

(** [s[i:]], on bytes *)
Fixpoint drop (i : nat) (s : string) : string :=
  match i, s with
  | O, _ => s
  | S i', String _ s' => drop i' s'
  | S _, EmptyString => EmptyString
  end.

(** The string of the bytes [l]. *)
Definition bytes (l : list nat) : string :=
  fold_right (fun n s => String (ascii_of_nat n) s) EmptyString l.

(** A [str] is held as its UTF-8 encoding.  The characters [c] with
    [c.isspace()] (CPython 3.11), each in UTF-8: TAB, LF, VT, FF, CR, FS,
    GS, RS, US, SPACE, then U+0085, U+00A0, U+1680, U+2000 to U+200A,
    U+2028, U+2029, U+202F, U+205F and U+3000. *)
Definition whitespace : list string :=
  map bytes
    [[9]; [10]; [11]; [12]; [13]; [28]; [29]; [30]; [31]; [32];
     [194; 133]; [194; 160]; [225; 154; 128];
     [226; 128; 128]; [226; 128; 129]; [226; 128; 130]; [226; 128; 131];
     [226; 128; 132]; [226; 128; 133]; [226; 128; 134]; [226; 128; 135];
     [226; 128; 136]; [226; 128; 137]; [226; 128; 138];
     [226; 128; 168]; [226; 128; 169]; [226; 128; 175];
     [226; 129; 159]; [227; 128; 128]]%nat.

(** [s] without the character of [spaces] it starts with, if it starts
    with one. *)
Fixpoint strip_one (spaces : list string) (s : string) : option string :=
  match spaces with
  | [] => None
  | c :: spaces' =>
      if String.prefix c s then Some (drop (String.length c) s)
      else strip_one spaces' s
  end.

Fixpoint strip_leading (spaces : list string) (n : nat) (s : string)
    : string :=
  match n with
  | O => s
  | S n' =>
      match strip_one spaces s with
      | Some s' => strip_leading spaces n' s'
      | None => s
      end
  end.

(** [s.lstrip()] *)
Definition lstrip (s : string) : string :=
  strip_leading whitespace (String.length s) s.

(** [s.rstrip()]: the encoding is read from its end; no white-space
    character's encoding ends another character's. *)
Definition rstrip (s : string) : string :=
  String.rev
    (strip_leading (map String.rev whitespace) (String.length s)
       (String.rev s)).

(** [s.strip()] *)
Definition strip (s : string) : string := rstrip (lstrip s).

(** [s.rfind(c)]: index of the last occurrence, [None] for -1. *)
Fixpoint rfind (c : ascii) (s : string) : option nat :=
  match s with
  | EmptyString => None
  | String a s' =>
      match rfind c s' with
      | Some i => Some (S i)
      | None => if Ascii.eqb a c then Some 0%nat else None
      end
  end.

(** [s[:i]], on bytes *)
Fixpoint take (i : nat) (s : string) : string :=
  match i, s with
  | O, _ => EmptyString
  | S i', String a s' => String a (take i' s')
  | S _, EmptyString => EmptyString
  end.

(** Whether the byte continues a character in UTF-8 (10xxxxxx). *)
Definition is_continuation (c : ascii) : bool :=
  let n := nat_of_ascii c in ((128 <=? n) && (n <=? 191))%nat.

(** [s[:i]] counted in characters, as Python counts them, on the UTF-8
    encoding: the bytes before the one that starts character [i]. *)
Fixpoint take_chars (i : nat) (s : string) : string :=
  match s with
  | EmptyString => EmptyString
  | String a s' =>
      if is_continuation a then String a (take_chars i s')
      else
        match i with
        | O => EmptyString
        | S i' => String a (take_chars i' s')
        end
  end.

(** [c in s] for a one-character [c]. *)
Fixpoint contains_char (c : ascii) (s : string) : bool :=
  match s with
  | EmptyString => false
  | String a s' => Ascii.eqb a c || contains_char c s'
  end.

(** [sep.join(l)] *)
Fixpoint join (sep : string) (l : list string) : string :=
  match l with
  | [] => ""
  | [x] => x
  | x :: l' => x +:+ sep +:+ join sep l'
  end.

(** [str(n)] for an [int]. *)
Definition of_Z (z : Z) : string :=
  match z with
  | Z0 => "0"
  | Zpos p => NilEmpty.string_of_uint (Pos.to_uint p)
  | Zneg p => "-" +:+ NilEmpty.string_of_uint (Pos.to_uint p)
  end.

Fixpoint zeros (n : nat) : string :=
  match n with O => "" | S n' => String "0" (zeros n') end.

(** [format(z, "0<w>d")]: the sign, then zeros up to the width [w], then
    the digits. *)
Definition format_0d (w : nat) (z : Z) : string :=
  let digits := of_Z (Z.abs z) in
  let sign := if Z.ltb z 0 then "-" else "" in
  sign +:+ zeros (w - String.length sign - String.length digits) +:+ digits.

End PyStr.

(* ===================================================================== *)
(** ** [dict] with [str] keys, in insertion order                         *)
(* ===================================================================== *)

Module Dict.
Section dict.
Context {V : Type}.

Definition t : Type := list (string * V).

Definition empty : t := [].

(** [d.get(k)] *)
Fixpoint get (d : t) (k : string) : option V :=
  match d with
  | [] => None
  | (k', v) :: d' => if String.eqb k' k then Some v else get d' k
  end.

(** [k in d] *)
Definition mem (d : t) (k : string) : bool :=
  match get d k with Some _ => true | None => false end.

(** [d[k] = v]: an existing key keeps its position, a new key goes to
    the end. *)
Fixpoint set (d : t) (k : string) (v : V) : t :=
  match d with
  | [] => [(k, v)]
  | (k', v') :: d' =>
      if String.eqb k' k then (k', v) :: d' else (k', v') :: set d' k v
  end.

(** [list(d.values())] *)
Definition values (d : t) : list V := map snd d.

(** [list(d.items())] *)
Definition items (d : t) : list (string * V) := d.

(** [not d] *)
Definition is_empty (d : t) : bool :=
  match d with [] => true | _ => false end.

End dict.
Arguments t : clear implicits.
End Dict.

(* ===================================================================== *)
(** ** [pathlib.Path] (Windows flavour)                                   *)
(* ===================================================================== *)

(** A path is its drive, its root and its components.  Parsing handles a
    drive letter, a root and components separated by either separator; UNC
    shares are outside the model. *)
Module Path.

Record t : Type := mk { drv : string; root : string; parts : list string }.

Definition sep : string := "\".

Definition is_sep (c : ascii) : bool :=
  Ascii.eqb c "\"%char || Ascii.eqb c "/"%char.

(** Split at the separators. *)
Fixpoint split (cur : string) (s : string) : list string :=
  match s with
  | EmptyString => [String.rev cur]
  | String c s' =>
      if is_sep c then String.rev cur :: split "" s'
      else split (String c cur) s'
  end.

(** Empty and "." components are dropped when a path is parsed. *)
Definition keep_part (p : string) : bool :=
  negb (String.eqb p "") && negb (String.eqb p ".").

Definition is_letter (c : ascii) : bool :=
  let n := nat_of_ascii c in
  (((65 <=? n) && (n <=? 90)) || ((97 <=? n) && (n <=? 122)))%nat.

(** [Path(s)] *)
Definition of_string (s : string) : t :=
  let '(d, rest) :=
    match s with
    | String c (String ":" s') =>
        if is_letter c then (String c ":", s') else ("", s)
    | _ => ("", s)
    end in
  let r :=
    match rest with
    | String c _ => if is_sep c then sep else ""
    | EmptyString => ""
    end in
  mk d r (List.filter keep_part (split "" rest)).

(** [str(p)] *)
Definition str (p : t) : string :=
  match drv p, root p, parts p with
  | "", "", [] => "."
  | d, r, ps => d +:+ r +:+ PyStr.join sep ps
  end.

(** [p.name] *)
Definition name (p : t) : string := List.last (parts p) "".

(** [p.parent] *)
Definition parent (p : t) : t :=
  mk (drv p) (root p) (List.removelast (parts p)).

(** [p / q] for two paths. *)
Definition join (p q : t) : t :=
  if negb (String.eqb (root q) "") then
    if String.eqb (drv q) "" && negb (String.eqb (drv p) "")
    then mk (drv p) (root q) (parts q)
    else q
  else if negb (String.eqb (drv q) "") then
    if String.eqb (PyStr.lower (drv q)) (PyStr.lower (drv p))
    then mk (drv p) (root p) (parts p ++ parts q)
    else q
  else mk (drv p) (root p) (parts p ++ parts q).

(** [p / s] for a string [s]. *)
Definition joinpath (p : t) (s : string) : t := join p (of_string s).

(** [p.suffix] *)
Definition suffix (p : t) : string :=
  let n := name p in
  match PyStr.rfind "."%char n with
  | Some i =>
      if ((0 <? i) && (i <? String.length n - 1))%nat
      then PyStr.drop i n else ""
  | None => ""
  end.

(** [p.with_suffix(suffix)] *)
Definition with_suffix (p : t) (sfx : string) : result t :=
  if PyStr.contains_char "\"%char sfx || PyStr.contains_char "/"%char sfx
  then Raise (ValueError "Invalid suffix")
  else if (negb (String.eqb sfx "") && negb (PyStr.startswith sfx "."))
          || String.eqb sfx "."
  then Raise (ValueError "Invalid suffix")
  else
    let n := name p in
    if String.eqb n "" then Raise (ValueError "has an empty name")
    else
      let old := suffix p in
      let n' :=
        if String.eqb old "" then n +:+ sfx
        else PyStr.take (String.length n - String.length old) n +:+ sfx in
      Ok (mk (drv p) (root p) (List.removelast (parts p) ++ [n'])).

End Path.

(* ===================================================================== *)
(** ** The local file system                                              *)
(* ===================================================================== *)

(** Download destinations: a finite map from [str(path)] to what is there,
    a directory or a regular file of a given size in bytes. *)
Module FS.

Inductive node : Type :=
  | Dir
  | File (size : Z).

Abbreviation t := (gmap string node).

(** [p.exists()] *)
Definition exists_ (fs : t) (p : Path.t) : bool :=
  match fs !! Path.str p with Some _ => true | None => false end.

Definition is_file (fs : t) (p : Path.t) : bool :=
  match fs !! Path.str p with Some (File _) => true | _ => false end.

(** [p.is_dir()]; the anchor (or the working directory) is always there. *)
Definition is_dir (fs : t) (p : Path.t) : bool :=
  match Path.parts p with
  | [] => true
  | _ => match fs !! Path.str p with Some Dir => true | _ => false end
  end.

(** The path itself and its ancestors below the anchor, outermost
    first. *)
Fixpoint chain (d r : string) (done todo : list string) : list Path.t :=
  match todo with
  | [] => []
  | x :: todo' =>
      Path.mk d r (done ++ [x]) :: chain d r (done ++ [x]) todo'
  end.

Fixpoint mkdirs (fs : t) (ps : list Path.t) : result t :=
  match ps with
  | [] => Ok fs
  | p :: ps' =>
      match fs !! Path.str p with
      | Some (File _) => Raise (OSError "FileExistsError")
      | _ => mkdirs (<[Path.str p := Dir]> fs) ps'
      end
  end.

(** [p.mkdir(parents=True, exist_ok=True)] *)
Definition mkdir (fs : t) (p : Path.t) : result t :=
  mkdirs fs (chain (Path.drv p) (Path.root p) [] (Path.parts p)).

(** [open(p, "wb")]: creates or truncates the file. *)
Definition open_wb (fs : t) (p : Path.t) : result t :=
  match fs !! Path.str p with
  | Some Dir => Raise (OSError "IsADirectoryError")
  | _ =>
      if is_dir fs (Path.parent p) && negb (String.eqb (Path.name p) "")
      then Ok (<[Path.str p := File 0]> fs)
      else Raise (OSError "FileNotFoundError")
  end.

(** The bytes written to an open file, once it is closed. *)
Definition write (fs : t) (p : Path.t) (nbytes : Z) : t :=
  <[Path.str p := File nbytes]> fs.

(** [p.stat().st_size] *)
Definition st_size (fs : t) (p : Path.t) : result Z :=
  match fs !! Path.str p with
  | Some (File n) => Ok n
  | Some Dir => Ok 0
  | None => Raise (OSError "FileNotFoundError")
  end.

(** [p.unlink()]; [refused] tells where the system refuses to remove a
    regular file, because it is in use or read-only. *)
Definition unlink (refused : string -> bool) (fs : t) (p : Path.t)
    : result t :=
  match fs !! Path.str p with
  | Some (File _) =>
      if refused (Path.str p) then Raise (OSError "PermissionError")
      else Ok (delete (Path.str p) fs)
  | Some Dir => Raise (OSError "PermissionError")
  | None => Raise (OSError "FileNotFoundError")
  end.

End FS.

(* ===================================================================== *)
(** ** utils/config.py: the data classes                                  *)
(* ===================================================================== *)

Module FileState.

Record t : Type := mk {
  id : string;
  name : string;
  source : string;                 (* 'drive' or 'photos' *)
  mime_type : string;
  size : Z;
  status : string;                 (* pending, downloading, complete, error *)
  downloaded_at : option string;
  local_path : option string;
  error_message : option string;
  modified_time : option string;
  transcription_status : string;   (* pending, transcribing, complete, error, n/a *)
  transcribed_at : option string
}.

(** The call [FileState(id=.., name=.., source=.., mime_type=.., size=..,
    status=..)] of the two adapters; the other fields take the defaults
    of the data class. *)
Definition new (id name source mime_type : string) (size : Z)
    (status : string) : t :=
  mk id name source mime_type size status None None None None "pending" None.

Definition video_types : list string :=
  ["video/mp4"; "video/quicktime"; "video/x-msvideo";
   "video/webm"; "video/3gpp"; "video/mpeg"; "video/x-matroska"].

Definition is_video (self : t) : bool :=
  existsb (String.eqb (mime_type self)) video_types
  || PyStr.startswith (mime_type self) "video/".

(** Attribute assignments [self.<field> = v]. *)
Definition set_status (v : string) (f : t) : t :=
  mk (id f) (name f) (source f) (mime_type f) (size f) v
     (downloaded_at f) (local_path f) (error_message f) (modified_time f)
     (transcription_status f) (transcribed_at f).
Definition set_downloaded_at (v : option string) (f : t) : t :=
  mk (id f) (name f) (source f) (mime_type f) (size f) (status f)
     v (local_path f) (error_message f) (modified_time f)
     (transcription_status f) (transcribed_at f).
Definition set_local_path (v : option string) (f : t) : t :=
  mk (id f) (name f) (source f) (mime_type f) (size f) (status f)
     (downloaded_at f) v (error_message f) (modified_time f)
     (transcription_status f) (transcribed_at f).
Definition set_error_message (v : option string) (f : t) : t :=
  mk (id f) (name f) (source f) (mime_type f) (size f) (status f)
     (downloaded_at f) (local_path f) v (modified_time f)
     (transcription_status f) (transcribed_at f).

End FileState.

Module TranscriptionState.

Record t : Type := mk {
  video_path : string;
  status : string;                 (* pending, transcribing, complete, error *)
  transcript_path : option string;
  transcribed_at : option string;
  error_message : option string
}.

End TranscriptionState.

Module DownloadStats.

Record t : Type := mk {
  total : Z;
  downloaded : Z;
  pending : Z;
  errors : Z;
  videos_for_transcription : Z
}.

(** [DownloadStats()] *)
Definition new : t := mk 0 0 0 0 0.

End DownloadStats.

Module AppConfig.

(** The fields hold run-time values: [_load_config] passes whatever the
    document contains to the constructor. *)
Record t : Type := mk {
  download_path : value;
  auto_download : value;
  auto_transcribe : value;
  transcription_model : value;
  transcription_output_format : value;
  transcription_language : value;
  download_videos : value;
  download_documents : value;
  download_photos : value;
  max_concurrent_downloads : value;
  exclude_patterns : value
}.

(** The parameters of the generated [__init__], in order. *)
Definition field_names : list string :=
  ["download_path"; "auto_download"; "auto_transcribe";
   "transcription_model"; "transcription_output_format";
   "transcription_language"; "download_videos"; "download_documents";
   "download_photos"; "max_concurrent_downloads"; "exclude_patterns"].

(** The fields declared with a plain default.  The data class keeps the
    default of such a field as a class attribute. *)
Definition plain_default_fields : list string :=
  ["download_path"; "auto_download"; "auto_transcribe";
   "transcription_model"; "transcription_output_format";
   "transcription_language"; "download_videos"; "download_documents";
   "download_photos"; "max_concurrent_downloads"].

(** The other names [n] with [hasattr(AppConfig, n)] (CPython 3.11): the
    method of the class body, the methods the decorator generates, what
    [object] provides, and what the metaclass [type] provides to the class
    object itself ([__name__], [__mro__], [mro], ...).  A field declared
    with [field(default_factory=...)], here [exclude_patterns], leaves no
    class attribute behind.  (The special names vary a little with the
    version of the interpreter: 3.12 adds [__type_params__].) *)
Definition other_class_attributes : list string :=
  ["__post_init__"; "__init__"; "__repr__"; "__eq__"; "__hash__";
   "__annotations__"; "__dataclass_fields__"; "__dataclass_params__";
   "__match_args__"; "__doc__"; "__module__"; "__dict__"; "__weakref__";
   "__class__"; "__new__"; "__delattr__"; "__dir__"; "__format__";
   "__ge__"; "__getattribute__"; "__getstate__"; "__gt__";
   "__init_subclass__"; "__le__"; "__lt__"; "__ne__"; "__reduce__";
   "__reduce_ex__"; "__setattr__"; "__sizeof__"; "__str__";
   "__subclasshook__";
   "__base__"; "__bases__"; "__basicsize__"; "__call__"; "__dictoffset__";
   "__flags__"; "__instancecheck__"; "__itemsize__"; "__mro__"; "__name__";
   "__or__"; "__prepare__"; "__qualname__"; "__ror__";
   "__subclasscheck__"; "__subclasses__"; "__text_signature__";
   "__weakrefoffset__"; "mro"].

(** [hasattr(AppConfig, k)] *)
Definition hasattr (k : string) : bool :=
  existsb (String.eqb k) plain_default_fields
  || existsb (String.eqb k) other_class_attributes.

Definition default_exclude_patterns : value :=
  VList [VStr "*.tmp"; VStr "*.part"].

(** [__post_init__] *)
Definition post_init (default_dir : string) (c : t) : t :=
  if negb (truthy (download_path c)) then
    mk (VStr default_dir) (auto_download c) (auto_transcribe c)
       (transcription_model c) (transcription_output_format c)
       (transcription_language c) (download_videos c)
       (download_documents c) (download_photos c)
       (max_concurrent_downloads c) (exclude_patterns c)
  else c.

Definition arg (kwargs : Dict.t value) (k : string) (default : value)
    : value :=
  match Dict.get kwargs k with Some v => v | None => default end.

(** The constructor called with keyword arguments: a keyword that is
    not a field is a
    [TypeError]; a missing one takes the default. *)
Definition init (default_dir : string) (kwargs : Dict.t value)
    : result t :=
  if forallb (fun kv => existsb (String.eqb (fst kv)) field_names) kwargs
  then
    Ok (post_init default_dir
          (mk (arg kwargs "download_path" (VStr ""))
              (arg kwargs "auto_download" (VBool false))
              (arg kwargs "auto_transcribe" (VBool true))
              (arg kwargs "transcription_model" (VStr "small"))
              (arg kwargs "transcription_output_format" (VStr "txt"))
              (arg kwargs "transcription_language" (VStr "en"))
              (arg kwargs "download_videos" (VBool true))
              (arg kwargs "download_documents" (VBool true))
              (arg kwargs "download_photos" (VBool true))
              (arg kwargs "max_concurrent_downloads" (VInt 3))
              (arg kwargs "exclude_patterns" default_exclude_patterns)))
  else Raise (TypeError "__init__() got an unexpected keyword argument").

(** [AppConfig()] *)
Definition new (default_dir : string) : t :=
  post_init default_dir
    (mk (VStr "") (VBool false) (VBool true) (VStr "small") (VStr "txt")
        (VStr "en") (VBool true) (VBool true) (VBool true) (VInt 3)
        default_exclude_patterns).

(** [asdict(c)] *)
Definition asdict (c : t) : Dict.t value :=
  [("download_path", download_path c);
   ("auto_download", auto_download c);
   ("auto_transcribe", auto_transcribe c);
   ("transcription_model", transcription_model c);
   ("transcription_output_format", transcription_output_format c);
   ("transcription_language", transcription_language c);
   ("download_videos", download_videos c);
   ("download_documents", download_documents c);
   ("download_photos", download_photos c);
   ("max_concurrent_downloads", max_concurrent_downloads c);
   ("exclude_patterns", exclude_patterns c)].

End AppConfig.

(* ===================================================================== *)
(** ** The environment: remote services, credentials, clock, threads      *)
(* ===================================================================== *)

(** The answers of a paginated listing: every page but the last carries a
    [nextPageToken]; a request can fail. *)
Inductive pages (I : Type) : Type :=
  | LastPage (items : list I)
  | NextPage (items : list I) (rest : pages I)
  | PageError (e : exn).
Arguments LastPage {I} items.
Arguments NextPage {I} items rest.
Arguments PageError {I} e.

(** An entry of [files().list()]. *)
Module DriveItem.
Record t : Type := mk {
  id : string;
  name : string;
  mimeType : option string;
  size : option Z
}.
End DriveItem.

(** An entry of [mediaItems().search()]. *)
Module MediaItem.
Record t : Type := mk {
  id : string;
  filename : option string;
  mimeType : option string
}.
End MediaItem.

(** What a chunked transfer does once the destination file is open: the
    percentages reported at the chunk boundaries, and either all [nbytes]
    bytes written or an exception after [nbytes] bytes were written. *)
Inductive transfer : Type :=
  | Finished (progress : list Z) (nbytes : Z)
  | Failed (progress : list Z) (nbytes : Z) (e : exn).

(** What the other threads call while the worker is at the pause test of
    an item.  (The three calls do nothing unless [_is_downloading] is
    set.) *)
Inductive waiting : Type :=
  (** nothing: the flags are as the worker finds them *)
  | Undisturbed
  (** [resume_download], possibly after a [pause_download]: a wait ends
      with [_is_paused] cleared *)
  | Resumed
  (** [pause_download], then [stop_download]: the wait ends with
      [_should_stop] set *)
  | StoppedWhilePaused
  (** [pause_download], and no call after it: the wait never ends *)
  | PausedForGood.

Record Env : Type := mkEnv {
  (** [auth_manager.is_authenticated] *)
  is_authenticated : bool;
  (** the token of the credentials, when there is one *)
  token : option string;
  (** [Path.home()] *)
  home : Path.t;
  (** [files().list(q=query, ...)], page after page *)
  drive_files_list : string -> pages DriveItem.t;
  (** [mediaItems().search(...)], page after page *)
  photos_search : pages MediaItem.t;
  (** [files().get_media(fileId)] streamed by [MediaIoBaseDownload] *)
  drive_get_media : string -> transfer;
  (** [files().export_media(fileId, mimeType)], streamed likewise *)
  drive_export_media : string -> string -> transfer;
  (** [mediaItems().get(mediaItemId)]: the item's [baseUrl], if any *)
  photos_get : string -> result (option string);
  (** [requests.get(url, stream=True)] and [raise_for_status()], then the
      body *)
  photos_download : string -> result transfer;
  (** [datetime.now().isoformat()] at the n-th item of a run *)
  now : nat -> string;
  (** whether [_should_stop] has been set by another thread when the
      worker reaches the n-th item of its worklist *)
  stop_requested : nat -> bool;
  (** the order in which [as_completed] yields the two scans *)
  drive_completes_first : bool;
  (** [build("photoslibrary", "v1", ..., static_discovery=False)] fetches
      the discovery document over the network: the exception it raises,
      if it fails.  ([build("drive", "v3", ...)] reads the document shipped
      with the library.) *)
  photos_build : option exn;
  (** whether the system refuses to remove the regular file at
      [str(path)], in use or read-only: [path.unlink()] then raises
      [PermissionError] *)
  unlink_refused : string -> bool;
  (** what the other threads do by the time the worker tests [_is_paused]
      at the n-th item of its worklist *)
  pause_at : nat -> waiting
}.

(** The environment with one oracle replaced. *)
Definition with_auth (b : bool) (e : Env) : Env :=
  mkEnv b (token e) (home e) (drive_files_list e) (photos_search e)
    (drive_get_media e) (drive_export_media e) (photos_get e)
    (photos_download e) (now e) (stop_requested e)
    (drive_completes_first e) (photos_build e) (unlink_refused e)
    (pause_at e).

Definition with_drive_files_list (l : string -> pages DriveItem.t)
    (e : Env) : Env :=
  mkEnv (is_authenticated e) (token e) (home e) l (photos_search e)
    (drive_get_media e) (drive_export_media e) (photos_get e)
    (photos_download e) (now e) (stop_requested e)
    (drive_completes_first e) (photos_build e) (unlink_refused e)
    (pause_at e).

Definition with_photos_search (l : pages MediaItem.t) (e : Env) : Env :=
  mkEnv (is_authenticated e) (token e) (home e) (drive_files_list e) l
    (drive_get_media e) (drive_export_media e) (photos_get e)
    (photos_download e) (now e) (stop_requested e)
    (drive_completes_first e) (photos_build e) (unlink_refused e)
    (pause_at e).

Definition with_drive_get_media (t : string -> transfer) (e : Env) : Env :=
  mkEnv (is_authenticated e) (token e) (home e) (drive_files_list e)
    (photos_search e) t (drive_export_media e) (photos_get e)
    (photos_download e) (now e) (stop_requested e)
    (drive_completes_first e) (photos_build e) (unlink_refused e)
    (pause_at e).

Definition with_unlink_refused (r : string -> bool) (e : Env) : Env :=
  mkEnv (is_authenticated e) (token e) (home e) (drive_files_list e)
    (photos_search e) (drive_get_media e) (drive_export_media e)
    (photos_get e) (photos_download e) (now e) (stop_requested e)
    (drive_completes_first e) (photos_build e) r (pause_at e).

(* ===================================================================== *)
(** ** utils/paths.py                                                     *)
(* ===================================================================== *)

Module Paths.

(** [get_default_download_dir] *)
Definition get_default_download_dir (home : Path.t) : Path.t :=
  let desktop := Path.joinpath home "Desktop" in
  Path.joinpath desktop "Google Media Backup".

Section dirs.
Variable home : Path.t.

(** A [Path] is always true, so [download_dir or default] is the
    default only for [None]. *)
Definition base_of (download_dir : option Path.t) : Path.t :=
  match download_dir with
  | Some p => p
  | None => get_default_download_dir home
  end.

Definition made (fs : FS.t) (p : Path.t) : result (Path.t * FS.t) :=
  match FS.mkdir fs p with
  | Ok fs' => Ok (p, fs')
  | Raise e => Raise e
  end.

Definition get_videos_dir (download_dir : option Path.t) (fs : FS.t)
    : result (Path.t * FS.t) :=
  made fs (Path.joinpath (base_of download_dir) "Videos").

Definition get_drive_videos_dir (download_dir : option Path.t)
    (fs : FS.t) : result (Path.t * FS.t) :=
  match get_videos_dir download_dir fs with
  | Ok (videos_dir, fs1) => made fs1 (Path.joinpath videos_dir "Drive")
  | Raise e => Raise e
  end.

Definition get_photos_videos_dir (download_dir : option Path.t)
    (fs : FS.t) : result (Path.t * FS.t) :=
  match get_videos_dir download_dir fs with
  | Ok (videos_dir, fs1) => made fs1 (Path.joinpath videos_dir "Photos")
  | Raise e => Raise e
  end.

Definition get_documents_dir (download_dir : option Path.t)
    (fs : FS.t) : result (Path.t * FS.t) :=
  made fs (Path.joinpath (base_of download_dir) "Documents").

End dirs.

End Paths.

(* ===================================================================== *)
(** ** utils/config.py: ConfigManager                                     *)
(* ===================================================================== *)

(** A persisted JSON document: absent, not loadable (the text is not
    JSON, or an entry is not accepted by [from_dict]), or holding [a]. *)
Inductive file (A : Type) : Type :=
  | Absent
  | Unreadable
  | Stored (a : A).
Arguments Absent {A}.
Arguments Unreadable {A}.
Arguments Stored {A} a.

Record Disk : Type := mkDisk {
  config_file : file value;
  drive_state_file : file (Dict.t FileState.t);
  photos_state_file : file (Dict.t FileState.t);
  transcription_state_file : file (Dict.t TranscriptionState.t)
}.

Module ConfigManager.

Record t : Type := mk {
  _config : option AppConfig.t;
  _drive_state : Dict.t FileState.t;
  _photos_state : Dict.t FileState.t;
  _transcription_state : Dict.t TranscriptionState.t
}.

(** [ConfigManager()] *)
Definition new : t := mk None [] [] [].

(** What [json.load] makes of an object: one entry per key, the last
    occurrence wins. *)
Definition loaded_object (pairs : list (string * value)) : Dict.t value :=
  fold_left (fun d kv => Dict.set d (fst kv) (snd kv)) pairs [].

Section methods.
(** [str(Paths.get_default_download_dir())] *)
Variable default_dir : string.

Definition _load_config (disk : Disk) : AppConfig.t :=
  match config_file disk with
  | Absent => AppConfig.new default_dir
  | Unreadable => AppConfig.new default_dir
  | Stored (VDict pairs) =>
      let data := loaded_object pairs in
      (* Handle missing fields gracefully *)
      match AppConfig.init default_dir
              (List.filter (fun kv => AppConfig.hasattr (fst kv)) data)
      with
      | Ok c => c
      | Raise _ => AppConfig.new default_dir
      end
  | Stored _ => AppConfig.new default_dir
  end.

Definition get_config (disk : Disk) (self : t) : AppConfig.t * t :=
  match _config self with
  | Some c => (c, self)
  | None =>
      let c := _load_config disk in
      (c, mk (Some c) (_drive_state self) (_photos_state self)
             (_transcription_state self))
  end.

Definition save_config (config : option AppConfig.t) (disk : Disk)
    (self : t) : Disk * t :=
  let self :=
    match config with
    | Some c => mk (Some c) (_drive_state self) (_photos_state self)
                   (_transcription_state self)
    | None => self
    end in
  match _config self with
  | None => (disk, self)
  | Some c =>
      (mkDisk (Stored (VDict (AppConfig.asdict c)))
              (drive_state_file disk) (photos_state_file disk)
              (transcription_state_file disk),
       self)
  end.

End methods.

Definition _load_state {A} (state_file : file (Dict.t A)) : Dict.t A :=
  match state_file with
  | Stored d => d
  | Absent | Unreadable => []
  end.

Definition get_drive_state (disk : Disk) (self : t)
    : Dict.t FileState.t * t :=
  if Dict.is_empty (_drive_state self) then
    let d := _load_state (drive_state_file disk) in
    (d, mk (_config self) d (_photos_state self)
           (_transcription_state self))
  else (_drive_state self, self).

Definition get_photos_state (disk : Disk) (self : t)
    : Dict.t FileState.t * t :=
  if Dict.is_empty (_photos_state self) then
    let d := _load_state (photos_state_file disk) in
    (d, mk (_config self) (_drive_state self) d
           (_transcription_state self))
  else (_photos_state self, self).

Definition get_transcription_state (disk : Disk) (self : t)
    : Dict.t TranscriptionState.t * t :=
  if Dict.is_empty (_transcription_state self) then
    let d := _load_state (transcription_state_file disk) in
    (d, mk (_config self) (_drive_state self) (_photos_state self) d)
  else (_transcription_state self, self).

Definition set_drive_state (d : Dict.t FileState.t) (self : t) : t :=
  mk (_config self) d (_photos_state self) (_transcription_state self).

Definition set_photos_state (d : Dict.t FileState.t) (self : t) : t :=
  mk (_config self) (_drive_state self) d (_transcription_state self).

Definition save_drive_state (disk : Disk) (self : t) : Disk :=
  mkDisk (config_file disk) (Stored (_drive_state self))
         (photos_state_file disk) (transcription_state_file disk).

Definition save_photos_state (disk : Disk) (self : t) : Disk :=
  mkDisk (config_file disk) (drive_state_file disk)
         (Stored (_photos_state self)) (transcription_state_file disk).

Definition update_drive_file (file_state : FileState.t) (disk : Disk)
    (self : t) : Disk * t :=
  let self :=
    set_drive_state
      (Dict.set (_drive_state self) (FileState.id file_state) file_state)
      self in
  (save_drive_state disk self, self).

Definition update_photos_file (file_state : FileState.t) (disk : Disk)
    (self : t) : Disk * t :=
  let self :=
    set_photos_state
      (Dict.set (_photos_state self) (FileState.id file_state) file_state)
      self in
  (save_photos_state disk self, self).

(** One turn of the loop of [get_download_stats]. *)
Definition count_state (trans : Dict.t TranscriptionState.t)
    (stats : DownloadStats.t) (state : FileState.t) : DownloadStats.t :=
  let stats :=
    DownloadStats.mk (DownloadStats.total stats + 1)
      (DownloadStats.downloaded stats) (DownloadStats.pending stats)
      (DownloadStats.errors stats)
      (DownloadStats.videos_for_transcription stats) in
  let more_videos (s : DownloadStats.t) :=
    DownloadStats.mk (DownloadStats.total s) (DownloadStats.downloaded s)
      (DownloadStats.pending s) (DownloadStats.errors s)
      (DownloadStats.videos_for_transcription s + 1) in
  if String.eqb (FileState.status state) "complete" then
    let stats :=
      DownloadStats.mk (DownloadStats.total stats)
        (DownloadStats.downloaded stats + 1) (DownloadStats.pending stats)
        (DownloadStats.errors stats)
        (DownloadStats.videos_for_transcription stats) in
    (* Check if it's a video that needs transcription *)
    if FileState.is_video state then
      if String.eqb (FileState.transcription_status state) "pending"
         || String.eqb (FileState.transcription_status state) "n/a"
      then
        (* Also check transcription state dict *)
        match FileState.local_path state with
        | Some p =>
            if negb (String.eqb p "") then
              match Dict.get trans p with
              | None => more_videos stats
              | Some trans_state =>
                  if String.eqb (TranscriptionState.status trans_state)
                                "pending"
                  then more_videos stats else stats
              end
            else more_videos stats
        | None => more_videos stats
        end
      else stats
    else stats
  else if String.eqb (FileState.status state) "pending" then
    DownloadStats.mk (DownloadStats.total stats)
      (DownloadStats.downloaded stats) (DownloadStats.pending stats + 1)
      (DownloadStats.errors stats)
      (DownloadStats.videos_for_transcription stats)
  else if String.eqb (FileState.status state) "error" then
    DownloadStats.mk (DownloadStats.total stats)
      (DownloadStats.downloaded stats) (DownloadStats.pending stats)
      (DownloadStats.errors stats + 1)
      (DownloadStats.videos_for_transcription stats)
  else stats.

Definition get_download_stats (self : t) : DownloadStats.t :=
  fold_left (count_state (_transcription_state self))
    (Dict.values (_drive_state self) ++ Dict.values (_photos_state self))
    DownloadStats.new.

End ConfigManager.

(* ===================================================================== *)
(** ** The singletons of the process, the world and the monad             *)
(* ===================================================================== *)

Module DriveClient.
Record t : Type := mk {
  _service : bool;        (* a service handle is cached *)
  _should_stop : bool
}.
(** [DriveClient()] *)
Definition new : t := mk false false.
End DriveClient.

Module PhotosClient.
Record t : Type := mk {
  _service : bool;
  _should_stop : bool
}.
(** [PhotosClient()] *)
Definition new : t := mk false false.
End PhotosClient.

Module DownloadManager.
Record t : Type := mk {
  _is_downloading : bool;
  _is_paused : bool;
  _should_stop : bool;
  _current_file : option string;
  _download_thread : bool;          (* a worker thread has been started *)
  (* Callbacks: whether one is installed *)
  _on_progress : bool;
  _on_file_complete : bool;
  _on_download_complete : bool;
  _on_error : bool
}.
(** [DownloadManager()] *)
Definition new : t :=
  mk false false false None false false false false false.
End DownloadManager.

(** What the code does to its collaborators, in order.  Of the log, the
    lines at error and warning level; [logger.info] and [logger.debug] are
    not recorded. *)
Inductive event : Type :=
  | LogError (msg : string)
  | LogWarning (msg : string)
  (** [executor.submit(self._scan_drive, ..)], [.._scan_photos] *)
  | Submitted (source : string)
  (** the [progress_callback] of [scan_sources] *)
  | ScanProgress (source : string) (count : Z)
  (** [download_file] / [download_video] entered *)
  | TransferCalled (source : string) (file_id : string) (destination : string)
  (** [self._on_progress(name, current, total)] *)
  | OnProgress (name : string) (current total : Z)
  | OnFileComplete (file_state : FileState.t)
  | OnError (name msg : string)
  | OnDownloadComplete (stats : DownloadStats.t)
  | NotifyDownloadStarted (count : Z)
  | NotifyDownloadComplete (downloaded skipped errors : Z)
  | NotifyDownloadError (name msg : string)
  (** [self._download_thread.start()] *)
  | ThreadStarted (target : string).

Record World : Type := mkWorld {
  fs : FS.t;
  disk : Disk;
  config_manager : ConfigManager.t;
  drive_client : DriveClient.t;
  photos_client : PhotosClient.t;
  download_manager : DownloadManager.t;
  trace : list event
}.

(** A computation changes the world and returns or raises; what it did
    before raising stays done. *)
Definition M (A : Type) : Type := World -> result A * World.

#[export] Instance M_ret : MRet M := fun A a w => (Ok a, w).

#[export] Instance M_bind : MBind M := fun A B f m w =>
  match m w with
  | (Ok a, w') => f a w'
  | (Raise e, w') => (Raise e, w')
  end.

Definition raise {A} (e : exn) : M A := fun w => (Raise e, w).

(** [try: m except Exception as e: handler(e)] *)
Definition try_except {A} (m : M A) (handler : exn -> M A) : M A :=
  fun w =>
    match m w with
    | (Ok a, w') => (Ok a, w')
    | (Raise e, w') => handler e w'
    end.

Definition gets {A} (f : World -> A) : M A := fun w => (Ok (f w), w).

Definition modify (f : World -> World) : M unit := fun w => (Ok tt, f w).

Definition lift_result {A} (r : result A) : M A := fun w => (r, w).

Definition emit (e : event) : M unit :=
  modify (fun w =>
    mkWorld (fs w) (disk w) (config_manager w) (drive_client w)
            (photos_client w) (download_manager w) (trace w ++ [e])).

Definition set_fs (x : FS.t) : M unit :=
  modify (fun w =>
    mkWorld x (disk w) (config_manager w) (drive_client w)
            (photos_client w) (download_manager w) (trace w)).

Definition set_drive_client (x : DriveClient.t) : M unit :=
  modify (fun w =>
    mkWorld (fs w) (disk w) (config_manager w) x
            (photos_client w) (download_manager w) (trace w)).

Definition set_photos_client (x : PhotosClient.t) : M unit :=
  modify (fun w =>
    mkWorld (fs w) (disk w) (config_manager w) (drive_client w)
            x (download_manager w) (trace w)).

Definition set_download_manager (x : DownloadManager.t) : M unit :=
  modify (fun w =>
    mkWorld (fs w) (disk w) (config_manager w) (drive_client w)
            (photos_client w) x (trace w)).

(** A file-system operation that returns the new file system or raises. *)
Definition fs_do (op : FS.t -> result FS.t) : M unit :=
  fun w =>
    match op (fs w) with
    | Ok fs' => set_fs fs' w
    | Raise e => (Raise e, w)
    end.

(** A method of the configuration manager that reads the persisted
    documents. *)
Definition cm_get {A} (f : Disk -> ConfigManager.t -> A * ConfigManager.t)
    : M A :=
  fun w =>
    let '(a, cm) := f (disk w) (config_manager w) in
    (Ok a, mkWorld (fs w) (disk w) cm (drive_client w) (photos_client w)
                   (download_manager w) (trace w)).

(** A method of the configuration manager that writes them. *)
Definition cm_put (f : Disk -> ConfigManager.t -> Disk * ConfigManager.t)
    : M unit :=
  fun w =>
    let '(d, cm) := f (disk w) (config_manager w) in
    (Ok tt, mkWorld (fs w) d cm (drive_client w) (photos_client w)
                    (download_manager w) (trace w)).

(** [if c: m] *)
Definition when (c : bool) (m : M unit) : M unit :=
  if c then m else mret tt.

(** [for x in l: body(x)] *)
Fixpoint for_each {A} (l : list A) (body : A -> M unit) : M unit :=
  match l with
  | [] => mret tt
  | x :: l' => body x ;; for_each l' body
  end.

(** [destination.stat().st_size] *)
Definition st_size (destination : Path.t) : M Z :=
  fun w => (FS.st_size (fs w) destination, w).

(** [destination.exists() and destination.stat().st_size == 0] *)
Definition is_empty_file (destination : Path.t) : M bool :=
  ex ← gets (fun w => FS.exists_ (fs w) destination);
  if ex : bool then
    n ← st_size destination;
    mret (Z.eqb n 0)
  else mret false.

(** The clean-up of the handlers:
    [if destination.exists(): try: destination.unlink() except: pass] *)
Definition remove_partial (env : Env) (destination : Path.t) : M unit :=
  ex ← gets (fun w => FS.exists_ (fs w) destination);
  when ex
    (try_except
       (fs_do (fun fs => FS.unlink (unlink_refused env) fs destination))
       (fun _ => mret tt)).

(** The body of [with open(destination, "wb") as f: ...]: the chunks are
    written and reported; the file is closed on the way out, also when a
    chunk raises. *)
Definition write_chunks (destination : Path.t) (t : transfer)
    (progress_callback : option (Z -> Z -> M unit)) : M unit :=
  let report (progress : list Z) : M unit :=
    match progress_callback with
    | Some cb => for_each progress (fun p => cb p 100)
    | None => mret tt
    end in
  fs_do (fun fs => FS.open_wb fs destination) ;;
  match t with
  | Finished progress nbytes =>
      report progress ;;
      modify (fun w =>
        mkWorld (FS.write (fs w) destination nbytes) (disk w)
                (config_manager w) (drive_client w) (photos_client w)
                (download_manager w) (trace w))
  | Failed progress nbytes e =>
      report progress ;;
      modify (fun w =>
        mkWorld (FS.write (fs w) destination nbytes) (disk w)
                (config_manager w) (drive_client w) (photos_client w)
                (download_manager w) (trace w)) ;;
      raise e
  end.

(* ===================================================================== *)
(** ** core/drive_client.py                                               *)
(* ===================================================================== *)

Module drive_client.

Definition VIDEO_MIME_TYPES : list string :=
  ["video/mp4"; "video/quicktime"; "video/x-msvideo"; "video/webm";
   "video/3gpp"; "video/mpeg"; "video/x-matroska"; "video/x-ms-wmv";
   "video/x-flv"].

Definition DOCUMENT_MIME_TYPES : list string :=
  ["application/pdf";
   "application/msword";
   "application/vnd.openxmlformats-officedocument.wordprocessingml.document";
   "application/vnd.ms-excel";
   "application/vnd.openxmlformats-officedocument.spreadsheetml.sheet";
   "application/vnd.ms-powerpoint";
   "application/vnd.openxmlformats-officedocument.presentationml.presentation"].

(** Google Workspace MIME types and their export formats. *)
Definition GOOGLE_DOCS_EXPORT : Dict.t (string * string) :=
  [("application/vnd.google-apps.document",
    ("application/pdf", ".pdf"));
   ("application/vnd.google-apps.spreadsheet",
    ("application/vnd.openxmlformats-officedocument.spreadsheetml.sheet",
     ".xlsx"));
   ("application/vnd.google-apps.presentation",
    ("application/vnd.openxmlformats-officedocument.presentationml.presentation",
     ".pptx"))].

(** The step "Update destination with correct extension" of
    [_export_file]. *)
Definition export_destination (destination : Path.t) (extension : string)
    : result Path.t :=
  if negb (PyStr.endswith (PyStr.lower (Path.str destination))
                          (PyStr.lower extension))
  then Path.with_suffix destination extension
  else Ok destination.

Section methods.
Variable env : Env.

Definition _get_service : M unit :=
  self ← gets drive_client;
  if DriveClient._service self then mret tt
  else if is_authenticated env then
    set_drive_client (DriveClient.mk true (DriveClient._should_stop self))
  else raise (RuntimeError "Not authenticated with Google").

Definition file_of_item (item : DriveItem.t) : FileState.t :=
  FileState.new (DriveItem.id item) (DriveItem.name item) "drive"
    (default "" (DriveItem.mimeType item))
    (default 0 (DriveItem.size item))
    "pending".

(** The [while True] loop over the pages. *)
Fixpoint list_pages (ps : pages DriveItem.t) (files : list FileState.t)
    : M (list FileState.t) :=
  match ps with
  | LastPage items => mret (files ++ map file_of_item items)
  | NextPage items rest => list_pages rest (files ++ map file_of_item items)
  | PageError e => raise e
  end.

Definition list_all_videos_and_documents
    (include_videos include_documents : bool) : M (list FileState.t) :=
  _get_service ;;
  let q (mime : string) := "mimeType='" +:+ mime +:+ "'" in
  let mime_queries :=
    (if include_videos then map q VIDEO_MIME_TYPES else [])
    ++ (if include_documents
        then map q DOCUMENT_MIME_TYPES
             ++ map (fun kv => q (fst kv)) GOOGLE_DOCS_EXPORT
        else []) in
  match mime_queries with
  | [] => mret []
  | _ =>
      let query :=
        "(" +:+ PyStr.join " or " mime_queries +:+ ") and trashed=false" in
      try_except (list_pages (drive_files_list env query) [])
        (fun e =>
           match e with
           | HttpError msg =>
               emit (LogError ("Error listing Drive files: " +:+ msg)) ;;
               raise e
           | _ => raise e
           end)
  end.

Definition _export_file (file_id : string) (destination : Path.t)
    (source_mime_type : string)
    (progress_callback : option (Z -> Z -> M unit)) : M bool :=
  _get_service ;;
  match Dict.get GOOGLE_DOCS_EXPORT source_mime_type with
  | None =>
      emit (LogWarning ("Unknown export type: " +:+ source_mime_type)) ;;
      mret false
  | Some (export_mime, extension) =>
      (* Update destination with correct extension *)
      destination ← lift_result (export_destination destination extension);
      try_except
        ((* Ensure parent directory exists *)
         fs_do (fun fs => FS.mkdir fs (Path.parent destination)) ;;
         write_chunks destination
           (drive_export_media env file_id export_mime)
           progress_callback ;;
         (* Validate file was exported properly (not empty) *)
         empty ← is_empty_file destination;
         if empty : bool then
           emit (LogWarning ("Exported file is empty, removing: "
                             +:+ Path.str destination)) ;;
           fs_do (fun fs => FS.unlink (unlink_refused env) fs destination) ;;
           mret false
         else mret true)
        (fun e =>
           emit (LogError ("Error exporting file: " +:+ exn_str e)) ;;
           (* Clean up partial file *)
           remove_partial env destination ;;
           mret false)
  end.

Definition download_file (file_id : string) (destination : Path.t)
    (mime_type : string)
    (progress_callback : option (Z -> Z -> M unit)) : M bool :=
  emit (TransferCalled "drive" file_id (Path.str destination)) ;;
  _get_service ;;
  try_except
    ((* Check if this is a Google Workspace file that needs export *)
     if Dict.mem GOOGLE_DOCS_EXPORT mime_type then
       _export_file file_id destination mime_type progress_callback
     else
       (* Ensure parent directory exists *)
       fs_do (fun fs => FS.mkdir fs (Path.parent destination)) ;;
       write_chunks destination (drive_get_media env file_id)
         progress_callback ;;
       (* Validate file was downloaded properly (not empty) *)
       empty ← is_empty_file destination;
       if empty : bool then
         emit (LogWarning ("Downloaded file is empty, removing: "
                           +:+ Path.str destination)) ;;
         fs_do (fun fs => FS.unlink (unlink_refused env) fs destination) ;;
         mret false
       else mret true)
    (fun e =>
       emit (LogError ("Error downloading file: " +:+ exn_str e)) ;;
       (* Clean up partial file *)
       remove_partial env destination ;;
       mret false).

Definition stop : M unit :=
  self ← gets drive_client;
  set_drive_client (DriveClient.mk (DriveClient._service self) true).

Definition reset : M unit :=
  self ← gets drive_client;
  set_drive_client (DriveClient.mk (DriveClient._service self) false).

End methods.

End drive_client.

(* ===================================================================== *)
(** ** core/photos_client.py                                              *)
(* ===================================================================== *)

Module photos_client.

Section methods.
Variable env : Env.

Definition _get_service : M unit :=
  self ← gets photos_client;
  if PhotosClient._service self then mret tt
  else if is_authenticated env then
    match photos_build env with
    | Some e => raise e
    | None =>
        set_photos_client
          (PhotosClient.mk true (PhotosClient._should_stop self))
    end
  else raise (RuntimeError "Not authenticated with Google").

Definition file_of_item (item : MediaItem.t) : FileState.t :=
  FileState.new (MediaItem.id item)
    (default ("video_" +:+ PyStr.take_chars 8 (MediaItem.id item))
             (MediaItem.filename item))
    "photos"
    (default "video/mp4" (MediaItem.mimeType item))
    0   (* Photos API doesn't provide file size *)
    "pending".

Fixpoint list_pages (ps : pages MediaItem.t) (videos : list FileState.t)
    : M (list FileState.t) :=
  match ps with
  | LastPage items => mret (videos ++ map file_of_item items)
  | NextPage items rest =>
      list_pages rest (videos ++ map file_of_item items)
  | PageError e => raise e
  end.

Definition list_all_videos : M (list FileState.t) :=
  _get_service ;;
  try_except (list_pages (photos_search env) [])
    (fun e =>
       match e with
       | HttpError msg =>
           emit (LogError ("Error listing Photos videos: " +:+ msg)) ;;
           raise e
       | _ => raise e
       end).

(** [auth_manager.get_access_token()] *)
Definition get_access_token : option string :=
  if is_authenticated env then token env else None.

Definition download_video (media_item_id : string)
    (destination : Path.t)
    (progress_callback : option (Z -> Z -> M unit)) : M bool :=
  emit (TransferCalled "photos" media_item_id (Path.str destination)) ;;
  _get_service ;;
  try_except
    ((* Get the media item to get the base URL *)
     base_url ← lift_result (photos_get env media_item_id);
     if negb (truthy (from_option VStr VNone base_url)) then
       emit (LogError ("No base URL for media item " +:+ media_item_id)) ;;
       mret false
     else
       (* For videos, append =dv to get the downloadable video *)
       let download_url := default "" base_url +:+ "=dv" in
       if negb (truthy (from_option VStr VNone get_access_token)) then
         emit (LogError "No access token available") ;;
         mret false
       else
         (* Ensure parent directory exists *)
         fs_do (fun fs => FS.mkdir fs (Path.parent destination)) ;;
         (* Download the video with streaming *)
         body ← lift_result (photos_download env download_url);
         write_chunks destination body progress_callback ;;
         (* Validate file was downloaded properly (not empty) *)
         empty ← is_empty_file destination;
         if empty : bool then
           emit (LogWarning ("Downloaded video is empty, removing: "
                             +:+ Path.str destination)) ;;
           fs_do (fun fs => FS.unlink (unlink_refused env) fs destination) ;;
           mret false
         else mret true)
    (fun e =>
       emit (LogError ("Error downloading video: " +:+ exn_str e)) ;;
       (* Clean up partial file *)
       remove_partial env destination ;;
       mret false).

Definition stop : M unit :=
  self ← gets photos_client;
  set_photos_client (PhotosClient.mk (PhotosClient._service self) true).

Definition reset : M unit :=
  self ← gets photos_client;
  set_photos_client (PhotosClient.mk (PhotosClient._service self) false).

End methods.

End photos_client.

(* ===================================================================== *)
(** ** core/transcription.py: the transcript writers                      *)
(* ===================================================================== *)

Module transcription.

(** A segment of the speech recognizer.  The times are binary floating
    point numbers in the source; they are rationals here.  On the times
    that are multiples of 1/1024 below 2^32 seconds, the operations
    [//], [%] and the product by 1000 of the formatters are exact in
    binary64, so both readings agree there (0.0, 1.5 and 3.0 are such
    times). *)
Record Segment : Type := mkSegment {
  start : Q;
  end_ : Q;
  text : string
}.

(** [x // y] and [x % y] for a positive [y]. *)
Definition floordiv (x y : Q) : Q := inject_Z (Qfloor (x / y)).
Definition mod_ (x y : Q) : Q := (x - y * inject_Z (Qfloor (x / y)))%Q.

(** [int(x)]: truncation toward zero. *)
Definition int (x : Q) : Z := Z.quot (Qnum x) (Zpos (Qden x)).

Definition _format_timestamp_srt (seconds : Q) : string :=
  let hours := int (floordiv seconds (3600 # 1)) in
  let minutes := int (floordiv (mod_ seconds (3600 # 1)) (60 # 1)) in
  let secs := int (mod_ seconds (60 # 1)) in
  let millis := int (mod_ seconds (1 # 1) * (1000 # 1))%Q in
  PyStr.format_0d 2 hours +:+ ":" +:+ PyStr.format_0d 2 minutes +:+ ":"
  +:+ PyStr.format_0d 2 secs +:+ "," +:+ PyStr.format_0d 3 millis.

Definition _format_timestamp_vtt (seconds : Q) : string :=
  let hours := int (floordiv seconds (3600 # 1)) in
  let minutes := int (floordiv (mod_ seconds (3600 # 1)) (60 # 1)) in
  let secs := int (mod_ seconds (60 # 1)) in
  let millis := int (mod_ seconds (1 # 1) * (1000 # 1))%Q in
  PyStr.format_0d 2 hours +:+ ":" +:+ PyStr.format_0d 2 minutes +:+ ":"
  +:+ PyStr.format_0d 2 secs +:+ "." +:+ PyStr.format_0d 3 millis.

Definition newline : string := String (ascii_of_nat 10) "".

(** The writers return the text they write to the stream, in order. *)
Definition _write_txt (segments : list Segment) : string :=
  fold_left
    (fun out segment => out +:+ PyStr.strip (text segment) +:+ newline)
    segments "".

(** [for i, segment in enumerate(segments, 1)] *)
Fixpoint write_srt_from (i : Z) (segments : list Segment) (out : string)
    : string :=
  match segments with
  | [] => out
  | segment :: rest =>
      let start := _format_timestamp_srt (start segment) in
      let end_ := _format_timestamp_srt (end_ segment) in
      let out := out +:+ PyStr.of_Z i +:+ newline in
      let out := out +:+ start +:+ " --> " +:+ end_ +:+ newline in
      let out :=
        out +:+ PyStr.strip (text segment) +:+ newline +:+ newline in
      write_srt_from (i + 1) rest out
  end.

Definition _write_srt (segments : list Segment) : string :=
  write_srt_from 1 segments "".

Definition _write_vtt (segments : list Segment) : string :=
  fold_left
    (fun out segment =>
       let start := _format_timestamp_vtt (start segment) in
       let end_ := _format_timestamp_vtt (end_ segment) in
       let out := out +:+ start +:+ " --> " +:+ end_ +:+ newline in
       out +:+ PyStr.strip (text segment) +:+ newline +:+ newline)
    segments ("WEBVTT" +:+ newline +:+ newline).

End transcription.

(* ===================================================================== *)
(** ** core/download_manager.py                                           *)
(* ===================================================================== *)

Module download_manager.

(** The three counters of a run of the worker. *)
Record Counts : Type := mkCounts {
  downloaded_count : Z;
  skipped_count : Z;
  error_count : Z
}.

(** The locals [drive_files], [photos_files] and [errors] of
    [scan_sources]. *)
Record Scanned : Type := mkScanned {
  drive_files : list FileState.t;
  photos_files : list FileState.t;
  errors : list string
}.

(** One turn of the loops "Add new files (preserve existing state for
    already-known files)" of [scan_sources].  The records of the store
    are kept under their id. *)
Definition merge_file (state : Dict.t FileState.t) (file : FileState.t)
    : Dict.t FileState.t :=
  match Dict.get state (FileState.id file) with
  | None => Dict.set state (FileState.id file) file
  | Some existing =>
      (* Update metadata but preserve status *)
      let file := FileState.set_status (FileState.status existing) file in
      let file :=
        FileState.set_downloaded_at (FileState.downloaded_at existing) file in
      let file :=
        FileState.set_local_path (FileState.local_path existing) file in
      Dict.set state (FileState.id file) file
  end.

Definition merge_files (state : Dict.t FileState.t)
    (files : list FileState.t) : Dict.t FileState.t :=
  fold_left merge_file files state.

Section methods.
Variable env : Env.

Definition default_dir : string :=
  Path.str (Paths.get_default_download_dir (home env)).

Definition _scan_drive (include_videos include_documents : bool)
    : M (list FileState.t) :=
  drive_client.list_all_videos_and_documents env
    include_videos include_documents.

Definition _scan_photos : M (list FileState.t) :=
  photos_client.list_all_videos env.

(** The body of [for future in as_completed(futures)] for one scan:
    the task is run to its result, which is collected. *)
Definition collect (source : string) (task : M (list FileState.t))
    (progress_callback : bool) (acc : Scanned) : M Scanned :=
  try_except
    (files ← task;
     if String.eqb source "drive" then
       when progress_callback
         (emit (ScanProgress "Google Drive" (Z.of_nat (length files)))) ;;
       mret (mkScanned files (photos_files acc) (errors acc))
     else
       when progress_callback
         (emit (ScanProgress "Google Photos" (Z.of_nat (length files)))) ;;
       mret (mkScanned (drive_files acc) files (errors acc)))
    (fun e =>
       emit (LogError ("Error scanning " +:+ source +:+ ": "
                       +:+ exn_str e)) ;;
       mret (mkScanned (drive_files acc) (photos_files acc)
                       (errors acc ++ [source +:+ ": " +:+ exn_str e]))).

(** The block "Scan Drive and Photos in parallel" of [scan_sources]:
    the scans are submitted, then collected in the order in which
    they complete. *)
Definition run_scans (config : AppConfig.t) (progress_callback : bool)
    : M Scanned :=
  let acc := mkScanned [] [] [] in
  let want_drive :=
    truthy (AppConfig.download_videos config)
    || truthy (AppConfig.download_documents config) in
  let want_photos :=
    truthy (AppConfig.download_photos config)
    && truthy (AppConfig.download_videos config) in
  (* Submit Drive scan *)
  when want_drive (emit (Submitted "drive")) ;;
  (* Submit Photos scan *)
  when want_photos (emit (Submitted "photos")) ;;
  let drive_task :=
    _scan_drive (truthy (AppConfig.download_videos config))
                (truthy (AppConfig.download_documents config)) in
  let collect_drive (acc : Scanned) : M Scanned :=
    if want_drive
    then collect "drive" drive_task progress_callback acc
    else mret acc in
  let collect_photos (acc : Scanned) : M Scanned :=
    if want_photos
    then collect "photos" _scan_photos progress_callback acc
    else mret acc in
  (* Collect results *)
  if drive_completes_first env
  then acc ← collect_drive acc; collect_photos acc
  else acc ← collect_photos acc; collect_drive acc.

(** The rest of [scan_sources]: "Update state with found files",
    "Save state", "Return stats".  The list [errors] is not read. *)
Definition store_scanned (acc : Scanned) : M DownloadStats.t :=
  (* Update state with found files *)
  drive_state ← cm_get ConfigManager.get_drive_state;
  photos_state ← cm_get ConfigManager.get_photos_state;
  (* Add new files (preserve existing state for already-known files) *)
  modify (fun w =>
    mkWorld (fs w) (disk w)
      (ConfigManager.set_drive_state
         (merge_files drive_state (drive_files acc))
         (config_manager w))
      (drive_client w) (photos_client w) (download_manager w)
      (trace w)) ;;
  modify (fun w =>
    mkWorld (fs w) (disk w)
      (ConfigManager.set_photos_state
         (merge_files photos_state (photos_files acc))
         (config_manager w))
      (drive_client w) (photos_client w) (download_manager w)
      (trace w)) ;;
  (* Save state *)
  cm_put (fun d cm => (ConfigManager.save_drive_state d cm, cm)) ;;
  cm_put (fun d cm => (ConfigManager.save_photos_state d cm, cm)) ;;
  (* Return stats *)
  gets (fun w => ConfigManager.get_download_stats (config_manager w)).

(** [progress_callback] tells whether the caller passed one. *)
Definition scan_sources (progress_callback : bool)
    : M DownloadStats.t :=
  if negb (is_authenticated env) then
    raise (RuntimeError "Not authenticated with Google")
  else
    config ← cm_get (ConfigManager.get_config default_dir);
    acc ← run_scans config progress_callback;
    store_scanned acc.

Definition start_download : M unit :=
  self ← gets download_manager;
  if DownloadManager._is_downloading self then
    emit (LogWarning "Download already in progress")
  else
    set_download_manager
      (DownloadManager.mk true false false
         (DownloadManager._current_file self) true
         (DownloadManager._on_progress self)
         (DownloadManager._on_file_complete self)
         (DownloadManager._on_download_complete self)
         (DownloadManager._on_error self)) ;;
    emit (ThreadStarted "_download_worker").

Definition pause_download : M unit :=
  self ← gets download_manager;
  if negb (DownloadManager._is_downloading self) then mret tt
  else
    set_download_manager
      (DownloadManager.mk (DownloadManager._is_downloading self) true
         (DownloadManager._should_stop self)
         (DownloadManager._current_file self)
         (DownloadManager._download_thread self)
         (DownloadManager._on_progress self)
         (DownloadManager._on_file_complete self)
         (DownloadManager._on_download_complete self)
         (DownloadManager._on_error self)).

Definition resume_download : M unit :=
  self ← gets download_manager;
  if negb (DownloadManager._is_downloading self) then mret tt
  else
    set_download_manager
      (DownloadManager.mk (DownloadManager._is_downloading self) false
         (DownloadManager._should_stop self)
         (DownloadManager._current_file self)
         (DownloadManager._download_thread self)
         (DownloadManager._on_progress self)
         (DownloadManager._on_file_complete self)
         (DownloadManager._on_download_complete self)
         (DownloadManager._on_error self)).

Definition set_current_file (name : option string) : M unit :=
  self ← gets download_manager;
  set_download_manager
    (DownloadManager.mk (DownloadManager._is_downloading self)
       (DownloadManager._is_paused self)
       (DownloadManager._should_stop self) name
       (DownloadManager._download_thread self)
       (DownloadManager._on_progress self)
       (DownloadManager._on_file_complete self)
       (DownloadManager._on_download_complete self)
       (DownloadManager._on_error self)).

Definition set_is_downloading (b : bool) : M unit :=
  self ← gets download_manager;
  set_download_manager
    (DownloadManager.mk b
       (DownloadManager._is_paused self)
       (DownloadManager._should_stop self)
       (DownloadManager._current_file self)
       (DownloadManager._download_thread self)
       (DownloadManager._on_progress self)
       (DownloadManager._on_file_complete self)
       (DownloadManager._on_download_complete self)
       (DownloadManager._on_error self)).

(** "Determine destination directory" and "Create destination path"
    of [_download_single_file]: the directory is created on the way. *)
Definition destination_of (file_state : FileState.t)
    (source_type : string) (download_path : Path.t) (fs : FS.t)
    : result (Path.t * FS.t) :=
  let mime_type := FileState.mime_type file_state in
  let dest_dir :=
    if PyStr.startswith mime_type "video/"
       || Dict.mem drive_client.GOOGLE_DOCS_EXPORT mime_type
    then
      if String.eqb source_type "drive" then
        if PyStr.startswith mime_type "video/"
        then Paths.get_drive_videos_dir (home env) (Some download_path) fs
        else Paths.get_documents_dir (home env) (Some download_path) fs
      else Paths.get_photos_videos_dir (home env) (Some download_path) fs
    else Paths.get_documents_dir (home env) (Some download_path) fs in
  match dest_dir with
  | Ok (dest_dir, fs') =>
      Ok (Path.joinpath dest_dir (FileState.name file_state), fs')
  | Raise e => Raise e
  end.

Definition resolve_destination (file_state : FileState.t)
    (source_type : string) (download_path : Path.t) : M Path.t :=
  fun w =>
    match destination_of file_state source_type download_path (fs w) with
    | Ok (destination, fs') => (set_fs fs' ;; mret destination) w
    | Raise e => (Raise e, w)
    end.

(** The wrapper [progress_cb]. *)
Definition progress_cb (name : string) (current total : Z) : M unit :=
  self ← gets download_manager;
  when (DownloadManager._on_progress self)
       (emit (OnProgress name current total)).

Definition report_error (name msg : string) : M unit :=
  self ← gets download_manager;
  when (DownloadManager._on_error self) (emit (OnError name msg)) ;;
  emit (NotifyDownloadError name msg).

(** Returns the file state as the call leaves it, then
    [(success, was_skipped)].  The code writes [local_path] and
    [error_message] into the object it is given, which is the one the
    state of the manager holds: the state in memory changes at once, the
    file on disk when [update_drive_file] or [update_photos_file] is
    called.  Here the record is passed by value and the state gets it
    when [download_item] puts it back under its [id]; for a state that
    keeps every record under its [id], that is the same state once the
    item is done. *)
Definition _download_single_file (file_state : FileState.t)
    (source_type : string) (download_path : Path.t)
    : M (FileState.t * (bool * bool)) :=
  try_except
    (destination ← resolve_destination file_state source_type
                     download_path;
     (* Check if file already exists (skip) *)
     ex ← gets (fun w => FS.exists_ (fs w) destination);
     if ex : bool then
       mret (FileState.set_local_path (Some (Path.str destination))
               file_state,
             (true, true))   (* Success, was skipped *)
     else
       (* Download based on source *)
       success ←
         (if String.eqb source_type "drive" then
            drive_client.download_file env (FileState.id file_state)
              destination (FileState.mime_type file_state)
              (Some (progress_cb (FileState.name file_state)))
          else
            photos_client.download_video env (FileState.id file_state)
              destination
              (Some (progress_cb (FileState.name file_state))));
       if success : bool then
         mret (FileState.set_local_path (Some (Path.str destination))
                 file_state,
               (true, false))
       else
         report_error (FileState.name file_state) "Download failed" ;;
         mret (FileState.set_error_message (Some "Download failed")
                 file_state,
               (false, false)))   (* Success/fail, not skipped *)
    (fun e =>
       emit (LogError ("Error downloading "
                       +:+ FileState.name file_state +:+ ": "
                       +:+ exn_str e)) ;;
       report_error (FileState.name file_state) (exn_str e) ;;
       mret (FileState.set_error_message (Some (exn_str e)) file_state,
             (false, false))).   (* Failed, not skipped *)

(** The body of the loop of [_download_worker] for the [i]-th item,
    past the checks of the stop and pause flags. *)
Definition download_item (i : nat) (file_state : FileState.t)
    (source_type : string) (download_path : Path.t) (counts : Counts)
    : M Counts :=
  (* Download the file *)
  set_current_file (Some (FileState.name file_state)) ;;
  r ← _download_single_file file_state source_type download_path;
  let '(file_state, (success, was_skipped)) := r in
  r ← (if success : bool then
         let counts :=
           if was_skipped : bool
           then mkCounts (downloaded_count counts)
                         (skipped_count counts + 1) (error_count counts)
           else mkCounts (downloaded_count counts + 1)
                         (skipped_count counts) (error_count counts) in
         let file_state := FileState.set_status "complete" file_state in
         let file_state :=
           FileState.set_downloaded_at (Some (now env i)) file_state in
         self ← gets download_manager;
         when (DownloadManager._on_file_complete self)
              (emit (OnFileComplete file_state)) ;;
         mret (file_state, counts)
       else
         mret (FileState.set_status "error" file_state,
               mkCounts (downloaded_count counts) (skipped_count counts)
                        (error_count counts + 1)));
  let '(file_state, counts) := r in
  (* Update state *)
  (if String.eqb source_type "drive"
   then cm_put (ConfigManager.update_drive_file file_state)
   else cm_put (ConfigManager.update_photos_file file_state)) ;;
  mret counts.

(** The writes of [stop_download] that the worker reads:
    [_should_stop = True] and [_is_paused = False], unless no run is going
    on. *)
Definition request_stop : M unit :=
  self ← gets download_manager;
  if negb (DownloadManager._is_downloading self) then mret tt
  else
    set_download_manager
      (DownloadManager.mk (DownloadManager._is_downloading self) false true
         (DownloadManager._current_file self)
         (DownloadManager._download_thread self)
         (DownloadManager._on_progress self)
         (DownloadManager._on_file_complete self)
         (DownloadManager._on_download_complete self)
         (DownloadManager._on_error self)).

(** How the worker leaves the pause test of an item. *)
Inductive after_wait : Type :=
  | GoOn      (* not paused, or no longer: the item is downloaded *)
  | Leave     (* [_should_stop] is seen: [break] *)
  | Forever.  (* paused and never resumed nor stopped: the wait goes on *)

(** [while self._is_paused: if self._should_stop: break; wait(0.5)], then
    [if self._should_stop: break], at the [i]-th item: the other threads
    act on the flags, and the wait ends when [_is_paused] is cleared or
    [_should_stop] is set. *)
Definition wait_while_paused (i : nat) : M after_wait :=
  match pause_at env i with
  | Undisturbed => mret tt
  | Resumed => resume_download
  | StoppedWhilePaused => pause_download ;; request_stop
  | PausedForGood => pause_download
  end ;;
  self ← gets download_manager;
  if DownloadManager._should_stop self then mret Leave
  else if DownloadManager._is_paused self then mret Forever
  else mret GoOn.

(** [for file_state, source_type in pending_files]: the loop leaves at
    the first item before which the stop flag is seen, and waits at an
    item as long as the run is paused.  [None]: the wait never ends, and
    the loop does not return. *)
Fixpoint download_loop (i : nat)
    (pending_files : list (FileState.t * string))
    (download_path : Path.t) (counts : Counts) : M (option Counts) :=
  match pending_files with
  | [] => mret (Some counts)
  | (file_state, source_type) :: rest =>
      (* Check for stop/pause *)
      self ← gets download_manager;
      if DownloadManager._should_stop self || stop_requested env i
      then mret (Some counts)
      else
        go ← wait_while_paused i;
        match go with
        | Leave => mret (Some counts)
        | Forever => mret None
        | GoOn =>
            counts ← download_item i file_state source_type download_path
                       counts;
            download_loop (S i) rest download_path counts
        end
  end.

Definition pending_of (state : Dict.t FileState.t) (source_type : string)
    : list (FileState.t * string) :=
  map (fun kv => (snd kv, source_type))
    (List.filter
       (fun kv => String.eqb (FileState.status (snd kv)) "pending")
       (Dict.items state)).

(** [None]: the worker never returns, it waits for the run to be
    resumed. *)
Definition _download_worker : M (option unit) :=
  config ← cm_get (ConfigManager.get_config default_dir);
  download_path ←
    match AppConfig.download_path config with
    | VStr s => mret (Path.of_string s)
    | _ => raise (TypeError "expected str, bytes or os.PathLike object")
    end;
  (* Get all pending files *)
  drive_state ← cm_get ConfigManager.get_drive_state;
  photos_state ← cm_get ConfigManager.get_photos_state;
  let pending_files :=
    pending_of drive_state "drive" ++ pending_of photos_state "photos" in
  match pending_files with
  | [] =>
      set_is_downloading false ;;
      self ← gets download_manager;
      stats ← gets (fun w =>
                 ConfigManager.get_download_stats (config_manager w));
      when (DownloadManager._on_download_complete self)
           (emit (OnDownloadComplete stats)) ;;
      mret (Some tt)
  | _ =>
      emit (NotifyDownloadStarted (Z.of_nat (length pending_files))) ;;
      looped ← download_loop 0 pending_files download_path
                 (mkCounts 0 0 0);
      match looped with
      | None => mret None
      | Some counts =>
          set_current_file None ;;
          set_is_downloading false ;;
          stats ← gets (fun w =>
                     ConfigManager.get_download_stats (config_manager w));
          emit (NotifyDownloadComplete (downloaded_count counts)
                  (skipped_count counts) (error_count counts)) ;;
          self ← gets download_manager;
          when (DownloadManager._on_download_complete self)
               (emit (OnDownloadComplete stats)) ;;
          mret (Some tt)
      end
  end.

End methods.

End download_manager.
From Stdlib Require Import Sorted.

(* ===================================================================== *)
(** ** utils/config.py: the rest of ConfigManager                         *)
(* ===================================================================== *)

Module config.

Definition set_transcription_state (d : Dict.t TranscriptionState.t)
    (self : ConfigManager.t) : ConfigManager.t :=
  ConfigManager.mk (ConfigManager._config self)
    (ConfigManager._drive_state self) (ConfigManager._photos_state self) d.

Definition save_transcription_state (disk : Disk) (self : ConfigManager.t)
    : Disk :=
  mkDisk (config_file disk) (drive_state_file disk) (photos_state_file disk)
         (Stored (ConfigManager._transcription_state self)).

Definition update_transcription (state : TranscriptionState.t) (disk : Disk)
    (self : ConfigManager.t) : Disk * ConfigManager.t :=
  let self :=
    set_transcription_state
      (Dict.set (ConfigManager._transcription_state self)
                (TranscriptionState.video_path state) state)
      self in
  (save_transcription_state disk self, self).


(** The sort key of [get_all_files]: [f.downloaded_at or ""]. *)
Definition downloaded_key (f : FileState.t) : string :=
  match FileState.downloaded_at f with
  | Some s => s
  | None => ""
  end.

(** [sorted(l, key=downloaded_key, reverse=True)]: a stable sort, largest
    key first; records with equal keys stay in the order of [l]. *)
Fixpoint insert_desc (x : FileState.t) (l : list FileState.t)
    : list FileState.t :=
  match l with
  | [] => [x]
  | y :: l' =>
      if String.ltb (downloaded_key x) (downloaded_key y)
      then y :: insert_desc x l'
      else x :: y :: l'
  end.

Definition sorted_desc (l : list FileState.t) : list FileState.t :=
  fold_right insert_desc [] l.

Definition get_all_files (self : ConfigManager.t) : list FileState.t :=
  let all_files :=
    Dict.values (ConfigManager._drive_state self)
    ++ Dict.values (ConfigManager._photos_state self) in
  sorted_desc all_files.

Definition get_videos_for_transcription (self : ConfigManager.t)
    : list FileState.t :=
  List.filter
    (fun state =>
       FileState.is_video state
       && String.eqb (FileState.status state) "complete"
       && String.eqb (FileState.transcription_status state) "pending"
       && truthy (from_option VStr VNone (FileState.local_path state)))
    (get_all_files self).

End config.

(* ===================================================================== *)
(** ** core/transcription.py: TranscriptionManager                        *)
(* ===================================================================== *)

Module TranscriptionManager.



(** One of the two loops of [get_pending_videos]. *)
Definition pending_in (transcription_state : Dict.t TranscriptionState.t)
    (state : Dict.t FileState.t) : list string :=
  flat_map
    (fun file_state =>
       if String.eqb (FileState.status file_state) "complete"
          && PyStr.startswith (FileState.mime_type file_state) "video/"
       then
         match FileState.local_path file_state with
         | Some local_path =>
             if truthy (VStr local_path) then
               (* Check if not already transcribed *)
               match Dict.get transcription_state local_path with
               | None => [local_path]
               | Some trans =>
                   if String.eqb (TranscriptionState.status trans) "pending"
                   then [local_path] else []
               end
             else []
         | None => []
         end
       else [])
    (Dict.values state).

Definition get_pending_videos : M (list string) :=
  transcription_state ← cm_get ConfigManager.get_transcription_state;
  (* Get all completed video downloads *)
  drive_state ← cm_get ConfigManager.get_drive_state;
  let pending := pending_in transcription_state drive_state in
  photos_state ← cm_get ConfigManager.get_photos_state;
  mret (pending ++ pending_in transcription_state photos_state).

Definition get_pending_count : M Z :=
  videos ← get_pending_videos;
  mret (Z.of_nat (length videos)).




(** How [subprocess.run] ends. *)
Inductive run_outcome : Type :=
  | Completed (returncode : Z) (stderr : string)
  | TimeoutExpired
  | RunFailed (e : exn).

(** What the transcription relies on outside of the program. *)
Record Tools : Type := mkTools {
  (** [self._load_model(name)]: whether the model is loaded, and what
      loading leaves in the file system (the cache directory, the files
      of the model) *)
  load_model : value -> FS.t -> bool * FS.t;
  (** [shutil.which("ffmpeg")] finds the program *)
  ffmpeg_on_path : bool;
  (** the run of ffmpeg on a video: the size of the audio file it
      leaves, if it writes one, and how the run ends *)
  ffmpeg_run : string -> string -> option Z * run_outcome;
  (** [self._model.transcribe(audio, language=..)] and the listing of
      its segments *)
  model_transcribe : string -> option string
                     -> result (list transcription.Segment)
}.

(** [try: m finally: final] *)
Definition try_finally {A} (m : M A) (final : M unit) : M A :=
  fun w =>
    let '(r, w1) := m w in
    match final w1 with
    | (Ok _, w2) => (r, w2)
    | (Raise e, w2) => (Raise e, w2)
    end.

(** A file written by another program. *)
Definition written_by_tool (fs : FS.t) (p : Path.t) (size : option Z)
    : FS.t :=
  match size, fs !! Path.str p with
  | Some _, Some FS.Dir => fs
  | Some n, _ => FS.write fs p n
  | None, _ => fs
  end.

(** The bytes of a text written in text mode: a line feed is written as
    carriage return and line feed. *)
Fixpoint text_size (s : string) : Z :=
  match s with
  | EmptyString => 0
  | String c s' =>
      (if Ascii.eqb c (ascii_of_nat 10) then 2 else 1) + text_size s'
  end.

(** [with open(output_path, "w", encoding="utf-8") as f: f.write(..)] for
    the text a writer puts out. *)
Definition write_text (output_path : Path.t) (text : string) : M unit :=
  fs_do (fun fs => FS.open_wb fs output_path) ;;
  modify (fun w =>
    mkWorld (FS.write (fs w) output_path (text_size text)) (disk w)
            (config_manager w) (drive_client w) (photos_client w)
            (download_manager w) (trace w)).

Section methods.
Variable env : Env.
Variable tools : Tools.

Definition _load_model (model_name : value) : M bool :=
  fun w =>
    let '(loaded, fs') := load_model tools model_name (fs w) in
    (set_fs fs' ;; mret loaded) w.

Definition _extract_audio (video_path audio_path : Path.t) : M bool :=
  if negb (ffmpeg_on_path tools) then
    emit (LogError "ffmpeg not found in PATH") ;;
    mret false
  else
    let '(size, outcome) :=
      ffmpeg_run tools (Path.str video_path) (Path.str audio_path) in
    modify (fun w =>
      mkWorld (written_by_tool (fs w) audio_path size) (disk w)
              (config_manager w) (drive_client w) (photos_client w)
              (download_manager w) (trace w)) ;;
    match outcome with
    | Completed returncode stderr =>
        if negb (Z.eqb returncode 0) then
          emit (LogError ("ffmpeg error: " +:+ stderr)) ;;
          mret false
        else gets (fun w => FS.exists_ (fs w) audio_path)
    | TimeoutExpired =>
        emit (LogError "Audio extraction timed out") ;;
        mret false
    | RunFailed e =>
        emit (LogError ("Audio extraction failed: " +:+ exn_str e)) ;;
        mret false
    end.

Definition transcribe_video (video_path : Path.t)
    (output_format language : string) : M (option string) :=
  config ← cm_get (ConfigManager.get_config
                     (download_manager.default_dir env));
  (* Load model if needed *)
  loaded ← _load_model (AppConfig.transcription_model config);
  if negb loaded then mret None
  else
    ex ← gets (fun w => FS.exists_ (fs w) video_path);
    if negb ex then
      emit (LogError ("Video file not found: " +:+ Path.str video_path)) ;;
      mret None
    else
      (* Check if transcript already exists *)
      txt_path ← lift_result (Path.with_suffix video_path ".txt");
      srt_path ← lift_result (Path.with_suffix video_path ".srt");
      vtt_path ← lift_result (Path.with_suffix video_path ".vtt");
      txt_exists ← gets (fun w => FS.exists_ (fs w) txt_path);
      if txt_exists : bool then mret (Some (Path.str txt_path))
      else
        srt_exists ← gets (fun w => FS.exists_ (fs w) srt_path);
        if srt_exists : bool then mret (Some (Path.str srt_path))
        else
          vtt_exists ← gets (fun w => FS.exists_ (fs w) vtt_path);
          if vtt_exists : bool then mret (Some (Path.str vtt_path))
          else
            (* Create audio temp file *)
            audio_path ← lift_result (Path.with_suffix video_path ".wav");
            try_finally
              ((* Extract audio *)
               extracted ← _extract_audio video_path audio_path;
               if negb extracted then mret None
               else
                 (* Handle auto language detection *)
                 let transcribe_language :=
                   if String.eqb language "auto" then None
                   else Some language in
                 (* Collect segments *)
                 all_segments ←
                   lift_result
                     (model_transcribe tools (Path.str audio_path)
                        transcribe_language);
                 (* Generate output based on format *)
                 transcript_path ←
                   (if String.eqb output_format "srt" then
                      transcript_path ←
                        lift_result (Path.with_suffix video_path ".srt");
                      write_text transcript_path
                        (transcription._write_srt all_segments) ;;
                      mret transcript_path
                    else if String.eqb output_format "vtt" then
                      transcript_path ←
                        lift_result (Path.with_suffix video_path ".vtt");
                      write_text transcript_path
                        (transcription._write_vtt all_segments) ;;
                      mret transcript_path
                    else if String.eqb output_format "both" then
                      (* Create both txt and srt files *)
                      txt_path ←
                        lift_result (Path.with_suffix video_path ".txt");
                      srt_path ←
                        lift_result (Path.with_suffix video_path ".srt");
                      write_text txt_path
                        (transcription._write_txt all_segments) ;;
                      write_text srt_path
                        (transcription._write_srt all_segments) ;;
                      mret txt_path   (* Return txt path as primary *)
                    else
                      transcript_path ←
                        lift_result (Path.with_suffix video_path ".txt");
                      write_text transcript_path
                        (transcription._write_txt all_segments) ;;
                      mret transcript_path);
                 mret (Some (Path.str transcript_path)))
              ((* Cleanup audio file *)
               remove_partial env audio_path).

End methods.

End TranscriptionManager.

(* ===================================================================== *)
(** ** core/download_manager.py: the rest of DownloadManager              *)
(* ===================================================================== *)

Module download_control.

Section methods.
Variable env : Env.

Definition stop_download : M unit :=
  self ← gets download_manager;
  if negb (DownloadManager._is_downloading self) then mret tt
  else
    set_download_manager
      (DownloadManager.mk (DownloadManager._is_downloading self) false true
         (DownloadManager._current_file self)
         (DownloadManager._download_thread self)
         (DownloadManager._on_progress self)
         (DownloadManager._on_file_complete self)
         (DownloadManager._on_download_complete self)
         (DownloadManager._on_error self)) ;;
    (* Stop the clients *)
    drive_client.stop ;;
    photos_client.stop ;;
    (* Wait for thread to finish: the wait changes nothing here *)
    self ← gets download_manager;
    set_download_manager
      (DownloadManager.mk false (DownloadManager._is_paused self)
         (DownloadManager._should_stop self)
         (DownloadManager._current_file self)
         (DownloadManager._download_thread self)
         (DownloadManager._on_progress self)
         (DownloadManager._on_file_complete self)
         (DownloadManager._on_download_complete self)
         (DownloadManager._on_error self)).

Definition reset : M unit :=
  self ← gets download_manager;
  set_download_manager
    (DownloadManager.mk false false false None
       (DownloadManager._download_thread self)
       (DownloadManager._on_progress self)
       (DownloadManager._on_file_complete self)
       (DownloadManager._on_download_complete self)
       (DownloadManager._on_error self)) ;;
  drive_client.reset ;;
  photos_client.reset.

Definition get_statistics : M DownloadStats.t :=
  gets (fun w => ConfigManager.get_download_stats (config_manager w)).

Definition with_status (status : string) (state : Dict.t FileState.t)
    : list FileState.t :=
  List.filter (fun file_state =>
                 String.eqb (FileState.status file_state) status)
    (Dict.values state).

Definition get_pending_files : M (list FileState.t) :=
  drive_state ← cm_get ConfigManager.get_drive_state;
  let pending := with_status "pending" drive_state in
  photos_state ← cm_get ConfigManager.get_photos_state;
  mret (pending ++ with_status "pending" photos_state).

Definition get_completed_files : M (list FileState.t) :=
  drive_state ← cm_get ConfigManager.get_drive_state;
  let completed := with_status "complete" drive_state in
  photos_state ← cm_get ConfigManager.get_photos_state;
  mret (completed ++ with_status "complete" photos_state).

End methods.

End download_control.

(* ===================================================================== *)
(** ** Concrete situations                                                *)
(* ===================================================================== *)

(** The inputs at which the properties below are instantiated. *)
Module Scenario.

Definition home0 : Path.t := Path.of_string "C:\Users\ana".

(** A signed-in user, an empty Drive and an empty photo library. *)
Definition env0 : Env :=
  mkEnv true (Some "ya29.token") home0
    (fun _ => LastPage []) (LastPage [])
    (fun _ => Finished [50; 100] 2048)
    (fun _ _ => Finished [100] 1024)
    (fun _ => Ok (Some "https://photos.example/item"))
    (fun _ => Ok (Finished [100] 4096))
    (fun _ => "2026-03-01T12:00:00")
    (fun _ => false)
    true
    None (fun _ => false) (fun _ => Undisturbed).

Definition disk0 : Disk := mkDisk Absent Absent Absent Absent.

(** A fresh process on a machine where nothing was saved yet. *)
Definition world0 : World :=
  mkWorld ∅ disk0 ConfigManager.new DriveClient.new PhotosClient.new
          DownloadManager.new [].

Definition with_config_manager (cm : ConfigManager.t) (w : World) : World :=
  mkWorld (fs w) (disk w) cm (drive_client w) (photos_client w)
          (download_manager w) (trace w).


Definition with_disk (d : Disk) (w : World) : World :=
  mkWorld (fs w) d (config_manager w) (drive_client w) (photos_client w)
          (download_manager w) (trace w).

(** *** A rescan of a video that was downloaded and transcribed *)

Definition clip_path : string := "C:\dl\Videos\Drive\clip.mp4".

Definition clip_done : FileState.t :=
  FileState.mk "f1" "clip.mp4" "drive" "video/mp4" 2048 "complete"
    (Some "2026-02-01T10:00:00") (Some clip_path) None None
    "complete" (Some "2026-02-02T08:30:00").

Definition clip_transcribed : TranscriptionState.t :=
  TranscriptionState.mk clip_path "complete"
    (Some "C:\dl\Videos\Drive\clip.txt") (Some "2026-02-02T08:30:00") None.

Definition env_rescan : Env :=
  with_drive_files_list
    (fun _ => LastPage
       [DriveItem.mk "f1" "clip-renamed.mp4" (Some "video/mp4") (Some 2048)])
    env0.

Definition world_rescan : World :=
  with_config_manager
    (ConfigManager.mk None [("f1", clip_done)] []
       [(clip_path, clip_transcribed)])
    world0.

Definition clip_destination : Path.t := Path.of_string clip_path.

(** Drive answers the download of any file with an empty body. *)
Definition env_empty_download : Env :=
  with_drive_get_media (fun _ => Finished [] 0) env0.

(** The same, and the system refuses to remove files (they are in use). *)
Definition env_locked_empty_download : Env :=
  with_unlink_refused (fun _ => true) env_empty_download.

(** *** An export *)

Definition sheet_mime : string := "application/vnd.google-apps.spreadsheet".

(** A Google Sheet whose name carries the extension in capitals. *)
Definition budget_destination : Path.t :=
  Path.of_string "C:\dl\Documents\Budget.XLSX".

Definition report_destination : Path.t :=
  Path.of_string "C:\dl\Documents\report.v2".

(** *** A pending video that is already on disk *)

Definition clip_pending : FileState.t :=
  FileState.new "f1" "clip.mp4" "drive" "video/mp4" 2048 "pending".

Definition download_dir : Path.t := Path.of_string "C:\dl".

Definition fs_with_clip : FS.t :=
  {[ "C:\dl" := FS.Dir; "C:\dl\Videos" := FS.Dir;
     "C:\dl\Videos\Drive" := FS.Dir;
     clip_path := FS.File 2048 ]}.

Definition world_clip_on_disk : World :=
  mkWorld fs_with_clip disk0
    (ConfigManager.mk
       (Some (AppConfig.mk (VStr "C:\dl") (VBool false) (VBool true)
                (VStr "small") (VStr "txt") (VStr "en") (VBool true)
                (VBool true) (VBool true) (VInt 3)
                AppConfig.default_exclude_patterns))
       [("f1", clip_pending)] [] [])
    DriveClient.new PhotosClient.new
    (DownloadManager.mk true false false None true false true true false)
    [].

(** *** No credentials *)

Definition env_signed_out : Env :=
  mkEnv false None home0
    (fun _ => PageError (HttpError "401 Unauthorized"))
    (PageError (HttpError "401 Unauthorized"))
    (fun _ => Failed [] 0 (HttpError "401 Unauthorized"))
    (fun _ _ => Failed [] 0 (HttpError "401 Unauthorized"))
    (fun _ => Raise (HttpError "401 Unauthorized"))
    (fun _ => Raise (RequestException "401 Unauthorized"))
    (fun _ => "2026-03-01T12:00:00")
    (fun _ => false)
    true
    None (fun _ => false) (fun _ => Undisturbed).

(** An idle process that knows of one pending video. *)
Definition world_pending : World :=
  mkWorld ∅ disk0
    (ConfigManager.mk
       (Some (AppConfig.mk (VStr "C:\dl") (VBool false) (VBool true)
                (VStr "small") (VStr "txt") (VStr "en") (VBool true)
                (VBool true) (VBool true) (VInt 3)
                AppConfig.default_exclude_patterns))
       [("f1", clip_pending)] [] [])
    DriveClient.new PhotosClient.new DownloadManager.new [].

(** *** A scan in which the Drive listing fails *)

Definition beach : MediaItem.t :=
  MediaItem.mk "p1" (Some "beach.mp4") (Some "video/mp4").

Definition env_drive_fails : Env :=
  with_drive_files_list (fun _ => PageError (HttpError "quota exceeded"))
    (with_photos_search (LastPage [beach]) env0).

(** The same, where the Drive listing succeeds and is empty. *)
Definition env_drive_empty : Env :=
  with_drive_files_list (fun _ => LastPage [])
    (with_photos_search (LastPage [beach]) env0).

(** *** Photos wanted, videos not *)

Definition config_photos_only : AppConfig.t :=
  AppConfig.mk (VStr "C:\dl") (VBool false) (VBool true) (VStr "small")
    (VStr "txt") (VStr "en") (VBool false) (VBool true) (VBool true)
    (VInt 3) AppConfig.default_exclude_patterns.

Definition world_photos_only : World :=
  with_config_manager
    (ConfigManager.mk (Some config_photos_only) [] [] []) world0.

(** A photo library that holds one video. *)
Definition env_one_photo : Env := with_photos_search (LastPage [beach]) env0.

(** *** Statistics *)

(** A completed video that the record itself marks as transcribed,
    while the transcription document has no entry for it. *)
Definition cm_marked_done : ConfigManager.t :=
  ConfigManager.mk None [("f1", clip_done)] [] [].

Definition video (id name status : string) (path : option string)
    : FileState.t :=
  FileState.mk id name "drive" "video/mp4" 0 status
    (if String.eqb status "complete" then Some "2026-02-01T10:00:00"
     else None)
    path None None "pending" None.

Definition document (id name status : string) (path : option string)
    : FileState.t :=
  FileState.mk id name "drive" "application/pdf" 0 status
    (if String.eqb status "complete" then Some "2026-02-01T10:00:00"
     else None)
    path None None "pending" None.

(** Five records, three of them complete: two videos and a document;
    one of the two videos has been transcribed. *)
Definition cm_five : ConfigManager.t :=
  ConfigManager.mk None
    [("f1", video "f1" "a.mp4" "complete" (Some "C:\dl\Videos\Drive\a.mp4"));
     ("f2", video "f2" "b.mp4" "complete" (Some "C:\dl\Videos\Drive\b.mp4"));
     ("f3", document "f3" "c.pdf" "complete" (Some "C:\dl\Documents\c.pdf"));
     ("f4", video "f4" "d.mp4" "pending" None)]
    [("p1", FileState.mk "p1" "e.mp4" "photos" "video/mp4" 0 "error"
              None None (Some "Download failed") None "pending" None)]
    [("C:\dl\Videos\Drive\a.mp4",
      TranscriptionState.mk "C:\dl\Videos\Drive\a.mp4" "complete"
        (Some "C:\dl\Videos\Drive\a.txt") (Some "2026-02-02T08:30:00")
        None)].

(** *** Configuration *)

Definition default_dir0 : string :=
  Path.str (Paths.get_default_download_dir home0).

(** The defaults, with the exclusion patterns changed by the user. *)
Definition config_bak : AppConfig.t :=
  AppConfig.mk (VStr "D:\backup") (VBool false) (VBool true) (VStr "small")
    (VStr "txt") (VStr "en") (VBool true) (VBool true) (VBool true)
    (VInt 3) (VList [VStr "*.bak"]).

(** *** Transcripts *)

Definition two_segments : list transcription.Segment :=
  [transcription.mkSegment 0 (3 # 2) "hello";
   transcription.mkSegment (3 # 2) 3 "world"].

End Scenario.

(** Further inputs. *)
Module Example.

(** The user asks to stop while the first file of a run is downloaded:
    the request is seen before the second. *)
Definition env_stop_at_second : Env :=
  mkEnv true (Some "ya29.token") Scenario.home0
    (fun _ => LastPage []) (LastPage [])
    (fun _ => Finished [50; 100] 2048)
    (fun _ _ => Finished [100] 1024)
    (fun _ => Ok (Some "https://photos.example/item"))
    (fun _ => Ok (Finished [100] 4096))
    (fun _ => "2026-03-01T12:00:00")
    (fun n => Nat.eqb n 1)
    true
    None (fun _ => false) (fun _ => Undisturbed).

Definition talk_pending : FileState.t :=
  FileState.new "f2" "talk.mp4" "drive" "video/mp4" 4096 "pending".

Definition two_pending : list (FileState.t * string) :=
  [(Scenario.clip_pending, "drive"); (talk_pending, "drive")].


(** A photo library of two pages; the second item has no file name. *)
Definition env_two_photo_pages : Env :=
  with_photos_search
    (NextPage [Scenario.beach]
       (LastPage [MediaItem.mk "AF1QipNxyz987" None None]))
    Scenario.env0.

(** Tools that work: the model loads, ffmpeg leaves an audio file, the
    model hears two segments. *)
Definition tools0 : TranscriptionManager.Tools :=
  TranscriptionManager.mkTools
    (fun _ fs => (true, fs)) true
    (fun _ _ => (Some 64000, TranscriptionManager.Completed 0 ""))
    (fun _ _ => Ok Scenario.two_segments).



(** A process that has just started, on a machine where a pending video
    was saved by an earlier run. *)
Definition world_restarted : World :=
  Scenario.with_disk
    (mkDisk Absent (Stored [("f1", Scenario.clip_pending)]) Absent Absent)
    Scenario.world0.

(** A run in progress. *)
Definition world_downloading : World :=
  mkWorld ∅ Scenario.disk0 (config_manager Scenario.world_pending)
    DriveClient.new PhotosClient.new
    (DownloadManager.mk true false false (Some "clip.mp4") true false false
       false false)
    [].


End Example.

(* ===================================================================== *)
(** ** Predicates used by the statements                                  *)
(* ===================================================================== *)

(** The condition of the data model: a completed video for whose local
    path no transcription record exists with a status other than
    "pending". *)
Definition awaiting_by_record (trans : Dict.t TranscriptionState.t)
    (state : FileState.t) : bool :=
  String.eqb (FileState.status state) "complete"
  && FileState.is_video state
  && match FileState.local_path state with
     | Some p =>
         match Dict.get trans p with
         | Some t => String.eqb (TranscriptionState.status t) "pending"
         | None => true
         end
     | None => true
     end.

(** The condition of [get_download_stats]: moreover the record's own
    transcription status is "pending" or "n/a", and a record without a
    local path (none, or the empty string) is not looked up. *)
Definition awaiting (trans : Dict.t TranscriptionState.t)
    (state : FileState.t) : bool :=
  String.eqb (FileState.status state) "complete"
  && FileState.is_video state
  && (String.eqb (FileState.transcription_status state) "pending"
      || String.eqb (FileState.transcription_status state) "n/a")
  && match FileState.local_path state with
     | Some p =>
         String.eqb p ""
         || match Dict.get trans p with
            | Some t => String.eqb (TranscriptionState.status t) "pending"
            | None => true
            end
     | None => true
     end.

Definition all_states (cm : ConfigManager.t) : list FileState.t :=
  Dict.values (ConfigManager._drive_state cm)
  ++ Dict.values (ConfigManager._photos_state cm).

(** A transfer delivers when it ends without an exception and has written
    at least one byte. *)
Definition delivers (t : transfer) : bool :=
  match t with
  | Finished _ nbytes => negb (Z.eqb nbytes 0)
  | Failed _ _ _ => false
  end.

(** The remote transfer [download_file] performs for a file: an export
    for the types of the export table, a plain download otherwise. *)
Definition transfer_of (env : Env) (file_id mime_type : string) : transfer :=
  match Dict.get drive_client.GOOGLE_DOCS_EXPORT mime_type with
  | Some (export_mime, _) => drive_export_media env file_id export_mime
  | None => drive_get_media env file_id
  end.

(** The path [download_file] writes to: the destination, with the
    extension of the export table when the file is exported (unless the
    rewriting itself raises, in which case nothing is written and the
    handler looks at the destination as given). *)
Definition written_path (mime_type : string) (destination : Path.t)
    : Path.t :=
  match Dict.get drive_client.GOOGLE_DOCS_EXPORT mime_type with
  | Some (_, extension) =>
      match drive_client.export_destination destination extension with
      | Ok d => d
      | Raise _ => destination
      end
  | None => destination
  end.

(** An event other than the submission of a scan. *)
Definition not_submitted (e : event) : Prop :=
  match e with Submitted _ => False | _ => True end.

(** What a scan task may do to the world: it leaves the configuration
    manager, the persisted documents and the download manager alone, and
    adds to the trace events that are not submissions. *)
Definition quiet (w w' : World) : Prop :=
  config_manager w' = config_manager w
  /\ disk w' = disk w
  /\ download_manager w' = download_manager w
  /\ exists evs, trace w' = trace w ++ evs /\ Forall not_submitted evs.

(** A computation that is quiet from every world. *)
Definition is_quiet {A} (m : M A) : Prop := forall w, quiet w (snd (m w)).

(** The configuration as [scan_sources] reads it. *)
Definition config_of (env : Env) (w : World) : AppConfig.t :=
  fst (ConfigManager.get_config (download_manager.default_dir env)
         (disk w) (config_manager w)).

(** The photo records of the store, as [get_photos_state] gives them. *)
Definition photos_of (w : World) : Dict.t FileState.t :=
  fst (ConfigManager.get_photos_state (disk w) (config_manager w)).

(** The Drive records of the store, as [get_drive_state] gives them. *)
Definition drive_of (w : World) : Dict.t FileState.t :=
  fst (ConfigManager.get_drive_state (disk w) (config_manager w)).

(** The records of one source. *)
Definition store_of (source : string) (w : World) : Dict.t FileState.t :=
  if String.eqb source "drive" then drive_of w else photos_of w.

(** The number of records of a list that have a given status. *)
Definition count_status (status : string) (states : list FileState.t) : Z :=
  Z.of_nat
    (length
       (List.filter (fun s => String.eqb (FileState.status s) status) states)).

(** Most recent download first. *)
Definition newer_first (a b : FileState.t) : Prop :=
  String.leb (config.downloaded_key b) (config.downloaded_key a) = true.

(** The test of [get_videos_for_transcription]. *)
Definition wants_transcription (state : FileState.t) : bool :=
  FileState.is_video state
  && String.eqb (FileState.status state) "complete"
  && String.eqb (FileState.transcription_status state) "pending"
  && match FileState.local_path state with
     | Some p => negb (String.eqb p "")
     | None => false
     end.

(** The records of one source that the manager holds in memory, and the
    persisted document of that source. *)
Definition held (source : string) (w : World) : Dict.t FileState.t :=
  if String.eqb source "drive"
  then ConfigManager._drive_state (config_manager w)
  else ConfigManager._photos_state (config_manager w).

Definition persisted (source : string) (w : World)
    : file (Dict.t FileState.t) :=
  if String.eqb source "drive"
  then drive_state_file (disk w)
  else photos_state_file (disk w).

(** The sum of the three counters of a run. *)
Definition processed (counts : download_manager.Counts) : Z :=
  download_manager.downloaded_count counts
  + download_manager.skipped_count counts
  + download_manager.error_count counts.

(** A store as the code builds it: a dictionary (no key twice) in which
    every record is kept under its id. *)
Definition keyed_by_id (state : Dict.t FileState.t) : Prop :=
  NoDup (map fst state)
  /\ Forall (fun kv => fst kv = FileState.id (snd kv)) state.

(** Every pending record of the store is on the worklist. *)
Definition covered (rest : list (FileState.t * string)) (w : World) : Prop :=
  forall source k r,
    In (k, r) (held source w) -> FileState.status r = "pending" ->
    exists g s, In (g, s) rest /\ FileState.id g = k
                /\ String.eqb s "drive" = String.eqb source "drive".

(** The remote transfer [download_video] performs for a media item, when
    it gets that far: the item has a base URL, there is an access token,
    and the request for the video is answered. *)
Definition photos_transfer_of (env : Env) (media_item_id : string)
    : option transfer :=
  match photos_get env media_item_id with
  | Ok (Some base_url) =>
      if negb (String.eqb base_url "") then
        match photos_client.get_access_token env with
        | Some access_token =>
            if negb (String.eqb access_token "") then
              match photos_download env (base_url +:+ "=dv") with
              | Ok t => Some t
              | Raise _ => None
              end
            else None
        | None => None
        end
      else None
  | _ => None
  end.

(** The items of a listing, in the order of the pages, unless the
    request for a page fails. *)
Fixpoint pages_items {I} (ps : pages I) : result (list I) :=
  match ps with
  | LastPage items => Ok items
  | NextPage items rest =>
      match pages_items rest with
      | Ok l => Ok (items ++ l)
      | Raise e => Raise e
      end
  | PageError e => Raise e
  end.

(** The records a listing comes to: one per item, or the failure. *)
Definition listed {I} (file_of_item : I -> FileState.t) (ps : pages I)
    : result (list FileState.t) :=
  match pages_items ps with
  | Ok items => Ok (map file_of_item items)
  | Raise e => Raise e
  end.

(** A number of milliseconds on the clock: hours, minutes, seconds and
    milliseconds, the last after the separator [sep]. *)
Definition clock (sep : string) (ms : Z) : string :=
  PyStr.format_0d 2 (ms / 3600000) +:+ ":"
  +:+ PyStr.format_0d 2 (ms / 60000 mod 60) +:+ ":"
  +:+ PyStr.format_0d 2 (ms / 1000 mod 60) +:+ sep
  +:+ PyStr.format_0d 3 (ms mod 1000).

(** The pieces of a transcript: a line of the plain text, a cue with its
    two timestamps, a numbered block of the SRT format. *)
Definition txt_line (segment : transcription.Segment) : string :=
  PyStr.strip (transcription.text segment) +:+ transcription.newline.

Definition cue (timestamp : Q -> string) (segment : transcription.Segment)
    : string :=
  timestamp (transcription.start segment) +:+ " --> "
  +:+ timestamp (transcription.end_ segment) +:+ transcription.newline
  +:+ PyStr.strip (transcription.text segment) +:+ transcription.newline
  +:+ transcription.newline.

Definition srt_block (i : Z) (segment : transcription.Segment) : string :=
  PyStr.of_Z i +:+ transcription.newline
  +:+ cue transcription._format_timestamp_srt segment.

(** The pieces, one after the other. *)
Definition pieces (l : list string) : string := fold_right String.append "" l.

(** The transcription records of the store, as
    [get_transcription_state] gives them. *)
Definition transcription_of (w : World) : Dict.t TranscriptionState.t :=
  fst (ConfigManager.get_transcription_state (disk w) (config_manager w)).

(** The suffix of the transcript [transcribe_video] returns for an
    output format: "both" writes a ".txt" and a ".srt" file and returns
    the first; a format that is not known is taken as "txt". *)
Definition transcript_suffix (output_format : string) : string :=
  if String.eqb output_format "srt" then ".srt"
  else if String.eqb output_format "vtt" then ".vtt"
  else ".txt".

(** The world with the stop flags of the two clients cleared. *)
Definition unflagged (w : World) : World :=
  mkWorld (fs w) (disk w) (config_manager w)
    (DriveClient.mk (DriveClient._service (drive_client w)) false)
    (PhotosClient.mk (PhotosClient._service (photos_client w)) false)
    (download_manager w) (trace w).

(** A computation that does not look at these flags: it does the same
    with them cleared. *)
Definition blind {A} (m : M A) : Prop :=
  forall w, m (unflagged w) = (fst (m w), unflagged (snd (m w))).

(** The record a rescan stores for a listed file that is known already:
    the listed file with the download progress of the known record. *)
Definition merged_with (existing file : FileState.t) : FileState.t :=
  FileState.set_local_path (FileState.local_path existing)
    (FileState.set_downloaded_at (FileState.downloaded_at existing)
       (FileState.set_status (FileState.status existing) file)).

(** A listed file is absorbed by a store that holds, under its id, the
    file with some download progress. *)
Definition absorbed (state : Dict.t FileState.t) (file : FileState.t)
    : Prop :=
  exists r, Dict.get state (FileState.id file) = Some r
            /\ merged_with r file = r.

(** The folder a file is downloaded to: videos by source, documents
    together; a Google Workspace document listed by the photo library
    would go with the videos of the library. *)
Definition folder_of (file_state : FileState.t) (source_type : string)
    (download_path : Path.t) : Path.t :=
  let mime_type := FileState.mime_type file_state in
  let videos := Path.joinpath download_path "Videos" in
  if PyStr.startswith mime_type "video/" then
    if String.eqb source_type "drive" then Path.joinpath videos "Drive"
    else Path.joinpath videos "Photos"
  else if Dict.mem drive_client.GOOGLE_DOCS_EXPORT mime_type then
    if String.eqb source_type "drive"
    then Path.joinpath download_path "Documents"
    else Path.joinpath videos "Photos"
  else Path.joinpath download_path "Documents".

(** No other thread stops or pauses the run while the worker is at the
    items [i], ..., [i + n - 1] of its worklist. *)
Definition unhindered (env : Env) (i n : nat) : Prop :=
  forall j, (i <= j < i + n)%nat ->
    stop_requested env j = false /\ pause_at env j = Undisturbed.


(** The worklist of the worker: the pending records of Drive, then those
    of Photos. *)
Definition worklist (w : World) : list (FileState.t * string) :=
  download_manager.pending_of (drive_of w) "drive"
  ++ download_manager.pending_of (photos_of w) "photos".

(** The world once the worker has read the configuration and the two
    collections: what was only on disk is now in memory. *)
Definition loaded (env : Env) (w : World) : World :=
  snd ((cm_get (ConfigManager.get_config (download_manager.default_dir env)) ;;
        cm_get ConfigManager.get_drive_state ;;
        cm_get ConfigManager.get_photos_state) w).

(** The world in which the loop of the worker starts, for a worklist that
    is not empty. *)
Definition loop_start (env : Env) (w : World) : World :=
  snd (emit (NotifyDownloadStarted (Z.of_nat (length (worklist w))))
         (loaded env w)).


(** A time on which the floating point operations of the formatters are
    exact, so that the rational reading of the model is the one of the
    code: a multiple of 1/1024 second below 2^32 seconds. *)
Definition exact_time (t : Q) : Prop :=
  exists k : Z, 0 <= k < 2 ^ 42 /\ (t == k # 1024)%Q.

Definition exactly_timed (segments : list transcription.Segment) : Prop :=
  Forall (fun s => exact_time (transcription.start s)
                   /\ exact_time (transcription.end_ s)) segments.

(* ===================================================================== *)
(** * Properties                                                          *)
(* ===================================================================== *)

(** ** Dictionaries *)

Lemma Dict_get_set_same {V} (d : Dict.t V) k v :
  Dict.get (Dict.set d k v) k = Some v.
Proof.
  induction d as [|[k' v'] d IH]; simpl.
  - by rewrite String.eqb_refl.
  - destruct (String.eqb k' k) eqn:E; simpl; rewrite E; [done | exact IH].
Qed.

Lemma Dict_get_set_other {V} (d : Dict.t V) k k' v :
  k <> k' -> Dict.get (Dict.set d k v) k' = Dict.get d k'.
Proof.
  intros Hne. induction d as [|[k0 v0] d IH]; simpl.
  - destruct (String.eqb_spec k k'); [contradiction | done].
  - destruct (String.eqb_spec k0 k) as [->|Hk]; simpl.
    + destruct (String.eqb_spec k k'); [contradiction | done].
    + destruct (String.eqb_spec k0 k'); [done | exact IH].
Qed.

(** ** The merge of a rescan *)

(** A record that is already known keeps its download progress, and
    takes everything else from the scan. *)
Lemma merge_file_known state file existing :
  Dict.get state (FileState.id file) = Some existing ->
  Dict.get (download_manager.merge_file state file) (FileState.id file)
  = Some (FileState.mk (FileState.id file) (FileState.name file)
            (FileState.source file) (FileState.mime_type file)
            (FileState.size file) (FileState.status existing)
            (FileState.downloaded_at existing) (FileState.local_path existing)
            (FileState.error_message file) (FileState.modified_time file)
            (FileState.transcription_status file)
            (FileState.transcribed_at file)).
Proof.
  intros H. unfold download_manager.merge_file. rewrite H. simpl.
  apply Dict_get_set_same.
Qed.

Lemma merge_file_progress state file k e :
  Dict.get state k = Some e ->
  exists e', Dict.get (download_manager.merge_file state file) k = Some e'
    /\ FileState.status e' = FileState.status e
    /\ FileState.downloaded_at e' = FileState.downloaded_at e
    /\ FileState.local_path e' = FileState.local_path e.
Proof.
  intros H. destruct (String.eqb_spec (FileState.id file) k) as [<-|Hne].
  - rewrite (merge_file_known _ _ _ H). eexists; split; [reflexivity|]. done.
  - exists e. split; [|done]. unfold download_manager.merge_file.
    destruct (Dict.get state (FileState.id file)); simpl;
      by rewrite Dict_get_set_other.
Qed.

(** Whatever a rescan lists, the download progress of the records of the
    store is left as it was. *)
Lemma merge_files_progress files : forall state k e,
  Dict.get state k = Some e ->
  exists e', Dict.get (download_manager.merge_files state files) k = Some e'
    /\ FileState.status e' = FileState.status e
    /\ FileState.downloaded_at e' = FileState.downloaded_at e
    /\ FileState.local_path e' = FileState.local_path e.
Proof.
  induction files as [|f files IH]; intros state k e H; simpl.
  - exists e. done.
  - destruct (merge_file_progress state f k e H) as (e1 & H1 & Hs & Hd & Hl).
    destruct (IH _ _ _ H1) as (e2 & H2 & Hs2 & Hd2 & Hl2).
    exists e2. repeat split; congruence.
Qed.

(** ** Reasoning about computations *)

Lemma bind_inv {A B} (m : M A) (f : A -> M B) w r w' :
  (m ≫= f) w = (r, w') ->
  (exists e, m w = (Raise e, w') /\ r = Raise e)
  \/ (exists a w1, m w = (Ok a, w1) /\ f a w1 = (r, w')).
Proof.
  unfold mbind, M_bind. destruct (m w) as [[a|e] w1]; intros H.
  - right. eauto.
  - left. inversion H; subst. eauto.
Qed.

Lemma try_except_inv {A} (m : M A) (h : exn -> M A) w r w' :
  try_except m h w = (r, w') ->
  (exists a, m w = (Ok a, w') /\ r = Ok a)
  \/ (exists e w1, m w = (Raise e, w1) /\ h e w1 = (r, w')).
Proof.
  unfold try_except. destruct (m w) as [[a|e] w1]; intros H.
  - left. inversion H; subst. eauto.
  - right. eauto.
Qed.

Lemma bind_ok {A B} (m : M A) (f : A -> M B) w a w1 :
  m w = (Ok a, w1) -> (m ≫= f) w = f a w1.
Proof. intros H. unfold mbind, M_bind. by rewrite H. Qed.

Lemma bind_raise {A B} (m : M A) (f : A -> M B) w e w1 :
  m w = (Raise e, w1) -> (m ≫= f) w = (Raise e, w1).
Proof. intros H. unfold mbind, M_bind. by rewrite H. Qed.

Lemma emit_run ev w :
  emit ev w
  = (Ok tt, mkWorld (fs w) (disk w) (config_manager w) (drive_client w)
              (photos_client w) (download_manager w) (trace w ++ [ev])).
Proof. reflexivity. Qed.

Lemma fs_do_run op w :
  fs_do op w
  = match op (fs w) with
    | Ok fs' =>
        (Ok tt, mkWorld fs' (disk w) (config_manager w) (drive_client w)
                  (photos_client w) (download_manager w) (trace w))
    | Raise e => (Raise e, w)
    end.
Proof. unfold fs_do. by destruct (op (fs w)). Qed.

Lemma is_empty_file_run destination w nbytes :
  fs w !! Path.str destination = Some (FS.File nbytes) ->
  is_empty_file destination w = (Ok (Z.eqb nbytes 0), w).
Proof.
  intros Hl. unfold is_empty_file.
  rewrite (bind_ok _ _ w true w).
  - rewrite (bind_ok _ _ w nbytes w); [done|].
    unfold st_size, FS.st_size. by rewrite Hl.
  - unfold gets, FS.exists_. by rewrite Hl.
Qed.

(** ** The file system *)

Lemma is_file_unlink refused fs0 p fs1 :
  FS.unlink refused fs0 p = Ok fs1 -> FS.is_file fs1 p = false.
Proof.
  unfold FS.unlink, FS.is_file.
  destruct (fs0 !! Path.str p) as [[|n]|] eqn:E; intros H;
    [inversion H| |inversion H].
  destruct (refused (Path.str p)); inversion H.
  by rewrite lookup_delete_eq.
Qed.

(** [unlink] fails on a regular file only where the system refuses. *)
Lemma is_file_unlink_raise refused fs0 p e :
  FS.unlink refused fs0 p = Raise e ->
  refused (Path.str p) = false ->
  FS.is_file fs0 p = false.
Proof.
  unfold FS.unlink, FS.is_file.
  destruct (fs0 !! Path.str p) as [[|n]|] eqn:E; intros H Hr;
    [done| |done].
  rewrite Hr in H. by inversion H.
Qed.

(** The clean-up of the handlers returns, whatever [unlink] does, and
    leaves no regular file at the destination unless the system refuses
    to remove the one there. *)
Lemma remove_partial_spec env destination w :
  exists w', remove_partial env destination w = (Ok tt, w')
    /\ (unlink_refused env (Path.str destination) = false ->
        FS.is_file (fs w') destination = false).
Proof.
  unfold remove_partial, gets, when, try_except, fs_do, mbind, M_bind.
  destruct (FS.exists_ (fs w) destination) eqn:Ex.
  - destruct (FS.unlink (unlink_refused env) (fs w) destination)
      as [fs1|e] eqn:Eu; simpl.
    + eexists; split; [reflexivity|]. intros _. simpl.
      eapply is_file_unlink; eauto.
    + eexists; split; [reflexivity|]. intros Hr.
      eapply is_file_unlink_raise; eauto.
  - eexists; split; [reflexivity|]. intros _. simpl.
    unfold FS.exists_ in Ex. unfold FS.is_file.
    destruct (fs w !! Path.str destination); [discriminate | done].
Qed.

Lemma handler_spec env ev destination w :
  exists w', (emit ev ;; remove_partial env destination ;; mret false) w
             = (Ok false, w')
    /\ (unlink_refused env (Path.str destination) = false ->
        FS.is_file (fs w') destination = false).
Proof.
  rewrite (bind_ok _ _ _ _ _ (emit_run ev w)).
  destruct (remove_partial_spec env destination
              (mkWorld (fs w) (disk w) (config_manager w) (drive_client w)
                 (photos_client w) (download_manager w) (trace w ++ [ev])))
    as (w' & Hr & Hf).
  rewrite (bind_ok _ _ _ _ _ Hr). eauto.
Qed.

(** C1 (the code departs from the claim).  The claim: the record stored
    back by a rescan for a known id preserves the existing record's
    transfer status, download time, local path and its transcription
    fields.  The code copies the first three only: here a video that was
    downloaded and transcribed is listed again by Drive, and the record
    stored back has kept its download progress and taken the name of the
    new scan, but its transcription status is back to "pending" and its
    transcription time is gone. *)
Theorem C1_rescan_resets_transcription :
  let run := download_manager.scan_sources Scenario.env_rescan false
               Scenario.world_rescan in
  Dict.get (ConfigManager._drive_state
              (config_manager Scenario.world_rescan)) "f1"
  = Some Scenario.clip_done
  /\ FileState.transcription_status Scenario.clip_done = "complete"
  /\ is_Ok (fst run) = true
  /\ Dict.get (ConfigManager._drive_state (config_manager (snd run))) "f1"
     = Some (FileState.mk "f1" "clip-renamed.mp4" "drive" "video/mp4" 2048
               "complete" (Some "2026-02-01T10:00:00")
               (Some Scenario.clip_path) None None "pending" None).
Proof. vm_compute. repeat split; reflexivity. Qed.

(** ** The configuration document *)

(** What a save followed by a load gives: the ten fields declared with a
    plain default come back, the exclusion patterns come back as the
    defaults. *)
Lemma load_after_save default_dir disk cm (c : AppConfig.t) :
  truthy (AppConfig.download_path c) = true ->
  ConfigManager._load_config default_dir
    (fst (ConfigManager.save_config (Some c) disk cm))
  = AppConfig.mk (AppConfig.download_path c) (AppConfig.auto_download c)
      (AppConfig.auto_transcribe c) (AppConfig.transcription_model c)
      (AppConfig.transcription_output_format c)
      (AppConfig.transcription_language c) (AppConfig.download_videos c)
      (AppConfig.download_documents c) (AppConfig.download_photos c)
      (AppConfig.max_concurrent_downloads c)
      AppConfig.default_exclude_patterns.
Proof.
  intros Hp. unfold ConfigManager.save_config, ConfigManager._load_config.
  cbn. unfold AppConfig.post_init. cbn. by rewrite Hp.
Qed.

(** C9 (the code departs from the claim).  The claim: saving an AppConfig
    and loading the document back yields an equal AppConfig, every field
    written by the save being restored, the exclusion patterns among them.
    [_load_config] keeps the keys [k] of the document for which
    [hasattr(AppConfig, k)] holds, and the class has no attribute for a
    field declared with a default factory: the patterns written by the
    save are dropped by the load, which puts the defaults in their place. *)
Theorem C9_exclude_patterns_not_restored :
  let saved := ConfigManager.save_config (Some Scenario.config_bak)
                 Scenario.disk0 ConfigManager.new in
  let loaded := ConfigManager._load_config Scenario.default_dir0 (fst saved) in
  Dict.get (match config_file (fst saved) with
            | Stored (VDict d) => d
            | _ => []
            end) "exclude_patterns" = Some (VList [VStr "*.bak"])
  /\ AppConfig.hasattr "exclude_patterns" = false
  /\ AppConfig.exclude_patterns loaded = VList [VStr "*.tmp"; VStr "*.part"]
  /\ loaded <> Scenario.config_bak.
Proof.
  cbv zeta. rewrite load_after_save by reflexivity.
  repeat split; try reflexivity.
  intros Heq. discriminate Heq.
Qed.

(** ** Transcripts *)

(** C4.  For the two segments (0.0, 1.5, "hello") and (1.5, 3.0, "world")
    the SubRip writer writes exactly the text below: indices from 1, the
    times as HH:MM:SS with a comma before the three digits of the
    milliseconds, the text of the segment trimmed, an empty line after
    every block. *)
Theorem C4_write_srt_two_segments :
  transcription._write_srt Scenario.two_segments
  = "1
00:00:00,000 --> 00:00:01,500
hello

2
00:00:01,500 --> 00:00:03,000
world

"
  /\ transcription._write_srt
       [transcription.mkSegment 0 (3 # 2) " hello";
        transcription.mkSegment (3 # 2) 3 "world  "]
     = transcription._write_srt Scenario.two_segments.
Proof. split; vm_compute; reflexivity. Qed.

(** ** Statistics *)

Lemma count_state_videos trans stats state :
  DownloadStats.videos_for_transcription
    (ConfigManager.count_state trans stats state)
  = DownloadStats.videos_for_transcription stats
    + (if awaiting trans state then 1 else 0).
Proof.
  unfold ConfigManager.count_state, awaiting.
  destruct (String.eqb (FileState.status state) "complete"); simpl.
  - destruct (FileState.is_video state); simpl; [|lia].
    destruct (String.eqb (FileState.transcription_status state) "pending"
              || String.eqb (FileState.transcription_status state) "n/a");
      simpl; [|lia].
    destruct (FileState.local_path state) as [p|]; simpl; [|lia].
    destruct (String.eqb p ""); simpl; [lia|].
    destruct (Dict.get trans p) as [t|]; simpl; [|lia].
    destruct (String.eqb (TranscriptionState.status t) "pending"); simpl; lia.
  - destruct (String.eqb (FileState.status state) "pending"); simpl; [lia|].
    destruct (String.eqb (FileState.status state) "error"); simpl; lia.
Qed.

Lemma fold_count_state_videos trans states : forall stats,
  DownloadStats.videos_for_transcription
    (fold_left (ConfigManager.count_state trans) states stats)
  = DownloadStats.videos_for_transcription stats
    + Z.of_nat (length (List.filter (awaiting trans) states)).
Proof.
  induction states as [|s states IH]; intros stats; simpl; [lia|].
  rewrite IH, count_state_videos.
  destruct (awaiting trans s); simpl length; lia.
Qed.

(** C2, as the claim states it, fails: a completed video that its own
    record marks as transcribed, and for which the transcription document
    holds no record, satisfies the condition of the claim and is not
    counted. *)
Lemma C2_counterexample :
  DownloadStats.videos_for_transcription
    (ConfigManager.get_download_stats Scenario.cm_marked_done)
  <> Z.of_nat
       (length
          (List.filter
             (awaiting_by_record
                (ConfigManager._transcription_state Scenario.cm_marked_done))
             (all_states Scenario.cm_marked_done))).
Proof. vm_compute. discriminate. Qed.

(** C2 (amended).  The aggregator counts a record toward
    [videos_for_transcription] exactly when it is a completed video whose
    own transcription status is "pending" or "n/a" and which either has
    no local path or has a local path for which no transcription record
    exists with a status other than "pending".  For the five records of
    the example (three complete: two videos and a document; one of the
    two videos transcribed) the count is 1. *)
Theorem C2_videos_for_transcription (cm : ConfigManager.t) :
  DownloadStats.videos_for_transcription (ConfigManager.get_download_stats cm)
  = Z.of_nat
      (length
         (List.filter (awaiting (ConfigManager._transcription_state cm))
                      (all_states cm)))
  /\ DownloadStats.videos_for_transcription
       (ConfigManager.get_download_stats Scenario.cm_five) = 1
  /\ ConfigManager.get_download_stats Scenario.cm_five
     = DownloadStats.mk 5 3 1 1 1.
Proof.
  split; [|split; reflexivity].
  unfold ConfigManager.get_download_stats, all_states.
  rewrite fold_count_state_videos. reflexivity.
Qed.

(** ** The Drive adapter: failure paths of a download *)

Lemma write_chunks_ok destination t cb w a w' :
  write_chunks destination t cb w = (Ok a, w') ->
  exists progress nbytes,
    t = Finished progress nbytes
    /\ fs w' !! Path.str destination = Some (FS.File nbytes).
Proof.
  unfold write_chunks. intros H.
  apply bind_inv in H as [(e & _ & He)|(x & w1 & _ & H)]; [discriminate|].
  destruct t as [progress nbytes|progress nbytes e].
  - apply bind_inv in H as [(e & _ & He)|(x' & w2 & _ & H)]; [discriminate|].
    unfold modify in H. inversion H; subst. exists progress, nbytes.
    split; [done|]. simpl. unfold FS.write. apply lookup_insert_eq.
  - apply bind_inv in H as [(e' & _ & He)|(x' & w2 & _ & H)]; [discriminate|].
    apply bind_inv in H as [(e' & _ & He)|(x'' & w3 & _ & H)]; [discriminate|].
    unfold raise in H. discriminate.
Qed.

(** The check made once the file is closed: an empty file is removed and
    the answer is [False]; where the system refuses the removal, the
    exception leaves the check. *)
Lemma validate_spec refused destination ev nbytes w r w' :
  fs w !! Path.str destination = Some (FS.File nbytes) ->
  (empty ← is_empty_file destination;
   if empty : bool then
     emit ev ;; fs_do (fun fs => FS.unlink refused fs destination) ;;
     mret false
   else mret true) w = (r, w') ->
  (r = Ok true /\ Z.eqb nbytes 0 = false /\ w' = w)
  \/ (r = Ok false /\ FS.is_file (fs w') destination = false)
  \/ (exists e, r = Raise e /\ refused (Path.str destination) = true).
Proof.
  intros Hl H.
  rewrite (bind_ok _ _ _ _ _ (is_empty_file_run _ _ _ Hl)) in H.
  destruct (Z.eqb nbytes 0) eqn:En.
  - rewrite (bind_ok _ _ _ _ _ (emit_run ev w)) in H.
    destruct (refused (Path.str destination)) eqn:Hr.
    + rewrite (bind_raise _ _ (mkWorld _ _ _ _ _ _ _)
                 (OSError "PermissionError")
                 (mkWorld (fs w) (disk w) (config_manager w)
                    (drive_client w) (photos_client w)
                    (download_manager w) (trace w ++ [ev]))) in H.
      * inversion H; subst. right. right. eauto.
      * unfold fs_do. simpl. unfold FS.unlink. by rewrite Hl, Hr.
    + rewrite (bind_ok _ _ (mkWorld _ _ _ _ _ _ _) tt
                 (mkWorld (delete (Path.str destination) (fs w)) (disk w)
                    (config_manager w) (drive_client w) (photos_client w)
                    (download_manager w) (trace w ++ [ev]))) in H.
      * inversion H; subst. right. left. split; [done|]. simpl.
        unfold FS.is_file. by rewrite lookup_delete_eq.
      * rewrite fs_do_run. simpl. unfold FS.unlink. by rewrite Hl, Hr.
  - inversion H; subst. left. done.
Qed.

(** The guarded part of a transfer to [destination]: when it answers
    [True] the transfer has delivered and the file is there; when it
    answers [False] there is no regular file at the destination. *)
Lemma guarded_transfer_spec refused destination t cb ev w r w' :
  (fs_do (fun fs => FS.mkdir fs (Path.parent destination)) ;;
   write_chunks destination t cb ;;
   empty ← is_empty_file destination;
   if empty : bool then
     emit ev ;; fs_do (fun fs => FS.unlink refused fs destination) ;;
     mret false
   else mret true) w = (r, w') ->
  match r with
  | Ok true => delivers t = true /\ FS.is_file (fs w') destination = true
  | Ok false => FS.is_file (fs w') destination = false
  | Raise _ => True
  end.
Proof.
  intros H.
  apply bind_inv in H as [(e & _ & ->)|(x & w1 & _ & H)]; [done|].
  apply bind_inv in H as [(e & _ & ->)|(x' & w2 & Hw & H)]; [done|].
  apply write_chunks_ok in Hw as (progress & nbytes & -> & Hl).
  destruct (validate_spec _ _ _ _ _ _ _ Hl H)
    as [(-> & Hn & ->)|[[-> Hf]|(e & -> & _)]]; simpl.
  - rewrite Hn. split; [done|]. unfold FS.is_file. by rewrite Hl.
  - done.
  - done.
Qed.

Lemma get_service_spec env w :
  (drive_client._get_service env w
   = (Ok tt, mkWorld (fs w) (disk w) (config_manager w)
               (DriveClient.mk true (DriveClient._should_stop (drive_client w)))
               (photos_client w) (download_manager w) (trace w))
   /\ (DriveClient._service (drive_client w) = true
       \/ is_authenticated env = true))
  \/ (drive_client._get_service env w
      = (Raise (RuntimeError "Not authenticated with Google"), w)
      /\ DriveClient._service (drive_client w) = false
      /\ is_authenticated env = false).
Proof.
  unfold drive_client._get_service, gets, set_drive_client, modify, raise,
    mbind, M_bind, mret, M_ret.
  destruct w as [f d c [sv st] p dm tr]; simpl.
  destruct sv; simpl; [left; auto|].
  destruct (is_authenticated env); [left; auto | right; auto].
Qed.

Lemma export_file_spec env file_id destination mime_type export_mime
    extension cb w r w' :
  Dict.get drive_client.GOOGLE_DOCS_EXPORT mime_type
  = Some (export_mime, extension) ->
  DriveClient._service (drive_client w) = true ->
  drive_client._export_file env file_id destination mime_type cb w = (r, w') ->
  match r with
  | Ok true =>
      delivers (transfer_of env file_id mime_type) = true
      /\ FS.is_file (fs w') (written_path mime_type destination) = true
  | Ok false =>
      unlink_refused env (Path.str (written_path mime_type destination))
      = false ->
      FS.is_file (fs w') (written_path mime_type destination) = false
  | Raise _ => written_path mime_type destination = destination
  end.
Proof.
  intros Hg Hsv H. unfold drive_client._export_file in H.
  unfold transfer_of, written_path. rewrite Hg in *.
  destruct (get_service_spec env w) as [[Hs _]|[_ [Hno _]]]; [|congruence].
  rewrite (bind_ok _ _ _ _ _ Hs) in H.
  destruct (drive_client.export_destination destination extension)
    as [d|e] eqn:Hd.
  - unfold lift_result in H. rewrite (bind_ok _ _ _ d _ eq_refl) in H.
    apply try_except_inv in H as [(b & Hb & ->)|(e & w2 & _ & Hh)].
    + apply guarded_transfer_spec in Hb. destruct b; [exact Hb|].
      intros _. exact Hb.
    + destruct (handler_spec env
                  (LogError ("Error exporting file: " +:+ exn_str e)) d w2)
        as (w3 & Hr & Hf).
      rewrite Hr in Hh. inversion Hh; subst. exact Hf.
  - unfold lift_result in H. rewrite (bind_raise _ _ _ e _ eq_refl) in H.
    inversion H; subst. reflexivity.
Qed.

(** Every call of [download_file] ends in one of three ways.  It answers
    [True], and then the transfer has delivered and the file is at the
    path the call writes to.  Or it answers [False], and then no regular
    file is left at the path it writes to, unless the system refuses to
    remove the one there.  Or it raises, which happens only when there is
    neither a cached service handle nor credentials, before anything is
    written. *)
Lemma download_file_outcomes env file_id destination mime_type cb w :
  let run := drive_client.download_file env file_id destination mime_type
               cb w in
  match fst run with
  | Ok true =>
      delivers (transfer_of env file_id mime_type) = true
      /\ FS.is_file (fs (snd run)) (written_path mime_type destination) = true
  | Ok false =>
      unlink_refused env (Path.str (written_path mime_type destination))
      = false ->
      FS.is_file (fs (snd run)) (written_path mime_type destination) = false
  | Raise e =>
      e = RuntimeError "Not authenticated with Google"
      /\ DriveClient._service (drive_client w) = false
      /\ is_authenticated env = false
      /\ fs (snd run) = fs w
  end.
Proof.
  cbv zeta. unfold drive_client.download_file.
  rewrite (bind_ok _ _ _ _ _ (emit_run _ w)).
  match goal with |- context [(drive_client._get_service env ≫= _) ?w0] =>
    destruct (get_service_spec env w0) as [[Hs _]|[Hs [Hno Hna]]] end.
  - rewrite (bind_ok _ _ _ _ _ Hs).
    match goal with |- context [try_except ?m ?h ?w1] =>
      destruct (try_except m h w1) as [r w'] eqn:Hrun end.
    simpl fst; simpl snd.
    unfold Dict.mem in Hrun. unfold transfer_of, written_path.
    destruct (Dict.get drive_client.GOOGLE_DOCS_EXPORT mime_type)
      as [[export_mime extension]|] eqn:Hg.
    + apply try_except_inv in Hrun as [(b & Hb & ->)|(e & w2 & He & Hh)].
      * pose proof (fun Hsv => export_file_spec _ _ _ _ _ _ _ _ _ _ Hg Hsv Hb)
          as Hx. specialize (Hx eq_refl).
        unfold transfer_of, written_path in Hx. rewrite Hg in Hx. exact Hx.
      * pose proof (fun Hsv => export_file_spec _ _ _ _ _ _ _ _ _ _ Hg Hsv He)
          as Hx. specialize (Hx eq_refl).
        unfold written_path in Hx. rewrite Hg in Hx. simpl in Hx.
        destruct (handler_spec env
                    (LogError ("Error downloading file: " +:+ exn_str e))
                    destination w2) as (w3 & Hr & Hf).
        rewrite Hr in Hh. inversion Hh; subst. rewrite Hx. exact Hf.
    + apply try_except_inv in Hrun as [(b & Hb & ->)|(e & w2 & _ & Hh)].
      * apply guarded_transfer_spec in Hb. destruct b; [exact Hb|].
        intros _. exact Hb.
      * destruct (handler_spec env
                    (LogError ("Error downloading file: " +:+ exn_str e))
                    destination w2) as (w3 & Hr & Hf).
        rewrite Hr in Hh. inversion Hh; subst. exact Hf.
  - rewrite (bind_raise _ _ _ _ _ Hs). simpl. auto.
Qed.

(** C6, amended.  Take any call of [download_file] made with a service
    handle at hand (cached, or credentials to build one).  The call
    returns a boolean, it does not raise.  When the transfer does not
    deliver (the result is empty, or an exception is raised while the
    file is fetched) the answer is [False].  And whenever the answer is
    [False], no regular file, empty or truncated, is left at the path the
    call writes to, provided the system does not refuse to remove a file
    at that path: the handlers swallow a failure of [unlink]. *)
Theorem C6_download_file_failure_paths env file_id destination mime_type
    cb w :
  DriveClient._service (drive_client w) = true
  \/ is_authenticated env = true ->
  let run := drive_client.download_file env file_id destination mime_type
               cb w in
  (exists b, fst run = Ok b)
  /\ (delivers (transfer_of env file_id mime_type) = false ->
      fst run = Ok false)
  /\ (fst run = Ok false ->
      unlink_refused env (Path.str (written_path mime_type destination))
      = false ->
      FS.is_file (fs (snd run)) (written_path mime_type destination) = false).
Proof.
  intros Hav. cbv zeta.
  pose proof (download_file_outcomes env file_id destination mime_type cb w)
    as H. cbv zeta in H.
  destruct (fst (drive_client.download_file env file_id destination
                   mime_type cb w)) as [[|]|e].
  - split; [eauto|]. destruct H as [H _]. split; [congruence | discriminate].
  - split; [eauto|]. split; [done | intros _; exact H].
  - destruct H as (_ & Hs & Ha & _). destruct Hav; congruence.
Qed.

(** An empty download of a video: the answer is [False] and nothing is
    left at the destination. *)
Lemma C6_witness :
  let run := drive_client.download_file Scenario.env_empty_download "f1"
               Scenario.clip_destination "video/mp4" None Scenario.world0 in
  fst run = Ok false
  /\ FS.is_file (fs (snd run)) Scenario.clip_destination = false.
Proof.
  destruct (C6_download_file_failure_paths Scenario.env_empty_download "f1"
              Scenario.clip_destination "video/mp4" None Scenario.world0
              (or_intror eq_refl)) as (_ & Hd & Hf).
  split; [apply Hd; reflexivity | apply Hf; [apply Hd|]; reflexivity].
Defined.

(** C6 as stated does not hold on every failure path.  An empty download
    of a video whose file the system refuses to remove: [unlink] raises
    in the check of the empty file, the handler tries again and swallows
    the failure; the answer is [False] and the zero-byte file stays at
    the destination. *)
Lemma C6_counterexample :
  let run := drive_client.download_file Scenario.env_locked_empty_download
               "f1" Scenario.clip_destination "video/mp4" None
               Scenario.world0 in
  (DriveClient._service (drive_client Scenario.world0) = true
   \/ is_authenticated Scenario.env_locked_empty_download = true)
  /\ delivers (transfer_of Scenario.env_locked_empty_download "f1"
                "video/mp4") = false
  /\ fst run = Ok false
  /\ FS.is_file (fs (snd run)) Scenario.clip_destination = true
  /\ FS.st_size (fs (snd run)) Scenario.clip_destination = Ok 0.
Proof. vm_compute. repeat split; auto. Qed.

(** ** The extension of an exported document *)

Lemma append_cons x (a b : string) : String x a +:+ b = String x (a +:+ b).
Proof. reflexivity. Qed.

Lemma append_assoc (a b c : string) : (a +:+ b) +:+ c = a +:+ (b +:+ c).
Proof.
  induction a as [|x a IH]; [done|]. by rewrite !append_cons, IH.
Qed.

Lemma endswith_refl s : PyStr.endswith s s = true.
Proof. destruct s; cbn [PyStr.endswith]; by rewrite String.eqb_refl. Qed.

Lemma endswith_app a b : PyStr.endswith (a +:+ b) b = true.
Proof.
  induction a as [|x a IH].
  - apply endswith_refl.
  - rewrite append_cons. cbn [PyStr.endswith]. rewrite IH. apply orb_true_r.
Qed.

Lemma endswith_split s suf :
  PyStr.endswith s suf = true -> exists pre, s = pre +:+ suf.
Proof.
  induction s as [|x s IH]; cbn [PyStr.endswith].
  - rewrite orb_false_r. intros H. apply String.eqb_eq in H as <-.
    by exists "".
  - intros H. apply orb_true_iff in H as [H|H].
    + apply String.eqb_eq in H as <-. by exists "".
    + destruct (IH H) as [pre ->]. by exists (String x pre).
Qed.

Lemma lower_app a b : PyStr.lower (a +:+ b) = PyStr.lower a +:+ PyStr.lower b.
Proof.
  induction a as [|x a IH]; [done|]. rewrite append_cons. simpl.
  by rewrite IH.
Qed.

Lemma endswith_lower s suf :
  PyStr.endswith s suf = true ->
  PyStr.endswith (PyStr.lower s) (PyStr.lower suf) = true.
Proof.
  intros H. destruct (endswith_split _ _ H) as [pre ->].
  rewrite lower_app. apply endswith_app.
Qed.

Lemma join_snoc sep l x : exists pre, PyStr.join sep (l ++ [x]) = pre +:+ x.
Proof.
  induction l as [|y l IH]; simpl.
  - by exists "".
  - destruct IH as [pre IH]. rewrite IH.
    destruct (l ++ [x]) eqn:E.
    + by destruct l.
    + exists (y +:+ sep +:+ pre). by rewrite !append_assoc.
Qed.

(** The text of a path ends with its last component. *)
Lemma str_ends_with_last d r l x sfx :
  PyStr.endswith (Path.str (Path.mk d r (l ++ [x +:+ sfx]))) sfx = true.
Proof.
  assert (Hs : Path.str (Path.mk d r (l ++ [x +:+ sfx]))
               = d +:+ r +:+ PyStr.join Path.sep (l ++ [x +:+ sfx])).
  { unfold Path.str. simpl.
    destruct d; [|done]. destruct r; [|done]. by destruct l. }
  rewrite Hs. destruct (join_snoc Path.sep l (x +:+ sfx)) as [pre ->].
  rewrite <- !append_assoc. apply endswith_app.
Qed.

(** [with_suffix] with one of the three extensions of the export table,
    on a path that has a name. *)
Lemma with_suffix_ends p sfx :
  In sfx [".pdf"; ".xlsx"; ".pptx"] ->
  Path.name p <> "" ->
  exists q, Path.with_suffix p sfx = Ok q
    /\ PyStr.endswith (Path.str q) sfx = true.
Proof.
  intros Hin Hn.
  assert (Hgo : exists x,
            Path.with_suffix p sfx
            = Ok (Path.mk (Path.drv p) (Path.root p)
                    (List.removelast (Path.parts p) ++ [x +:+ sfx]))).
  { unfold Path.with_suffix.
    destruct (String.eqb_spec (Path.name p) "") as [E|_]; [contradiction|].
    destruct (String.eqb (Path.suffix p) "");
      simpl in Hin; destruct Hin as [<-|[<-|[<-|[]]]]; simpl; eauto. }
  destruct Hgo as [x ->]. eexists; split; [reflexivity|].
  apply str_ends_with_last.
Qed.

Lemma export_table_extension mime_type export_mime extension :
  Dict.get drive_client.GOOGLE_DOCS_EXPORT mime_type
  = Some (export_mime, extension) ->
  In extension [".pdf"; ".xlsx"; ".pptx"].
Proof.
  unfold drive_client.GOOGLE_DOCS_EXPORT. cbn [Dict.get].
  repeat match goal with
         | |- context [String.eqb ?a mime_type] =>
             destruct (String.eqb a mime_type)
         end; intros H; inversion H; subst; simpl; auto 6.
Qed.

(** C5, as the claim states it, fails: the spreadsheet "Budget.XLSX" has
    a destination that does not end in ".xlsx", and it is written as
    supplied, to a path that does not end in ".xlsx" either. *)
Lemma C5_counterexample :
  Dict.get drive_client.GOOGLE_DOCS_EXPORT Scenario.sheet_mime
  = Some ("application/vnd.openxmlformats-officedocument.spreadsheetml.sheet",
          ".xlsx")
  /\ ~ (PyStr.endswith (Path.str Scenario.budget_destination) ".xlsx" = false ->
        PyStr.endswith
          (Path.str (written_path Scenario.sheet_mime
                       Scenario.budget_destination)) ".xlsx" = true).
Proof.
  split; [reflexivity|]. intros H.
  assert (Hf : PyStr.endswith (Path.str Scenario.budget_destination) ".xlsx"
               = false) by (vm_compute; reflexivity).
  specialize (H Hf). vm_compute in H. discriminate.
Qed.

(** C5 (amended).  When a document of a type of the export table is
    exported to a destination that has a file name: if the destination
    does not end, letter case ignored, in the extension of the table, the
    adapter rewrites it and the path it writes to ends in that extension;
    otherwise the destination is written as supplied.  Either way the
    path written ends in the extension up to letter case, and it is where
    the file is once [download_file] has answered [True]. *)
Theorem C5_export_extension mime_type export_mime extension destination :
  Dict.get drive_client.GOOGLE_DOCS_EXPORT mime_type
  = Some (export_mime, extension) ->
  Path.name destination <> "" ->
  exists d,
    drive_client.export_destination destination extension = Ok d
    /\ written_path mime_type destination = d
    /\ (if PyStr.endswith (PyStr.lower (Path.str destination))
                          (PyStr.lower extension)
        then d = destination
        else PyStr.endswith (Path.str d) extension = true)
    /\ PyStr.endswith (PyStr.lower (Path.str d)) (PyStr.lower extension) = true
    /\ forall env file_id cb w,
         let run := drive_client.download_file env file_id destination
                      mime_type cb w in
         fst run = Ok true -> FS.is_file (fs (snd run)) d = true.
Proof.
  intros Hg Hn.
  pose proof (export_table_extension _ _ _ Hg) as Hin.
  assert (Hd : exists d,
            drive_client.export_destination destination extension = Ok d
            /\ (if PyStr.endswith (PyStr.lower (Path.str destination))
                                  (PyStr.lower extension)
                then d = destination
                else PyStr.endswith (Path.str d) extension = true)
            /\ PyStr.endswith (PyStr.lower (Path.str d))
                              (PyStr.lower extension) = true).
  { unfold drive_client.export_destination.
    destruct (PyStr.endswith (PyStr.lower (Path.str destination))
                             (PyStr.lower extension)) eqn:E; simpl.
    - exists destination. auto.
    - destruct (with_suffix_ends destination extension Hin Hn)
        as (q & -> & Hq).
      exists q. split; [done|]. split; [done|]. by apply endswith_lower. }
  destruct Hd as (d & Hd & Hcase & Hci).
  assert (Hw : written_path mime_type destination = d).
  { unfold written_path. by rewrite Hg, Hd. }
  exists d. repeat split; try assumption.
  intros env file_id cb w run Hrun. subst run.
  pose proof (download_file_outcomes env file_id destination mime_type cb w)
    as H. cbv zeta in H. rewrite Hrun in H. rewrite Hw in H. apply H.
Qed.

(** A report exported as a spreadsheet to "report.v2" is written to
    "report.xlsx". *)
Lemma C5_witness :
  exists d,
    drive_client.export_destination Scenario.report_destination ".xlsx" = Ok d
    /\ Path.str d = "C:\dl\Documents\report.xlsx".
Proof.
  destruct (C5_export_extension Scenario.sheet_mime
              "application/vnd.openxmlformats-officedocument.spreadsheetml.sheet"
              ".xlsx" Scenario.report_destination eq_refl)
    as (d & Hd & _).
  - vm_compute. discriminate.
  - exists d. split; [exact Hd|].
    vm_compute in Hd. inversion Hd. reflexivity.
Defined.

(** ** Skipping a file that is already on disk *)





(** ** Missing credentials *)

(** C7 (the code departs from the claim).  The claim: without
    credentials both [scan_sources] and [start_download] raise to their
    caller instead of starting background work.  [scan_sources] does.
    [start_download] does not look at the credentials: signed out, with
    one pending video, it returns normally, marks the manager as
    downloading and starts the worker thread; the worker then fails the
    video and stores it with status "error". *)
Theorem C7_start_download_without_credentials :
  let env := Scenario.env_signed_out in
  let w := Scenario.world_pending in
  let started := download_manager.start_download w in
  let worked := download_manager._download_worker env (snd started) in
  is_authenticated env = false
  /\ fst (download_manager.scan_sources env false w)
     = Raise (RuntimeError "Not authenticated with Google")
  /\ fst started = Ok tt
  /\ DownloadManager._is_downloading (download_manager (snd started)) = true
  /\ trace (snd started) = [ThreadStarted "_download_worker"]
  /\ Dict.get (ConfigManager._drive_state (config_manager (snd worked))) "f1"
     = Some (FileState.mk "f1" "clip.mp4" "drive" "video/mp4" 2048 "error"
               None None (Some "Not authenticated with Google") None
               "pending" None).
Proof. vm_compute. repeat split; reflexivity. Qed.

(** ** A scan in which one listing fails *)

(** C8 (the code departs from the claim).  The claim: when one listing
    fails, the exception does not leave [scan_sources], the results of
    the other listing are merged and persisted, and the error is
    collected and surfaced to the caller.  The first two hold.  The
    error is appended to the local list [errors], which is never read:
    the caller gets the statistics alone, the same value, store and
    documents as after a scan in which Drive lists nothing without
    failing; the failure is only in the log. *)
Theorem C8_listing_error_not_surfaced :
  let failed := download_manager.scan_sources Scenario.env_drive_fails false
                  Scenario.world0 in
  let empty := download_manager.scan_sources Scenario.env_drive_empty false
                 Scenario.world0 in
  fst failed = Ok (DownloadStats.mk 1 0 1 0 0)
  /\ Dict.get (ConfigManager._photos_state (config_manager (snd failed))) "p1"
     = Some (FileState.new "p1" "beach.mp4" "photos" "video/mp4" 0 "pending")
  /\ photos_state_file (disk (snd failed))
     = Stored (ConfigManager._photos_state (config_manager (snd failed)))
  /\ trace (snd failed)
     = [Submitted "drive"; Submitted "photos";
        LogError "Error listing Drive files: quota exceeded";
        LogError "Error scanning drive: quota exceeded"]
  /\ fst failed = fst empty
  /\ config_manager (snd failed) = config_manager (snd empty)
  /\ disk (snd failed) = disk (snd empty)
  /\ download_manager (snd failed) = download_manager (snd empty).
Proof. vm_compute. repeat split; reflexivity. Qed.

(** ** Which sources a scan lists *)

Lemma quiet_refl w : quiet w w.
Proof.
  repeat split. exists []. by rewrite app_nil_r.
Qed.

Lemma quiet_trans w1 w2 w3 : quiet w1 w2 -> quiet w2 w3 -> quiet w1 w3.
Proof.
  intros (Hc & Hd & Hm & evs & Ht & Hf) (Hc' & Hd' & Hm' & evs' & Ht' & Hf').
  repeat split; try congruence.
  exists (evs ++ evs'). split.
  - by rewrite Ht', Ht, app_assoc.
  - by apply Forall_app.
Qed.

Lemma is_quiet_ret {A} (a : A) : is_quiet (mret a).
Proof. intros w. apply quiet_refl. Qed.

Lemma is_quiet_raise {A} e : is_quiet (@raise A e).
Proof. intros w. apply quiet_refl. Qed.

Lemma is_quiet_gets {A} (f : World -> A) : is_quiet (gets f).
Proof. intros w. apply quiet_refl. Qed.

Lemma is_quiet_lift_result {A} (r : result A) : is_quiet (lift_result r).
Proof. intros w. apply quiet_refl. Qed.

Lemma is_quiet_bind {A B} (m : M A) (f : A -> M B) :
  is_quiet m -> (forall a, is_quiet (f a)) -> is_quiet (m ≫= f).
Proof.
  intros Hm Hf w. unfold mbind, M_bind. specialize (Hm w).
  destruct (m w) as [[a|e] w1]; simpl in *; [|exact Hm].
  eapply quiet_trans; [exact Hm | apply Hf].
Qed.

Lemma is_quiet_try_except {A} (m : M A) (h : exn -> M A) :
  is_quiet m -> (forall e, is_quiet (h e)) -> is_quiet (try_except m h).
Proof.
  intros Hm Hh w. unfold try_except. specialize (Hm w).
  destruct (m w) as [[a|e] w1]; simpl in *; [exact Hm|].
  eapply quiet_trans; [exact Hm | apply Hh].
Qed.

Lemma is_quiet_emit e : not_submitted e -> is_quiet (emit e).
Proof.
  intros He w. repeat split. exists [e]. split; [done|].
  by apply Forall_singleton.
Qed.

Lemma is_quiet_when c m : is_quiet m -> is_quiet (when c m).
Proof. intros Hm. destruct c; [exact Hm | apply is_quiet_ret]. Qed.

Lemma is_quiet_set_drive_client x : is_quiet (set_drive_client x).
Proof. intros w. repeat split. exists []. by rewrite app_nil_r. Qed.

Lemma is_quiet_set_photos_client x : is_quiet (set_photos_client x).
Proof. intros w. repeat split. exists []. by rewrite app_nil_r. Qed.

Create HintDb quiet.
#[export] Hint Resolve is_quiet_ret is_quiet_raise is_quiet_gets
  is_quiet_lift_result is_quiet_when is_quiet_set_drive_client
  is_quiet_set_photos_client : quiet.

Ltac quiet_step :=
  first
    [ apply is_quiet_bind; [|intros ?]
    | apply is_quiet_try_except; [|intros ?]
    | apply is_quiet_emit; exact I
    | solve [auto with quiet] ].

Lemma is_quiet_drive_get_service env : is_quiet (drive_client._get_service env).
Proof.
  unfold drive_client._get_service. quiet_step; [quiet_step|].
  destruct (DriveClient._service a); [quiet_step|].
  destruct (is_authenticated env); quiet_step.
Qed.

Lemma is_quiet_photos_get_service env :
  is_quiet (photos_client._get_service env).
Proof.
  unfold photos_client._get_service. quiet_step; [quiet_step|].
  destruct (PhotosClient._service a); [quiet_step|].
  destruct (is_authenticated env); [|quiet_step].
  destruct (photos_build env); quiet_step.
Qed.

Lemma is_quiet_drive_list_pages ps : forall files,
  is_quiet (drive_client.list_pages ps files).
Proof. induction ps; intros files; simpl; auto with quiet. Qed.

Lemma is_quiet_photos_list_pages ps : forall videos,
  is_quiet (photos_client.list_pages ps videos).
Proof. induction ps; intros videos; simpl; auto with quiet. Qed.

Lemma is_quiet_scan_drive env include_videos include_documents :
  is_quiet (download_manager._scan_drive env include_videos include_documents).
Proof.
  unfold download_manager._scan_drive,
    drive_client.list_all_videos_and_documents.
  quiet_step; [apply is_quiet_drive_get_service|].
  match goal with |- is_quiet (match ?l with _ => _ end) => destruct l end;
    [quiet_step|].
  quiet_step; [apply is_quiet_drive_list_pages|].
  destruct e; try solve [auto with quiet].
  apply is_quiet_bind; [apply is_quiet_emit; exact I | intros; auto with quiet].
Qed.

Lemma is_quiet_scan_photos env : is_quiet (download_manager._scan_photos env).
Proof.
  unfold download_manager._scan_photos, photos_client.list_all_videos.
  quiet_step; [apply is_quiet_photos_get_service|].
  quiet_step; [apply is_quiet_photos_list_pages|].
  destruct e; try solve [auto with quiet].
  apply is_quiet_bind; [apply is_quiet_emit; exact I | intros; auto with quiet].
Qed.

Lemma quiet_emit w w1 e :
  not_submitted e -> quiet w w1 ->
  quiet w (mkWorld (fs w1) (disk w1) (config_manager w1) (drive_client w1)
             (photos_client w1) (download_manager w1) (trace w1 ++ [e])).
Proof.
  intros He Hq. eapply quiet_trans; [exact Hq|]. apply (is_quiet_emit e He w1).
Qed.

(** Collecting a scan always returns; the events it adds are not
    submissions; and the files of the other source are left alone. *)
Lemma collect_spec source task progress_callback acc w :
  is_quiet task ->
  exists acc' w',
    download_manager.collect source task progress_callback acc w
    = (Ok acc', w')
    /\ quiet w w'
    /\ (String.eqb source "drive" = true ->
        download_manager.photos_files acc'
        = download_manager.photos_files acc).
Proof.
  intros Hq. unfold download_manager.collect, try_except, mbind, M_bind.
  specialize (Hq w). destruct (task w) as [[files|e] w1]; simpl in Hq.
  - destruct (String.eqb source "drive"), progress_callback; simpl;
      eexists _, _; (split; [reflexivity|]); (split; [|done]);
      first [exact Hq | apply quiet_emit; [exact I | exact Hq]].
  - simpl. eexists _, _. split; [reflexivity|]. split; [|done].
    apply quiet_emit; [exact I | exact Hq].
Qed.

Lemma quiet_emit_then w e w' :
  quiet (mkWorld (fs w) (disk w) (config_manager w) (drive_client w)
           (photos_client w) (download_manager w) (trace w ++ e)) w' ->
  config_manager w' = config_manager w
  /\ disk w' = disk w
  /\ exists evs, trace w' = trace w ++ e ++ evs /\ Forall not_submitted evs.
Proof.
  intros (Hc & Hd & _ & evs & Ht & Hf). simpl in *.
  repeat split; try done. exists evs. by rewrite app_assoc.
Qed.

(** The scans of a call: what is submitted depends on the toggles only,
    the rest of the trace holds no submission, and without a Photos scan
    no photo is found. *)
Lemma run_scans_spec env config progress_callback w :
  let want_drive :=
    truthy (AppConfig.download_videos config)
    || truthy (AppConfig.download_documents config) in
  let want_photos :=
    truthy (AppConfig.download_photos config)
    && truthy (AppConfig.download_videos config) in
  exists acc w',
    download_manager.run_scans env config progress_callback w = (Ok acc, w')
    /\ config_manager w' = config_manager w
    /\ disk w' = disk w
    /\ (exists evs,
          trace w'
          = trace w
            ++ ((if want_drive then [Submitted "drive"] else [])
                ++ (if want_photos then [Submitted "photos"] else []))
            ++ evs
          /\ Forall not_submitted evs)
    /\ (want_photos = false -> download_manager.photos_files acc = []).
Proof.
  cbv zeta. unfold download_manager.run_scans.
  set (want_drive := truthy (AppConfig.download_videos config)
                     || truthy (AppConfig.download_documents config)).
  set (want_photos := truthy (AppConfig.download_photos config)
                      && truthy (AppConfig.download_videos config)).
  set (e0 := (if want_drive then [Submitted "drive"] else [])
             ++ (if want_photos then [Submitted "photos"] else [])).
  set (w0 := mkWorld (fs w) (disk w) (config_manager w) (drive_client w)
               (photos_client w) (download_manager w) (trace w ++ e0)).
  assert (Hsub : forall k : M download_manager.Scanned,
            (when want_drive (emit (Submitted "drive")) ;;
             when want_photos (emit (Submitted "photos")) ;; k) w = k w0).
  { intros k. subst w0 e0. destruct w as [f d c dc pc dm tr].
    destruct want_drive, want_photos; simpl;
      unfold mbind, M_bind; simpl; rewrite <- ?app_assoc, ?app_nil_r;
      reflexivity. }
  rewrite Hsub. clear Hsub.
  pose proof (is_quiet_scan_drive env
                (truthy (AppConfig.download_videos config))
                (truthy (AppConfig.download_documents config))) as Qd.
  pose proof (is_quiet_scan_photos env) as Qp.
  destruct (drive_completes_first env).
  - (* Drive first *)
    assert (H1 : exists acc1 w1,
              (if want_drive
               then download_manager.collect "drive"
                      (download_manager._scan_drive env
                         (truthy (AppConfig.download_videos config))
                         (truthy (AppConfig.download_documents config)))
                      progress_callback
                      (download_manager.mkScanned [] [] [])
               else mret (download_manager.mkScanned [] [] [])) w0
              = (Ok acc1, w1)
              /\ quiet w0 w1 /\ download_manager.photos_files acc1 = []).
    { destruct want_drive.
      - destruct (collect_spec "drive" _ progress_callback
                    (download_manager.mkScanned [] [] []) w0 Qd)
          as (a & w1 & Hr & Hq & Hp).
        exists a, w1. split; [exact Hr|]. split; [exact Hq|]. by apply Hp.
      - eexists _, _. split; [reflexivity|]. split; [apply quiet_refl|done]. }
    destruct H1 as (acc1 & w1 & Hr1 & Hq1 & Hp1).
    rewrite (bind_ok _ _ _ _ _ Hr1).
    destruct want_photos.
    + destruct (collect_spec "photos" _ progress_callback acc1 w1 Qp)
        as (a & w2 & Hr & Hq & _).
      exists a, w2. split; [exact Hr|].
      destruct (quiet_emit_then w e0 w2 (quiet_trans _ _ _ Hq1 Hq))
        as (Hc & Hd & He).
      repeat split; try done.
    + exists acc1, w1. split; [reflexivity|].
      destruct (quiet_emit_then w e0 w1 Hq1) as (Hc & Hd & He).
      repeat split; try done.
  - (* Photos first *)
    assert (H1 : exists acc1 w1,
              (if want_photos
               then download_manager.collect "photos"
                      (download_manager._scan_photos env) progress_callback
                      (download_manager.mkScanned [] [] [])
               else mret (download_manager.mkScanned [] [] [])) w0
              = (Ok acc1, w1)
              /\ quiet w0 w1
              /\ (want_photos = false ->
                  download_manager.photos_files acc1 = [])).
    { destruct want_photos.
      - destruct (collect_spec "photos" _ progress_callback
                    (download_manager.mkScanned [] [] []) w0 Qp)
          as (a & w1 & Hr & Hq & _).
        exists a, w1. split; [exact Hr|]. split; [exact Hq|]. done.
      - eexists _, _. split; [reflexivity|]. split; [apply quiet_refl|done]. }
    destruct H1 as (acc1 & w1 & Hr1 & Hq1 & Hp1).
    rewrite (bind_ok _ _ _ _ _ Hr1).
    destruct want_drive.
    + destruct (collect_spec "drive" _ progress_callback acc1 w1 Qd)
        as (a & w2 & Hr & Hq & Hp).
      exists a, w2. split; [exact Hr|].
      destruct (quiet_emit_then w e0 w2 (quiet_trans _ _ _ Hq1 Hq))
        as (Hc & Hd & He).
      repeat split; try done. intros Hw. rewrite Hp by reflexivity. auto.
    + exists acc1, w1. split; [reflexivity|].
      destruct (quiet_emit_then w e0 w1 Hq1) as (Hc & Hd & He).
      repeat split; try done.
Qed.

(** The second half of a scan: the trace is left alone, and the photo
    records of the store are merged with the photos found. *)
Lemma store_scanned_spec acc w :
  exists stats w',
    download_manager.store_scanned acc w = (Ok stats, w')
    /\ trace w' = trace w
    /\ photos_of w'
       = download_manager.merge_files (photos_of w)
           (download_manager.photos_files acc).
Proof.
  destruct w as [f [cf df pf tf] [cfg ds ps ts] dc pc dm tr].
  unfold download_manager.store_scanned, cm_get, cm_put, modify, gets,
    mbind, M_bind, photos_of, ConfigManager.get_drive_state,
    ConfigManager.get_photos_state.
  simpl.
  destruct (Dict.is_empty ds); simpl; destruct (Dict.is_empty ps); simpl;
    eexists _, _; (split; [reflexivity|]); (split; [reflexivity|]); simpl;
    match goal with |- context [Dict.is_empty ?d] =>
      destruct (Dict.is_empty d) end; reflexivity.
Qed.

(** Without a Photos scan, what the photo library would answer does not
    matter. *)
Lemma run_scans_without_photos env config progress_callback ps :
  truthy (AppConfig.download_photos config)
  && truthy (AppConfig.download_videos config) = false ->
  download_manager.run_scans (with_photos_search ps env) config
    progress_callback
  = download_manager.run_scans env config progress_callback.
Proof.
  intros H. unfold download_manager.run_scans. rewrite H. reflexivity.
Qed.

Lemma not_in_not_submitted s evs :
  Forall not_submitted evs -> ~ In (Submitted s) evs.
Proof.
  intros Hf Hin. rewrite Forall_forall in Hf.
  apply (Hf (Submitted s)). by apply list_elem_of_In.
Qed.

(** A scan by a signed-in caller: the configuration is read, the scans
    are run, their results stored. *)
Lemma scan_sources_signed_in env progress_callback w :
  is_authenticated env = true ->
  download_manager.scan_sources env progress_callback w
  = (acc ← download_manager.run_scans env (config_of env w)
             progress_callback;
     download_manager.store_scanned acc)
      (mkWorld (fs w) (disk w)
         (snd (ConfigManager.get_config (download_manager.default_dir env)
                 (disk w) (config_manager w)))
         (drive_client w) (photos_client w) (download_manager w) (trace w)).
Proof.
  intros Ha. unfold download_manager.scan_sources, config_of. rewrite Ha.
  simpl. unfold mbind at 1, M_bind at 1, cm_get.
  by destruct (ConfigManager.get_config (download_manager.default_dir env)
                 (disk w) (config_manager w)).
Qed.

Lemma scan_sources_signed_out env progress_callback w :
  is_authenticated env = false ->
  download_manager.scan_sources env progress_callback w
  = (Raise (RuntimeError "Not authenticated with Google"), w).
Proof.
  intros Ha. unfold download_manager.scan_sources. by rewrite Ha.
Qed.

(** C10.  A call of [scan_sources] submits the Photos listing exactly
    when the caller is signed in and both toggles [download_photos] and
    [download_videos] are true.  Otherwise, and so in every configuration
    with [download_photos] true and [download_videos] false, the Photos
    source is not scanned: the call is the same whatever the photo
    library holds, and the photo records of the store are as they
    were. *)
Theorem C10_photos_scan_needs_both_toggles env progress_callback w :
  let config := config_of env w in
  let run := download_manager.scan_sources env progress_callback w in
  exists evs,
    trace (snd run) = trace w ++ evs
    /\ if is_authenticated env
          && (truthy (AppConfig.download_photos config)
              && truthy (AppConfig.download_videos config))
       then In (Submitted "photos") evs
       else ~ In (Submitted "photos") evs
            /\ photos_of (snd run) = photos_of w
            /\ forall ps,
                 download_manager.scan_sources (with_photos_search ps env)
                   progress_callback w = run.
Proof.
  cbv zeta. destruct (is_authenticated env) eqn:Ha.
  2:{ rewrite (scan_sources_signed_out _ _ _ Ha). exists [].
      rewrite app_nil_r. simpl. repeat split; auto.
      intros ps. by apply scan_sources_signed_out. }
  rewrite (scan_sources_signed_in _ _ _ Ha). simpl andb.
  set (config := config_of env w).
  set (w1 := mkWorld _ _ _ _ _ _ _).
  assert (Hp1 : photos_of w1 = photos_of w).
  { subst w1. unfold photos_of, ConfigManager.get_photos_state,
      ConfigManager.get_config. simpl.
    destruct (ConfigManager._config (config_manager w)); simpl;
      destruct (Dict.is_empty (ConfigManager._photos_state (config_manager w)));
      reflexivity. }
  destruct (run_scans_spec env config progress_callback w1)
    as (acc & w2 & Hr & Hc & Hd & (evs & Ht & Hf) & Hph).
  destruct (store_scanned_spec acc w2) as (stats & w3 & Hs & Ht3 & Hp3).
  assert (Hrun : (acc ← download_manager.run_scans env config
                          progress_callback;
                  download_manager.store_scanned acc) w1 = (Ok stats, w3)).
  { rewrite (bind_ok _ _ _ _ _ Hr). exact Hs. }
  rewrite Hrun. simpl snd.
  eexists. split.
  { rewrite Ht3, Ht. subst w1. simpl. reflexivity. }
  pose proof (not_in_not_submitted "photos" evs Hf) as Hnin.
  destruct (truthy (AppConfig.download_photos config)
            && truthy (AppConfig.download_videos config)) eqn:Hw.
  - rewrite !in_app_iff. left. right. simpl. auto.
  - split; [|split].
    + rewrite !in_app_iff. intros [[Hin|Hin]|Hin]; [| |contradiction].
      * destruct (truthy (AppConfig.download_videos config)
                  || truthy (AppConfig.download_documents config));
          simpl in Hin; [destruct Hin as [Hin|[]]; discriminate | done].
      * destruct Hin.
    + rewrite Hp3, (Hph eq_refl). simpl. rewrite <- Hp1.
      unfold photos_of. rewrite <- Hc, <- Hd. reflexivity.
    + intros ps.
      rewrite (scan_sources_signed_in (with_photos_search ps env) _ _ Ha).
      change (config_of (with_photos_search ps env) w) with config.
      rewrite (run_scans_without_photos _ _ _ _ Hw).
      exact Hrun.
Qed.

(** With [download_photos] true and [download_videos] false, in a photo
    library that holds a video: nothing is asked of Photos (only the
    Drive scan, for the documents, is submitted) and no record reaches
    the store. *)
Lemma scan_photos_on_videos_off :
  let run := download_manager.scan_sources Scenario.env_one_photo false
               Scenario.world_photos_only in
  trace (snd run) = [Submitted "drive"]
  /\ ConfigManager._photos_state (config_manager (snd run)) = []
  /\ fst run = Ok (DownloadStats.mk 0 0 0 0 0).
Proof. vm_compute. repeat split; reflexivity. Qed.

(** ** Helpers shared by the properties below *)

(** The loop of [get_download_stats], for the videos awaiting
    transcription. *)
Lemma videos_for_transcription_count (cm : ConfigManager.t) :
  DownloadStats.videos_for_transcription (ConfigManager.get_download_stats cm)
  = Z.of_nat
      (length
         (List.filter (awaiting (ConfigManager._transcription_state cm))
                      (all_states cm))).
Proof.
  unfold ConfigManager.get_download_stats, all_states.
  rewrite fold_count_state_videos. reflexivity.
Qed.

(** ** More on scans *)

(** The second half of a scan, for the Drive records. *)
Lemma store_scanned_drive acc w :
  exists stats w',
    download_manager.store_scanned acc w = (Ok stats, w')
    /\ drive_of w'
       = download_manager.merge_files (drive_of w)
           (download_manager.drive_files acc)
    /\ stats = ConfigManager.get_download_stats (config_manager w')
    /\ drive_state_file (disk w')
       = Stored (ConfigManager._drive_state (config_manager w'))
    /\ photos_state_file (disk w')
       = Stored (ConfigManager._photos_state (config_manager w')).
Proof.
  destruct w as [f [cf df pf tf] [cfg ds ps ts] dc pc dm tr].
  unfold download_manager.store_scanned, cm_get, cm_put, modify, gets,
    mbind, M_bind, drive_of, ConfigManager.get_drive_state,
    ConfigManager.get_photos_state.
  simpl.
  destruct (Dict.is_empty ds); simpl; destruct (Dict.is_empty ps); simpl;
    eexists _, _; (split; [reflexivity|]); simpl;
    (split; [|repeat split]);
    match goal with |- context [Dict.is_empty ?d] =>
      destruct (Dict.is_empty d) end; reflexivity.
Qed.

(** What a signed-in scan comes to, for the records of either source. *)
Lemma scan_sources_stores env progress_callback w :
  is_authenticated env = true ->
  exists acc stats w',
    download_manager.scan_sources env progress_callback w = (Ok stats, w')
    /\ drive_of w'
       = download_manager.merge_files (drive_of w)
           (download_manager.drive_files acc)
    /\ photos_of w'
       = download_manager.merge_files (photos_of w)
           (download_manager.photos_files acc)
    /\ stats = ConfigManager.get_download_stats (config_manager w')
    /\ drive_state_file (disk w')
       = Stored (ConfigManager._drive_state (config_manager w'))
    /\ photos_state_file (disk w')
       = Stored (ConfigManager._photos_state (config_manager w')).
Proof.
  intros Ha. rewrite (scan_sources_signed_in _ _ _ Ha).
  set (config := config_of env w).
  set (w1 := mkWorld _ _ _ _ _ _ _).
  assert (Hs1 : drive_of w1 = drive_of w /\ photos_of w1 = photos_of w).
  { subst w1. unfold drive_of, photos_of, ConfigManager.get_drive_state,
      ConfigManager.get_photos_state, ConfigManager.get_config. simpl.
    destruct (ConfigManager._config (config_manager w)); simpl;
      destruct (Dict.is_empty (ConfigManager._drive_state (config_manager w)));
      destruct (Dict.is_empty (ConfigManager._photos_state (config_manager w)));
      split; reflexivity. }
  destruct Hs1 as [Hd1 Hp1].
  destruct (run_scans_spec env config progress_callback w1)
    as (acc & w2 & Hr & Hc & Hd & _ & _).
  assert (Hs2 : drive_of w2 = drive_of w1 /\ photos_of w2 = photos_of w1).
  { unfold drive_of, photos_of. rewrite Hc, Hd. done. }
  destruct Hs2 as [Hd2 Hp2].
  destruct (store_scanned_drive acc w2)
    as (stats & w3 & Hs & Hdr & Hst & Hfd & Hfp).
  destruct (store_scanned_spec acc w2) as (stats' & w3' & Hs' & _ & Hph).
  rewrite Hs in Hs'. inversion Hs'; subst stats' w3'.
  exists acc, stats, w3. rewrite (bind_ok _ _ _ _ _ Hr).
  split; [exact Hs|]. rewrite Hdr, Hph, Hd2, Hp2, Hd1, Hp1. auto.
Qed.

(** X1.  Whatever the two sources list, and whether the caller is signed
    in or not, a scan drops no record of the store and leaves the
    download progress of each (its status, download time and local path)
    as it was. *)
Theorem scan_sources_keeps_progress env progress_callback w source k e :
  Dict.get (store_of source w) k = Some e ->
  let w' := snd (download_manager.scan_sources env progress_callback w) in
  exists e',
    Dict.get (store_of source w') k = Some e'
    /\ FileState.status e' = FileState.status e
    /\ FileState.downloaded_at e' = FileState.downloaded_at e
    /\ FileState.local_path e' = FileState.local_path e.
Proof.
  intros H. cbv zeta. destruct (is_authenticated env) eqn:Ha.
  - destruct (scan_sources_stores env progress_callback w Ha)
      as (acc & stats & w' & Hrun & Hd & Hp & _).
    rewrite Hrun. simpl snd. unfold store_of in *.
    destruct (String.eqb source "drive").
    + rewrite Hd. by apply merge_files_progress.
    + rewrite Hp. by apply merge_files_progress.
  - rewrite (scan_sources_signed_out _ _ _ Ha). simpl. eauto.
Qed.

(** The video of the rescan keeps its status "complete" and its path. *)
Lemma scan_sources_keeps_progress_witness :
  exists e',
    Dict.get (store_of "drive"
                (snd (download_manager.scan_sources Scenario.env_rescan
                        false Scenario.world_rescan))) "f1" = Some e'
    /\ FileState.status e' = "complete"
    /\ FileState.local_path e' = Some Scenario.clip_path.
Proof.
  destruct (scan_sources_keeps_progress Scenario.env_rescan false
              Scenario.world_rescan "drive" "f1" Scenario.clip_done eq_refl)
    as (e' & He & Hs & _ & Hl).
  exists e'. split; [exact He|]. split; [exact Hs | exact Hl].
Defined.



(** ** More on the configuration manager *)

Lemma count_state_fields trans stats state :
  let stats' := ConfigManager.count_state trans stats state in
  let one s := if String.eqb (FileState.status state) s then 1 else 0 in
  DownloadStats.total stats' = DownloadStats.total stats + 1
  /\ DownloadStats.downloaded stats'
     = DownloadStats.downloaded stats + one "complete"
  /\ DownloadStats.pending stats' = DownloadStats.pending stats + one "pending"
  /\ DownloadStats.errors stats' = DownloadStats.errors stats + one "error".
Proof.
  cbv zeta. unfold ConfigManager.count_state.
  destruct (String.eqb_spec (FileState.status state) "complete") as [E|_].
  - rewrite E. simpl.
    repeat match goal with
           | |- context [if ?c then _ else _] => destruct c
           | |- context [match ?c with Some _ => _ | None => _ end] =>
               destruct c
           end; simpl; lia.
  - destruct (String.eqb_spec (FileState.status state) "pending") as [E|_].
    + rewrite E. simpl. lia.
    + destruct (String.eqb (FileState.status state) "error"); simpl; lia.
Qed.

Lemma fold_count_state_fields trans states : forall stats,
  let stats' := fold_left (ConfigManager.count_state trans) states stats in
  DownloadStats.total stats'
  = DownloadStats.total stats + Z.of_nat (length states)
  /\ DownloadStats.downloaded stats'
     = DownloadStats.downloaded stats + count_status "complete" states
  /\ DownloadStats.pending stats'
     = DownloadStats.pending stats + count_status "pending" states
  /\ DownloadStats.errors stats'
     = DownloadStats.errors stats + count_status "error" states.
Proof.
  induction states as [|s states IH]; intros stats; cbv zeta.
  - unfold count_status. simpl. lia.
  - simpl fold_left.
    destruct (IH (ConfigManager.count_state trans stats s))
      as (Ht & Hd & Hp & He).
    destruct (count_state_fields trans stats s) as (Ht1 & Hd1 & Hp1 & He1).
    rewrite Ht, Hd, Hp, He, Ht1, Hd1, Hp1, He1.
    unfold count_status. simpl List.filter.
    repeat match goal with
           | |- context [String.eqb (FileState.status s) ?x] =>
               destruct (String.eqb (FileState.status s) x)
           end; simpl length; lia.
Qed.

Lemma filter_length_le {A} (P : A -> bool) l :
  (length (List.filter P l) <= length l)%nat.
Proof.
  induction l as [|x l IH]; simpl; [lia|]. destruct (P x); simpl; lia.
Qed.

Lemma filter_imp_length {A} (P Q : A -> bool) l :
  (forall x, P x = true -> Q x = true) ->
  (length (List.filter P l) <= length (List.filter Q l))%nat.
Proof.
  intros H. induction l as [|x l IH]; simpl; [lia|].
  destruct (P x) eqn:Px.
  - rewrite (H x Px). simpl. lia.
  - destruct (Q x); simpl; lia.
Qed.

Lemma filter_disjoint3_length {A} (P Q R : A -> bool) l :
  (forall x, P x = true -> Q x = false /\ R x = false) ->
  (forall x, Q x = true -> R x = false) ->
  (length (List.filter P l) + length (List.filter Q l)
   + length (List.filter R l) <= length l)%nat.
Proof.
  intros H1 H2. induction l as [|x l IH]; simpl; [lia|].
  destruct (P x) eqn:Px.
  - destruct (H1 x Px) as [-> ->]. simpl. lia.
  - destruct (Q x) eqn:Qx.
    + rewrite (H2 x Qx). simpl. lia.
    + destruct (R x); simpl; lia.
Qed.

(** X3.  The statistics count what they say: [total] is the number of
    records of both sources, [downloaded], [pending] and [errors] are the
    numbers of records whose status is "complete", "pending" and "error".
    So the three never add up to more than the total (a record in
    another status, such as "downloading", is in the total only), and the
    videos awaiting transcription are never more than the downloads. *)
Theorem get_download_stats_counts (cm : ConfigManager.t) :
  let stats := ConfigManager.get_download_stats cm in
  DownloadStats.total stats = Z.of_nat (length (all_states cm))
  /\ DownloadStats.downloaded stats = count_status "complete" (all_states cm)
  /\ DownloadStats.pending stats = count_status "pending" (all_states cm)
  /\ DownloadStats.errors stats = count_status "error" (all_states cm)
  /\ DownloadStats.downloaded stats + DownloadStats.pending stats
     + DownloadStats.errors stats <= DownloadStats.total stats
  /\ 0 <= DownloadStats.videos_for_transcription stats
     <= DownloadStats.downloaded stats.
Proof.
  cbv zeta.
  pose proof (fold_count_state_fields
                (ConfigManager._transcription_state cm) (all_states cm)
                DownloadStats.new) as H.
  cbv zeta in H. simpl in H. destruct H as (Ht & Hd & Hp & He).
  pose proof (videos_for_transcription_count cm) as Hv.
  unfold ConfigManager.get_download_stats. fold (all_states cm).
  rewrite Ht, Hd, Hp, He.
  repeat split; try reflexivity.
  - unfold count_status.
    pose proof (filter_disjoint3_length
                  (fun s => String.eqb (FileState.status s) "complete")
                  (fun s => String.eqb (FileState.status s) "pending")
                  (fun s => String.eqb (FileState.status s) "error")
                  (all_states cm)) as Hl.
    assert (Hl' : (length (List.filter (fun s => String.eqb (FileState.status s) "complete") (all_states cm))
                   + length (List.filter (fun s => String.eqb (FileState.status s) "pending") (all_states cm))
                   + length (List.filter (fun s => String.eqb (FileState.status s) "error") (all_states cm))
                   <= length (all_states cm))%nat).
    { apply Hl.
      - intros x Hx. apply String.eqb_eq in Hx. rewrite Hx. done.
      - intros x Hx. apply String.eqb_eq in Hx. rewrite Hx. done. }
    lia.
  - unfold ConfigManager.get_download_stats in Hv. fold (all_states cm) in Hv.
    rewrite Hv. lia.
  - unfold ConfigManager.get_download_stats in Hv. fold (all_states cm) in Hv.
    rewrite Hv. unfold count_status.
    apply inj_le. apply filter_imp_length.
    intros x Hx. unfold awaiting in Hx.
    destruct (String.eqb (FileState.status x) "complete"); [done|].
    discriminate.
Qed.

(** ** Loading a configuration document *)

Lemma filter_set_hidden {V} (P : string -> bool) (d : Dict.t V) k v :
  P k = false ->
  List.filter (fun kv => P (fst kv)) (Dict.set d k v)
  = List.filter (fun kv => P (fst kv)) d.
Proof.
  intros Hk. induction d as [|[k' v'] d IH]; simpl.
  - by rewrite Hk.
  - destruct (String.eqb_spec k' k) as [->|Hne]; simpl.
    + by rewrite Hk.
    + by rewrite IH.
Qed.

Lemma filter_set_shown {V} (P : string -> bool) (d : Dict.t V) k v :
  P k = true ->
  List.filter (fun kv => P (fst kv)) (Dict.set d k v)
  = Dict.set (List.filter (fun kv => P (fst kv)) d) k v.
Proof.
  intros Hk. induction d as [|[k' v'] d IH]; simpl.
  - by rewrite Hk.
  - destruct (String.eqb_spec k' k) as [->|Hne]; simpl.
    + rewrite Hk. simpl. by rewrite String.eqb_refl.
    + destruct (P k') eqn:Pk'; simpl.
      * destruct (String.eqb_spec k' k); [contradiction|]. by rewrite IH.
      * exact IH.
Qed.

Lemma filter_loaded_object {V} (P : string -> bool)
    (pairs : list (string * V)) : forall d : Dict.t V,
  List.filter (fun kv => P (fst kv))
    (fold_left (fun d kv => Dict.set d (fst kv) (snd kv)) pairs d)
  = fold_left (fun d kv => Dict.set d (fst kv) (snd kv))
      (List.filter (fun kv => P (fst kv)) pairs)
      (List.filter (fun kv => P (fst kv)) d).
Proof.
  induction pairs as [|[k v] pairs IH]; intros d; simpl; [done|].
  rewrite IH. destruct (P k) eqn:Pk; simpl.
  - by rewrite filter_set_shown.
  - by rewrite filter_set_hidden.
Qed.

Lemma filter_filter_same {A} (P : A -> bool) l :
  List.filter P (List.filter P l) = List.filter P l.
Proof.
  induction l as [|x l IH]; simpl; [done|].
  destruct (P x) eqn:Px; simpl; [by rewrite Px, IH | exact IH].
Qed.

(** X4.  Loading ignores every key of the document that is not an
    attribute of the class: the configuration loaded is the one loaded
    from the document without those keys, wherever they stand. *)
Theorem load_config_ignores_unknown_keys default_dir disk pairs :
  config_file disk = Stored (VDict pairs) ->
  ConfigManager._load_config default_dir disk
  = ConfigManager._load_config default_dir
      (mkDisk
         (Stored (VDict (List.filter (fun kv => AppConfig.hasattr (fst kv))
                                     pairs)))
         (drive_state_file disk) (photos_state_file disk)
         (transcription_state_file disk)).
Proof.
  intros H. unfold ConfigManager._load_config. rewrite H. simpl.
  unfold ConfigManager.loaded_object.
  rewrite !(filter_loaded_object AppConfig.hasattr). simpl.
  by rewrite filter_filter_same.
Qed.

(** A document with a stray key loads like the document without it. *)
Lemma load_config_ignores_unknown_keys_witness :
  ConfigManager._load_config Scenario.default_dir0
    (mkDisk (Stored (VDict [("theme", VStr "dark");
                            ("auto_download", VBool true)]))
            Absent Absent Absent)
  = ConfigManager._load_config Scenario.default_dir0
      (mkDisk (Stored (VDict [("auto_download", VBool true)]))
              Absent Absent Absent).
Proof.
  exact (load_config_ignores_unknown_keys Scenario.default_dir0
           (mkDisk (Stored (VDict [("theme", VStr "dark");
                                   ("auto_download", VBool true)]))
                   Absent Absent Absent)
           [("theme", VStr "dark"); ("auto_download", VBool true)] eq_refl).
Defined.

Lemma other_attribute_is_no_field k :
  In k AppConfig.other_class_attributes ->
  AppConfig.hasattr k = true
  /\ existsb (String.eqb k) AppConfig.field_names = false.
Proof.
  unfold AppConfig.other_class_attributes. simpl.
  intros H.
  repeat (destruct H as [<-|H]; [split; reflexivity|]).
  destruct H.
Qed.

Lemma in_loaded_object {V} (pairs : list (string * V)) k :
  forall d : Dict.t V,
  (In k (map fst pairs) \/ Dict.mem d k = true) ->
  Dict.mem (fold_left (fun d kv => Dict.set d (fst kv) (snd kv)) pairs d) k
  = true.
Proof.
  induction pairs as [|[k' v'] pairs IH]; intros d; simpl.
  - intros [[]|H]; exact H.
  - intros [[<-|H]|H]; apply IH.
    + right. unfold Dict.mem. by rewrite Dict_get_set_same.
    + by left.
    + right. unfold Dict.mem in *.
      destruct (String.eqb_spec k' k) as [->|Hne].
      * by rewrite Dict_get_set_same.
      * by rewrite Dict_get_set_other.
Qed.

Lemma get_in {V} (d : Dict.t V) k v : Dict.get d k = Some v -> In (k, v) d.
Proof.
  induction d as [|[k' v'] d IH]; simpl; [discriminate|].
  destruct (String.eqb_spec k' k) as [->|_].
  - intros H; inversion H; subst. by left.
  - intros H. right. by apply IH.
Qed.

(** X5.  A configuration file that is absent, unreadable or not a JSON
    object loads as the defaults.  So does a document with a key that
    names another attribute of the class, a method or a special
    attribute such as "__doc__": the key passes the filter, the
    constructor refuses it, and every setting of the document is dropped
    with it. *)
Theorem load_config_falls_back_to_defaults default_dir disk :
  (match config_file disk with
   | Absent | Unreadable => True
   | Stored (VDict pairs) =>
       exists k, In k AppConfig.other_class_attributes
                 /\ In k (map fst pairs)
   | Stored _ => True
   end) ->
  ConfigManager._load_config default_dir disk = AppConfig.new default_dir.
Proof.
  unfold ConfigManager._load_config.
  destruct (config_file disk) as [| |[| | | | |pairs]]; try done.
  intros (k & Hk & Hin).
  destruct (other_attribute_is_no_field k Hk) as [Hh Hf].
  pose proof (in_loaded_object pairs k [] (or_introl Hin)) as Hm.
  unfold Dict.mem in Hm. fold (ConfigManager.loaded_object pairs) in Hm.
  destruct (Dict.get (ConfigManager.loaded_object pairs) k) as [v|] eqn:Hg;
    [|discriminate].
  apply get_in in Hg.
  assert (Hin' : In (k, v)
                   (List.filter (fun kv => AppConfig.hasattr (fst kv))
                      (ConfigManager.loaded_object pairs))).
  { apply filter_In. split; [exact Hg | exact Hh]. }
  unfold AppConfig.init.
  destruct (forallb _ _) eqn:Hall; [|reflexivity].
  rewrite forallb_forall in Hall. specialize (Hall _ Hin').
  cbn [fst] in Hall. rewrite Hf in Hall. discriminate.
Qed.

(** A document that sets the download path and also carries a "__doc__"
    key: the path is lost, the defaults are loaded. *)
Lemma load_config_falls_back_to_defaults_witness :
  ConfigManager._load_config Scenario.default_dir0
    (mkDisk (Stored (VDict [("download_path", VStr "D:\backup");
                            ("__doc__", VStr "my settings")]))
            Absent Absent Absent)
  = AppConfig.new Scenario.default_dir0.
Proof.
  apply (load_config_falls_back_to_defaults Scenario.default_dir0
           (mkDisk (Stored (VDict [("download_path", VStr "D:\backup");
                                   ("__doc__", VStr "my settings")]))
                   Absent Absent Absent)).
  simpl. exists "__doc__". split; [|simpl; auto].
  unfold AppConfig.other_class_attributes. simpl. auto 12.
Defined.

(** ** Updates, ordering and clearing of the store *)


Lemma insert_desc_perm x l : Permutation (config.insert_desc x l) (x :: l).
Proof.
  induction l as [|y l IH]; simpl; [done|].
  destruct (String.ltb _ _); [|done].
  rewrite IH. apply perm_swap.
Qed.

Lemma sorted_desc_perm l : Permutation (config.sorted_desc l) l.
Proof.
  induction l as [|x l IH]; simpl; [done|].
  rewrite insert_desc_perm. by constructor.
Qed.

Lemma ltb_leb a b : String.ltb a b = true -> String.leb a b = true.
Proof. unfold String.ltb, String.leb. by destruct (String.compare a b). Qed.

Lemma not_ltb_leb a b : String.ltb a b = false -> String.leb b a = true.
Proof.
  unfold String.ltb, String.leb. rewrite (String.compare_antisym a b).
  by destruct (String.compare b a).
Qed.

Lemma leb_trans a b c :
  String.leb a b = true -> String.leb b c = true -> String.leb a c = true.
Proof.
  intros H1 H2. apply Is_true_true.
  apply (transitivity (R := String.le) (y := b)); by apply Is_true_true.
Qed.

Lemma insert_desc_sorted x l :
  StronglySorted newer_first l ->
  StronglySorted newer_first (config.insert_desc x l).
Proof.
  induction 1 as [|y l Hs IH Hall]; simpl.
  - repeat constructor.
  - destruct (String.ltb (config.downloaded_key x) (config.downloaded_key y))
      eqn:E.
    + constructor; [exact IH|].
      rewrite insert_desc_perm.
      constructor; [|exact Hall]. by apply ltb_leb.
    + constructor; [by constructor|].
      apply not_ltb_leb in E. constructor; [exact E|].
      eapply Forall_impl; [exact Hall|].
      intros z Hz. unfold newer_first in *. by eapply leb_trans.
Qed.

Lemma sorted_desc_sorted l : StronglySorted newer_first (config.sorted_desc l).
Proof.
  induction l as [|x l IH]; simpl; [constructor|].
  by apply insert_desc_sorted.
Qed.

Lemma filter_sorted {A} (R : A -> A -> Prop) (P : A -> bool) l :
  StronglySorted R l -> StronglySorted R (List.filter P l).
Proof.
  induction 1 as [|x l Hs IH Hall]; simpl; [constructor|].
  destruct (P x); [|exact IH].
  constructor; [exact IH|].
  rewrite Forall_forall in *. intros y Hy.
  apply list_elem_of_In, filter_In in Hy as [Hy _].
  apply Hall. by apply list_elem_of_In.
Qed.

Lemma filter_perm {A} (P : A -> bool) l l' :
  Permutation l l' -> Permutation (List.filter P l) (List.filter P l').
Proof.
  induction 1; simpl.
  - done.
  - destruct (P x); [by constructor | done].
  - destruct (P x), (P y); try done. apply perm_swap.
  - by etrans.
Qed.

(** X7.  [get_all_files] returns every record of both sources, each once,
    the most recently downloaded first (the records never downloaded
    last); [get_videos_for_transcription] returns, in that order, exactly
    the completed videos whose transcription status is "pending" and that
    have a local path. *)
Theorem get_all_files_sorted (cm : ConfigManager.t) :
  Permutation (config.get_all_files cm) (all_states cm)
  /\ StronglySorted newer_first (config.get_all_files cm)
  /\ Permutation (config.get_videos_for_transcription cm)
       (List.filter wants_transcription (all_states cm))
  /\ StronglySorted newer_first (config.get_videos_for_transcription cm).
Proof.
  unfold config.get_all_files, config.get_videos_for_transcription.
  fold (all_states cm).
  assert (Heq : forall l,
            List.filter
              (fun state =>
                 FileState.is_video state
                 && String.eqb (FileState.status state) "complete"
                 && String.eqb (FileState.transcription_status state) "pending"
                 && truthy (from_option VStr VNone
                              (FileState.local_path state))) l
            = List.filter wants_transcription l).
  { intros l. apply filter_ext. intros s. unfold wants_transcription.
    by destruct (FileState.local_path s). }
  rewrite Heq.
  split; [apply sorted_desc_perm|].
  split; [apply sorted_desc_sorted|].
  split; [apply filter_perm, sorted_desc_perm|].
  apply filter_sorted, sorted_desc_sorted.
Qed.


(** ** The download worker *)

Lemma quiet_same_fs w w' :
  disk w' = disk w -> config_manager w' = config_manager w ->
  download_manager w' = download_manager w -> trace w' = trace w ->
  quiet w w'.
Proof.
  intros Hd Hc Hm Ht. repeat split; try done.
  exists []. rewrite app_nil_r. by split.
Qed.

Lemma is_quiet_set_fs x : is_quiet (set_fs x).
Proof. intros w. by apply quiet_same_fs. Qed.

Lemma is_quiet_fs_do op : is_quiet (fs_do op).
Proof.
  intros w. rewrite fs_do_run. destruct (op (fs w)); by apply quiet_same_fs.
Qed.

Lemma is_quiet_st_size p : is_quiet (st_size p).
Proof. intros w. apply quiet_refl. Qed.

Lemma is_quiet_for_each {A} (l : list A) (body : A -> M unit) :
  (forall x, is_quiet (body x)) -> is_quiet (for_each l body).
Proof.
  intros Hb. induction l as [|x l IH]; simpl; [apply is_quiet_ret|].
  apply is_quiet_bind; [apply Hb | intros _; exact IH].
Qed.

#[export] Hint Resolve is_quiet_set_fs is_quiet_fs_do is_quiet_st_size
  : quiet.

Lemma is_quiet_is_empty_file p : is_quiet (is_empty_file p).
Proof.
  unfold is_empty_file. quiet_step; [quiet_step|].
  destruct a; repeat quiet_step.
Qed.

Lemma is_quiet_remove_partial env p : is_quiet (remove_partial env p).
Proof.
  unfold remove_partial. quiet_step; [quiet_step|].
  apply is_quiet_when. repeat quiet_step.
Qed.

Lemma is_quiet_write_chunks p t cb :
  (forall f, cb = Some f -> forall a b, is_quiet (f a b)) ->
  is_quiet (write_chunks p t cb).
Proof.
  intros Hcb. unfold write_chunks.
  assert (Hrep : forall progress,
            is_quiet (match cb with
                      | Some cb => for_each progress (fun p => cb p 100)
                      | None => mret tt
                      end)).
  { intros progress. destruct cb as [f|]; [|apply is_quiet_ret].
    apply is_quiet_for_each. intros x. by apply Hcb. }
  assert (Hw : forall n, is_quiet (modify (fun w =>
            mkWorld (FS.write (fs w) p n) (disk w)
                    (config_manager w) (drive_client w) (photos_client w)
                    (download_manager w) (trace w)))).
  { intros n w. by apply quiet_same_fs. }
  quiet_step; [quiet_step|].
  destruct t; repeat (first [apply Hrep | apply Hw | quiet_step]).
Qed.

#[export] Hint Resolve is_quiet_is_empty_file is_quiet_remove_partial
  : quiet.

Lemma is_quiet_progress_cb name a b :
  is_quiet (download_manager.progress_cb name a b).
Proof.
  unfold download_manager.progress_cb.
  apply is_quiet_bind; [apply is_quiet_gets | intros self].
  apply is_quiet_when, is_quiet_emit. exact I.
Qed.

Lemma is_quiet_report_error name msg :
  is_quiet (download_manager.report_error name msg).
Proof.
  unfold download_manager.report_error.
  apply is_quiet_bind; [apply is_quiet_gets | intros self].
  apply is_quiet_bind; [|intros _; apply is_quiet_emit; exact I].
  apply is_quiet_when, is_quiet_emit. exact I.
Qed.

(** Takes a goal [is_quiet m] apart along the structure of [m]. *)
Ltac quiet_leaf :=
  first
    [ apply is_quiet_ret | apply is_quiet_raise | apply is_quiet_gets
    | apply is_quiet_lift_result | apply is_quiet_set_fs
    | apply is_quiet_fs_do | apply is_quiet_st_size
    | apply is_quiet_is_empty_file | apply is_quiet_remove_partial
    | apply is_quiet_emit; exact I
    | apply is_quiet_drive_get_service | apply is_quiet_photos_get_service
    | apply is_quiet_report_error | apply is_quiet_progress_cb
    | apply is_quiet_write_chunks; assumption ].

Ltac quiet_go :=
  repeat
    first
      [ quiet_leaf
      | apply is_quiet_when
      | apply is_quiet_try_except; [|intros ?]
      | apply is_quiet_bind; [|intros ?]
      | match goal with
        | |- is_quiet (if ?b then _ else _) => destruct b
        | |- is_quiet (match ?x with _ => _ end) => destruct x
        end ].

Lemma is_quiet_export_file env file_id destination mime cb :
  (forall f, cb = Some f -> forall a b, is_quiet (f a b)) ->
  is_quiet (drive_client._export_file env file_id destination mime cb).
Proof. intros Hcb. unfold drive_client._export_file. quiet_go. Qed.

Lemma is_quiet_download_file env file_id destination mime cb :
  (forall f, cb = Some f -> forall a b, is_quiet (f a b)) ->
  is_quiet (drive_client.download_file env file_id destination mime cb).
Proof.
  intros Hcb. unfold drive_client.download_file.
  apply is_quiet_bind; [quiet_go | intros _].
  apply is_quiet_bind; [quiet_go | intros _].
  apply is_quiet_try_except; [|intros e; quiet_go].
  destruct (Dict.mem _ _); [by apply is_quiet_export_file | quiet_go].
Qed.

Lemma is_quiet_download_video env media_item_id destination cb :
  (forall f, cb = Some f -> forall a b, is_quiet (f a b)) ->
  is_quiet (photos_client.download_video env media_item_id destination cb).
Proof. intros Hcb. unfold photos_client.download_video. quiet_go. Qed.

Lemma is_quiet_resolve_destination env file_state source_type download_path :
  is_quiet (download_manager.resolve_destination env file_state source_type
              download_path).
Proof.
  intros w. unfold download_manager.resolve_destination.
  destruct (download_manager.destination_of _ _ _ _ _) as [[d fs']|e];
    by apply quiet_same_fs.
Qed.

Lemma is_quiet_download_single_file env file_state source_type download_path :
  is_quiet (download_manager._download_single_file env file_state source_type
              download_path).
Proof.
  assert (Hcb : forall f,
            Some (download_manager.progress_cb (FileState.name file_state))
            = Some f -> forall a b, is_quiet (f a b)).
  { intros f [= <-] a b. apply is_quiet_progress_cb. }
  unfold download_manager._download_single_file.
  apply is_quiet_try_except; [|intros e; quiet_go].
  apply is_quiet_bind; [apply is_quiet_resolve_destination|intros destination].
  apply is_quiet_bind; [apply is_quiet_gets | intros ex].
  destruct ex; [apply is_quiet_ret|].
  apply is_quiet_bind; [|intros success; quiet_go].
  destruct (String.eqb _ _);
    [by apply is_quiet_download_file | by apply is_quiet_download_video].
Qed.

Lemma report_error_run name msg w :
  exists w', download_manager.report_error name msg w = (Ok tt, w')
    /\ exists evs, trace w' = evs ++ [NotifyDownloadError name msg].
Proof.
  unfold download_manager.report_error, gets, when, mbind, M_bind.
  destruct (DownloadManager._on_error (download_manager w));
    eexists; (split; [reflexivity|]); simpl; eauto.
Qed.

(** What [_download_single_file] comes to. *)
Lemma download_single_file_run env file_state source_type download_path w :
  exists file_state' success was_skipped w',
    download_manager._download_single_file env file_state source_type
      download_path w
    = (Ok (file_state', (success, was_skipped)), w')
    /\ (was_skipped = true -> success = true)
    /\ (success = true ->
        exists p,
          file_state' = FileState.set_local_path (Some p) file_state)
    /\ (success = false ->
        exists msg,
          file_state' = FileState.set_error_message (Some msg) file_state
          /\ exists evs,
               trace w'
               = evs ++ [NotifyDownloadError (FileState.name file_state) msg])
    /\ config_manager w' = config_manager w
    /\ disk w' = disk w
    /\ download_manager w' = download_manager w.
Proof.
  destruct (is_quiet_download_single_file env file_state source_type
              download_path w) as (Hc & Hd & Hm & _).
  destruct (download_manager._download_single_file env file_state
              source_type download_path w) as [r w'] eqn:E.
  simpl in *. unfold download_manager._download_single_file in E.
  apply try_except_inv in E as [(a & Hb & ->)|(e & w1 & Hb & Hh)].
  - apply bind_inv in Hb as [(e & _ & [=])|(destination & w1 & _ & Hb)].
    apply bind_inv in Hb as [(e & _ & [=])|(ex & w2 & _ & Hb)].
    destruct ex.
    { inversion Hb; subst. eexists _, _, _, _. split; [reflexivity|].
      repeat split; try done. intros _. eauto. }
    apply bind_inv in Hb as [(e & _ & [=])|(success & w3 & _ & Hb)].
    destruct success.
    { inversion Hb; subst. eexists _, _, _, _. split; [reflexivity|].
      repeat split; try done. intros _. eauto. }
    apply bind_inv in Hb as [(e & _ & [=])|([] & w4 & Hr & Hb)].
    inversion Hb; subst.
    destruct (report_error_run (FileState.name file_state)
                "Download failed" w3) as (w4 & Hr' & evs & Ht).
    rewrite Hr in Hr'. inversion Hr'; subst.
    eexists _, _, _, _. split; [reflexivity|].
    repeat split; try done. intros _. eauto.
  - rewrite (bind_ok _ _ _ _ _ (emit_run _ w1)) in Hh.
    match type of Hh with
    | (download_manager.report_error ?n ?m ≫= _) ?w0 = _ =>
        destruct (report_error_run n m w0) as (w2 & Hr & evs & Ht)
    end.
    rewrite (bind_ok _ _ _ _ _ Hr) in Hh. inversion Hh; subst.
    eexists _, _, _, _. split; [reflexivity|].
    repeat split; try done. intros _. eauto.
Qed.

(** X9.  [_download_single_file] never raises.  It returns success with
    the local path recorded on the record (a skip is a success), or
    failure with an error message recorded on the record; a failure is
    always notified, last of all, with that message.  The persisted
    documents and the flags of the manager are not touched.  (The record
    written to is the object the store holds in memory; the call itself
    saves nothing.) *)
Theorem download_single_file_outcome env file_state source_type
    download_path w :
  let run :=
    download_manager._download_single_file env file_state source_type
      download_path w in
  exists file_state' success was_skipped,
    fst run = Ok (file_state', (success, was_skipped))
    /\ (was_skipped = true -> success = true)
    /\ (success = true ->
        exists p,
          file_state' = FileState.set_local_path (Some p) file_state)
    /\ (success = false ->
        exists msg evs,
          file_state' = FileState.set_error_message (Some msg) file_state
          /\ trace (snd run)
             = evs ++ [NotifyDownloadError (FileState.name file_state) msg])
    /\ disk (snd run) = disk w
    /\ download_manager (snd run) = download_manager w.
Proof.
  cbv zeta.
  destruct (download_single_file_run env file_state source_type
              download_path w)
    as (f' & success & skipped & w' & -> & Hsk & Hok & Hfail & Hc & Hd & Hm).
  exists f', success, skipped. simpl. repeat split; try done.
  intros Hs. destruct (Hfail Hs) as (msg & -> & evs & Ht). eauto.
Qed.

Lemma set_current_file_keeps name w :
  exists w', download_manager.set_current_file name w = (Ok tt, w')
    /\ fs w' = fs w /\ disk w' = disk w /\ config_manager w' = config_manager w
    /\ trace w' = trace w
    /\ DownloadManager._should_stop (download_manager w')
       = DownloadManager._should_stop (download_manager w)
    /\ DownloadManager._on_file_complete (download_manager w')
       = DownloadManager._on_file_complete (download_manager w)
    /\ DownloadManager._is_paused (download_manager w')
       = DownloadManager._is_paused (download_manager w).
Proof. eexists. split; [reflexivity|]. done. Qed.

(** What one turn of the worker comes to. *)
Lemma download_item_run env i file_state source_type download_path counts w :
  exists counts' file_state' w',
    download_manager.download_item env i file_state source_type
      download_path counts w = (Ok counts', w')
    /\ held source_type w'
       = Dict.set (held source_type w) (FileState.id file_state) file_state'
    /\ persisted source_type w' = Stored (held source_type w')
    /\ processed counts' = processed counts + 1
    /\ (FileState.status file_state' = "complete"
        /\ FileState.downloaded_at file_state' = Some (now env i)
        /\ FileState.local_path file_state' <> None
        /\ download_manager.error_count counts'
           = download_manager.error_count counts
        \/
        FileState.status file_state' = "error"
        /\ FileState.error_message file_state' <> None
        /\ download_manager.error_count counts'
           = download_manager.error_count counts + 1)
    /\ (forall s, String.eqb s "drive" <> String.eqb source_type "drive" ->
        held s w' = held s w)
    /\ DownloadManager._should_stop (download_manager w')
       = DownloadManager._should_stop (download_manager w)
    /\ DownloadManager._is_paused (download_manager w')
       = DownloadManager._is_paused (download_manager w).
Proof.
  unfold download_manager.download_item.
  destruct (set_current_file_keeps (Some (FileState.name file_state)) w)
    as (w1 & Hs & _ & Hd1 & Hc1 & _ & Hst & _ & Hpa).
  rewrite (bind_ok _ _ _ _ _ Hs).
  destruct (download_single_file_run env file_state source_type
              download_path w1)
    as (f' & success & skipped & w2 & Hr & Hsk & Hok & Hfail & Hc2 & Hd2 & Hm2).
  rewrite (bind_ok _ _ _ _ _ Hr).
  destruct success.
  - destruct (Hok eq_refl) as (p & ->).
    unfold gets, when, cm_put, held, persisted, processed, mbind, M_bind,
      mret, M_ret.
    destruct (DownloadManager._on_file_complete (download_manager w2));
      destruct (String.eqb source_type "drive") eqn:Esrc; simpl;
      destruct skipped; simpl;
      eexists _, _, _; (split; [reflexivity|]); simpl;
      rewrite ?Hc2, ?Hc1, ?Hm2, ?Hst, ?Hpa, ?Esrc;
      (split; [reflexivity|]); (split; [reflexivity|]);
      (split; [lia|]); (split; [left; done|]);
      (split; [|split; reflexivity]);
      intros s Hne; destruct (String.eqb s "drive"); done.
  - destruct (Hfail eq_refl) as (msg & -> & _).
    unfold gets, when, cm_put, held, persisted, processed, mbind, M_bind,
      mret, M_ret.
    destruct (String.eqb source_type "drive") eqn:Esrc; simpl;
      eexists _, _, _; (split; [reflexivity|]); simpl;
      rewrite ?Hc2, ?Hc1, ?Hm2, ?Hst, ?Hpa, ?Esrc;
      (split; [reflexivity|]); (split; [reflexivity|]);
      (split; [lia|]); (split; [right; done|]);
      (split; [|split; reflexivity]);
      intros s Hne; destruct (String.eqb s "drive"); done.
Qed.



(** *** The loop over the pending files *)

Lemma Dict_set_keys {V} (d : Dict.t V) k v :
  In k (map fst d) -> map fst (Dict.set d k v) = map fst d.
Proof.
  induction d as [|[k0 v0] d IH]; simpl; [done|].
  intros [->|Hin].
  - by rewrite String.eqb_refl.
  - destruct (String.eqb k0 k); simpl; [done|]. by rewrite IH.
Qed.

Lemma Dict_set_In {V} (d : Dict.t V) k v k' r :
  NoDup (map fst d) -> In (k', r) (Dict.set d k v) ->
  (k' = k /\ r = v) \/ (k' <> k /\ In (k', r) d).
Proof.
  induction d as [|[k0 v0] d IH]; simpl; intros Hnd Hin.
  - destruct Hin as [[= <- <-]|[]]. by left.
  - apply NoDup_cons in Hnd as [Hk0 Hnd].
    destruct (String.eqb_spec k0 k) as [->|Hne].
    + destruct Hin as [[= <- <-]|Hin]; [by left|].
      right. split; [|by right].
      intros ->. apply Hk0, list_elem_of_In.
      apply (in_map fst) in Hin. exact Hin.
    + destruct Hin as [[= <- <-]|Hin].
      * right. split; [done | by left].
      * destruct (IH Hnd Hin) as [?|[? ?]]; [by left|].
        right. split; [done | by right].
Qed.

Lemma held_ext s s' w :
  String.eqb s "drive" = String.eqb s' "drive" -> held s w = held s' w.
Proof. unfold held. by intros ->. Qed.

Lemma covered_step file_state source_type rest w w' file_state' :
  covered ((file_state, source_type) :: rest) w ->
  NoDup (map fst (held source_type w)) ->
  held source_type w'
  = Dict.set (held source_type w) (FileState.id file_state) file_state' ->
  FileState.status file_state' <> "pending" ->
  (forall s, String.eqb s "drive" <> String.eqb source_type "drive" ->
             held s w' = held s w) ->
  covered rest w'.
Proof.
  intros Hcov Hnd Hset Hst Hother source k r Hin Hp.
  destruct (bool_decide (String.eqb source "drive"
                         = String.eqb source_type "drive")) eqn:E.
  - apply bool_decide_eq_true in E.
    rewrite (held_ext _ _ _ E), Hset in Hin.
    apply Dict_set_In in Hin as [[-> ->]|[Hne Hin]]; [done | | done].
    rewrite <- (held_ext _ _ _ E) in Hin.
    destruct (Hcov _ _ _ Hin Hp) as (g & s & [[= <- <-]|Hg] & Hid & Hs);
      [done|]. eauto.
  - apply bool_decide_eq_false in E.
    rewrite (Hother _ E) in Hin.
    destruct (Hcov _ _ _ Hin Hp) as (g & s & [[= <- <-]|Hg] & Hid & Hs);
      [done|]. eauto.
Qed.

(** The pause test lets the worker through when the run is neither
    stopped nor paused and no other thread steps in. *)
Lemma wait_undisturbed env i w :
  pause_at env i = Undisturbed ->
  DownloadManager._should_stop (download_manager w) = false ->
  DownloadManager._is_paused (download_manager w) = false ->
  download_manager.wait_while_paused env i w
  = (Ok download_manager.GoOn, w).
Proof.
  intros Hp Hs Hpa. unfold download_manager.wait_while_paused.
  rewrite Hp. unfold gets, mbind, M_bind, mret, M_ret. simpl.
  by rewrite Hs, Hpa.
Qed.

Lemma unhindered_head env i n :
  unhindered env i (S n) ->
  stop_requested env i = false /\ pause_at env i = Undisturbed.
Proof. intros H. apply H. lia. Qed.

Lemma unhindered_tail env i n :
  unhindered env i (S n) -> unhindered env (S i) n.
Proof. intros H j Hj. apply H. lia. Qed.

(** The head of the loop, for an item the worker is let through to. *)
Lemma download_loop_cons env i file_state source_type rest download_path
    counts w :
  stop_requested env i = false -> pause_at env i = Undisturbed ->
  DownloadManager._should_stop (download_manager w) = false ->
  DownloadManager._is_paused (download_manager w) = false ->
  download_manager.download_loop env i ((file_state, source_type) :: rest)
    download_path counts w
  = (counts' ← download_manager.download_item env i file_state source_type
                 download_path counts;
     download_manager.download_loop env (S i) rest download_path counts') w.
Proof.
  intros Hst Hp Hss Hpa. simpl download_manager.download_loop.
  unfold gets at 1. unfold mbind at 1, M_bind at 1.
  rewrite Hss, Hst. change (false || false) with false. cbv iota.
  by rewrite (bind_ok _ _ _ _ _ (wait_undisturbed env i w Hp Hss Hpa)).
Qed.

(** A run of the loop that is neither stopped nor paused. *)
Lemma download_loop_run env download_path :
  forall pending_files i counts w,
    unhindered env i (length pending_files) ->
    DownloadManager._should_stop (download_manager w) = false ->
    DownloadManager._is_paused (download_manager w) = false ->
    (forall g s, In (g, s) pending_files ->
                 In (FileState.id g) (map fst (held s w))) ->
    (forall s, NoDup (map fst (held s w))) ->
    covered pending_files w ->
    exists counts' w',
      download_manager.download_loop env i pending_files download_path
        counts w = (Ok (Some counts'), w')
      /\ processed counts'
         = processed counts + Z.of_nat (length pending_files)
      /\ (forall s, map fst (held s w') = map fst (held s w))
      /\ covered [] w'.
Proof.
  intros pending_files.
  induction pending_files as [|[f src] rest IH];
    intros i counts w Hun Hss Hpa Hkeys Hnd Hcov.
  - exists counts, w. simpl. repeat split; try done. lia.
  - destruct (unhindered_head _ _ _ Hun) as [Hst Hp].
    rewrite (download_loop_cons _ _ _ _ _ _ _ _ Hst Hp Hss Hpa).
    destruct (download_item_run env i f src download_path counts w)
      as (c1 & f' & w1 & Hr & Hset & _ & Hn & Hst1 & Hother & Hss1 & Hpa1).
    rewrite (bind_ok _ _ _ _ _ Hr).
    assert (Hkeys1 : forall s, map fst (held s w1) = map fst (held s w)).
    { intros s.
      destruct (bool_decide (String.eqb s "drive" = String.eqb src "drive"))
        eqn:E.
      - apply bool_decide_eq_true in E.
        rewrite !(held_ext _ _ _ E), Hset. apply Dict_set_keys.
        apply (Hkeys f src). by left.
      - apply bool_decide_eq_false in E. by rewrite (Hother _ E). }
    destruct (IH (S i) c1 w1) as (c2 & w2 & Hr2 & Hn2 & Hk2 & Hc2).
    + by apply unhindered_tail.
    + congruence.
    + congruence.
    + intros g s Hg. rewrite Hkeys1. apply Hkeys. by right.
    + intros s. rewrite Hkeys1. apply Hnd.
    + eapply covered_step; eauto.
      destruct Hst1 as [(-> & _)|(-> & _)]; done.
    + exists c2, w2. split; [exact Hr2|]. split.
      * rewrite Hn2, Hn. simpl length. lia.
      * split; [|exact Hc2]. intros s. by rewrite Hk2, Hkeys1.
Qed.

Lemma cm_get_run {A} (f : Disk -> ConfigManager.t -> A * ConfigManager.t) w :
  cm_get f w
  = (Ok (fst (f (disk w) (config_manager w))),
     mkWorld (fs w) (disk w) (snd (f (disk w) (config_manager w)))
       (drive_client w) (photos_client w) (download_manager w) (trace w)).
Proof. unfold cm_get. by destruct (f (disk w) (config_manager w)). Qed.

(** X11.  The loop of the worker leaves at the first request to stop:
    when a stop is seen before the item at position [k] of the worklist,
    the run is the run over the first [k] items, and no later item is
    downloaded or written to the store. *)
Theorem download_loop_stops_at_request env download_path pending_files :
  forall k i counts w,
    stop_requested env (i + k) = true ->
    download_manager.download_loop env i pending_files download_path
      counts w
    = download_manager.download_loop env i (take k pending_files)
        download_path counts w.
Proof.
  induction pending_files as [|[f src] rest IH]; intros k i counts w Hstop.
  - by destruct k.
  - destruct k as [|k].
    + rewrite Nat.add_0_r in Hstop. simpl.
      unfold gets, mbind, M_bind. rewrite Hstop, orb_true_r. done.
    + simpl. unfold gets, mbind, M_bind.
      destruct (DownloadManager._should_stop (download_manager w)
                || stop_requested env i); [done|].
      destruct (download_manager.wait_while_paused env i w)
        as [[[| |]|e] w0]; try done.
      destruct (download_manager.download_item env i f src download_path
                  counts w0) as [[c1|e] w1]; [|done].
      apply IH. by replace (S i + k)%nat with (i + S k)%nat by lia.
Qed.

Lemma In_keys {V} (d : Dict.t V) k r : In (k, r) d -> In k (map fst d).
Proof. intros H. apply (in_map fst) in H. exact H. Qed.

Lemma pending_of_In state source g s :
  In (g, s) (download_manager.pending_of state source) ->
  s = source /\ exists k, In (k, g) state.
Proof.
  unfold download_manager.pending_of, Dict.items. intros H.
  apply in_map_iff in H as ([k r] & [= <- <-] & H).
  apply filter_In in H as [H _]. eauto.
Qed.

Lemma In_pending_of state source k r :
  In (k, r) state -> FileState.status r = "pending" ->
  In (r, source) (download_manager.pending_of state source).
Proof.
  intros Hin Hp. unfold download_manager.pending_of, Dict.items.
  apply in_map_iff. exists (k, r). split; [done|].
  apply filter_In. split; [done|]. simpl. by rewrite Hp.
Qed.

Lemma covered_no_pending w :
  covered [] w ->
  count_status "pending" (all_states (config_manager w)) = 0.
Proof.
  intros Hcov. unfold count_status, all_states.
  assert (H : forall source,
            List.filter
              (fun s => String.eqb (FileState.status s) "pending")
              (Dict.values (held source w)) = []).
  { intros source. unfold Dict.values.
    assert (Hall : forall k r, In (k, r) (held source w) ->
                     String.eqb (FileState.status r) "pending" = false).
    { intros k r Hin. destruct (String.eqb_spec (FileState.status r) "pending")
        as [Hp|]; [|done].
      destruct (Hcov _ _ _ Hin Hp) as (g & s & [] & _). }
    induction (held source w) as [|[k r] d IH]; simpl; [done|].
    rewrite (Hall k r) by by left.
    apply IH. intros k' r' Hin. apply (Hall k' r'). by right. }
  rewrite List.filter_app.
  pose proof (H "drive") as Hd. pose proof (H "photos") as Hp.
  unfold held in Hd, Hp. simpl in Hd, Hp. by rewrite Hd, Hp.
Qed.

Lemma download_loop_stops_at_request_witness :
  download_manager.download_loop Example.env_stop_at_second 0
    Example.two_pending Scenario.download_dir
    (download_manager.mkCounts 0 0 0) Scenario.world_pending
  = download_manager.download_loop Example.env_stop_at_second 0
      [(Scenario.clip_pending, "drive")] Scenario.download_dir
      (download_manager.mkCounts 0 0 0) Scenario.world_pending.
Proof.
  exact (download_loop_stops_at_request Example.env_stop_at_second
           Scenario.download_dir Example.two_pending 1 0
           (download_manager.mkCounts 0 0 0) Scenario.world_pending eq_refl).
Defined.

(** What the worker reads before it starts. *)
Lemma worker_reads env w :
  let w1 :=
    mkWorld (fs w) (disk w)
      (snd (ConfigManager.get_config (download_manager.default_dir env)
              (disk w) (config_manager w)))
      (drive_client w) (photos_client w) (download_manager w) (trace w) in
  let w2 :=
    mkWorld (fs w) (disk w)
      (snd (ConfigManager.get_drive_state (disk w1) (config_manager w1)))
      (drive_client w) (photos_client w) (download_manager w) (trace w) in
  let w3 :=
    mkWorld (fs w) (disk w)
      (snd (ConfigManager.get_photos_state (disk w2) (config_manager w2)))
      (drive_client w) (photos_client w) (download_manager w) (trace w) in
  fst (ConfigManager.get_drive_state (disk w1) (config_manager w1))
  = drive_of w
  /\ fst (ConfigManager.get_photos_state (disk w2) (config_manager w2))
     = photos_of w
  /\ ConfigManager._drive_state (config_manager w3) = drive_of w
  /\ ConfigManager._photos_state (config_manager w3) = photos_of w.
Proof.
  destruct w as [f [cf df pf tf] [cfg ds ps ts] dc pc dm tr].
  unfold drive_of, photos_of, ConfigManager.get_config,
    ConfigManager.get_drive_state, ConfigManager.get_photos_state.
  simpl. destruct cfg; simpl;
    destruct (Dict.is_empty ds) eqn:Ed; simpl;
    destruct (Dict.is_empty ps) eqn:Ep; simpl; rewrite ?Ed, ?Ep; done.
Qed.

(** What the worker has read when it starts. *)
Lemma loaded_run env w :
  (cm_get (ConfigManager.get_config (download_manager.default_dir env)) ;;
   cm_get ConfigManager.get_drive_state ;;
   cm_get ConfigManager.get_photos_state) w
  = (Ok (photos_of w), loaded env w)
  /\ fs (loaded env w) = fs w
  /\ disk (loaded env w) = disk w
  /\ drive_client (loaded env w) = drive_client w
  /\ photos_client (loaded env w) = photos_client w
  /\ download_manager (loaded env w) = download_manager w
  /\ trace (loaded env w) = trace w
  /\ ConfigManager._drive_state (config_manager (loaded env w)) = drive_of w
  /\ ConfigManager._photos_state (config_manager (loaded env w))
     = photos_of w.
Proof.
  unfold loaded.
  rewrite (bind_ok _ _ _ _ _ (cm_get_run _ w)).
  set (w1 := mkWorld _ _ _ _ _ _ _).
  rewrite (bind_ok _ _ _ _ _ (cm_get_run _ w1)).
  set (w2 := mkWorld _ _ _ _ _ _ _).
  rewrite cm_get_run.
  pose proof (worker_reads env w) as H. cbv zeta in H.
  destruct H as (_ & Hp & Hd3 & Hp3).
  subst w1 w2. simpl in *. rewrite Hp. repeat split; assumption.
Qed.

(** The worker, once it has read the configuration and the two
    collections. *)
Lemma download_worker_unfold env w folder :
  AppConfig.download_path (config_of env w) = VStr folder ->
  download_manager._download_worker env w
  = match worklist w with
    | [] =>
        (download_manager.set_is_downloading false ;;
         self ← gets download_manager;
         stats ← gets (fun w =>
                    ConfigManager.get_download_stats (config_manager w));
         when (DownloadManager._on_download_complete self)
              (emit (OnDownloadComplete stats)) ;;
         mret (Some tt)) (loaded env w)
    | _ =>
        (looped ← download_manager.download_loop env 0 (worklist w)
                    (Path.of_string folder)
                    (download_manager.mkCounts 0 0 0);
         match looped with
         | None => mret None
         | Some counts =>
             download_manager.set_current_file None ;;
             download_manager.set_is_downloading false ;;
             stats ← gets (fun w =>
                        ConfigManager.get_download_stats (config_manager w));
             emit (NotifyDownloadComplete
                     (download_manager.downloaded_count counts)
                     (download_manager.skipped_count counts)
                     (download_manager.error_count counts)) ;;
             self ← gets download_manager;
             when (DownloadManager._on_download_complete self)
                  (emit (OnDownloadComplete stats)) ;;
             mret (Some tt)
         end) (loop_start env w)
    end.
Proof.
  intros Hcfg. unfold download_manager._download_worker, loop_start, loaded.
  rewrite !(bind_ok _ _ _ _ _ (cm_get_run _ w)).
  fold (config_of env w). rewrite Hcfg.
  match goal with
  | |- context [(mret ?p ≫= ?f) ?w0] =>
      change ((mret p ≫= f) w0) with (f p w0)
  end.
  cbv beta.
  set (w1 := mkWorld _ _ _ _ _ _ _).
  rewrite !(bind_ok _ _ _ _ _ (cm_get_run _ w1)).
  set (w2 := mkWorld _ _ _ _ _ _ _).
  rewrite !(bind_ok _ _ _ _ _ (cm_get_run _ w2)).
  rewrite !cm_get_run.
  pose proof (worker_reads env w) as H. cbv zeta in H.
  destruct H as (Hd & Hp & _).
  assert (Hd' : fst (ConfigManager.get_drive_state (disk w)
                       (config_manager w1)) = drive_of w) by exact Hd.
  assert (Hp' : fst (ConfigManager.get_photos_state (disk w)
                       (config_manager w2)) = photos_of w) by exact Hp.
  change (disk w1) with (disk w). change (disk w2) with (disk w).
  rewrite Hd', Hp'. fold (worklist w).
  destruct (worklist w) as [|p rest] eqn:E; [reflexivity|].
  rewrite <- E. simpl snd.
  by rewrite (bind_ok _ _ _ _ _ (emit_run _ _)).
Qed.

(** What the worker does once the loop is over. *)
Lemma worker_tail_run counts w :
  exists w',
    (download_manager.set_current_file None ;;
     download_manager.set_is_downloading false ;;
     stats ← gets (fun w =>
                ConfigManager.get_download_stats (config_manager w));
     emit (NotifyDownloadComplete
             (download_manager.downloaded_count counts)
             (download_manager.skipped_count counts)
             (download_manager.error_count counts)) ;;
     self ← gets download_manager;
     when (DownloadManager._on_download_complete self)
          (emit (OnDownloadComplete stats)) ;;
     mret (Some tt)) w = (Ok (Some tt), w')
    /\ DownloadManager._is_downloading (download_manager w') = false
    /\ config_manager w' = config_manager w
    /\ fs w' = fs w /\ disk w' = disk w
    /\ trace w'
       = trace w
         ++ NotifyDownloadComplete
              (download_manager.downloaded_count counts)
              (download_manager.skipped_count counts)
              (download_manager.error_count counts)
            :: (if DownloadManager._on_download_complete (download_manager w)
                then [OnDownloadComplete
                        (ConfigManager.get_download_stats
                           (config_manager w))]
                else []).
Proof.
  unfold download_manager.set_current_file,
    download_manager.set_is_downloading, gets, when, emit, modify,
    set_download_manager, mbind, M_bind, mret, M_ret.
  simpl.
  destruct (DownloadManager._on_download_complete (download_manager w));
    eexists; (split; [reflexivity|]); simpl; repeat split;
    by rewrite <- ?app_assoc.
Qed.









(** X12.  A run of the worker that is neither asked to stop nor paused
    leaves nothing pending.  With a download folder configured, and the
    two collections keyed by id, the worker returns, is no longer
    downloading, and the statistics then show no pending record and as
    many records as before. *)
Theorem download_worker_leaves_nothing_pending env w folder :
  AppConfig.download_path (config_of env w) = VStr folder ->
  (forall n, stop_requested env n = false) ->
  (forall n, pause_at env n = Undisturbed) ->
  DownloadManager._should_stop (download_manager w) = false ->
  DownloadManager._is_paused (download_manager w) = false ->
  keyed_by_id (drive_of w) -> keyed_by_id (photos_of w) ->
  let run := download_manager._download_worker env w in
  let stats := ConfigManager.get_download_stats (config_manager (snd run)) in
  fst run = Ok (Some tt)
  /\ DownloadManager._is_downloading (download_manager (snd run)) = false
  /\ DownloadStats.pending stats = 0
  /\ DownloadStats.total stats
     = Z.of_nat (length (drive_of w) + length (photos_of w)).
Proof.
  intros Hcfg Hstop Hpause Hss Hpa [Hnd_d Hk_d] [Hnd_p Hk_p]. cbv zeta.
  rewrite (download_worker_unfold env w folder Hcfg).
  destruct (loaded_run env w)
    as (_ & _ & _ & _ & _ & Hm3 & _ & Hd3 & Hp3).
  set (w3 := loaded env w) in *.
  assert (Hheld : forall s,
            held s w3
            = if String.eqb s "drive" then drive_of w else photos_of w).
  { intros s. unfold held. by rewrite Hd3, Hp3. }
  assert (Hcov : covered (worklist w) w3).
  { intros source k r Hin Hp. rewrite Hheld in Hin. unfold worklist.
    rewrite Forall_forall in Hk_d, Hk_p.
    destruct (String.eqb source "drive") eqn:E.
    - exists r, "drive". split.
      + apply in_or_app. left. eapply In_pending_of; eauto.
      + split; [|done]. symmetry.
        apply (Hk_d (k, r)). by apply list_elem_of_In.
    - exists r, "photos". split.
      + apply in_or_app. right. eapply In_pending_of; eauto.
      + split; [|done]. symmetry.
        apply (Hk_p (k, r)). by apply list_elem_of_In. }
  assert (Hkeys : forall g s, In (g, s) (worklist w) ->
                    In (FileState.id g) (map fst (held s w3))).
  { intros g s Hin. unfold worklist in Hin. rewrite Hheld.
    rewrite Forall_forall in Hk_d, Hk_p.
    apply in_app_or in Hin as [Hin|Hin];
      apply pending_of_In in Hin as (-> & k & Hin); simpl.
    - assert (Hk : k = FileState.id g)
        by (apply (Hk_d (k, g)); by apply list_elem_of_In).
      rewrite <- Hk. eapply In_keys; eauto.
    - assert (Hk : k = FileState.id g)
        by (apply (Hk_p (k, g)); by apply list_elem_of_In).
      rewrite <- Hk. eapply In_keys; eauto. }
  assert (Hnd : forall s, NoDup (map fst (held s w3))).
  { intros s. rewrite Hheld. by destruct (String.eqb s "drive"). }
  match goal with
  | |- fst ?r = _ /\ _ =>
      assert (Hrun : exists w',
                r = (Ok (Some tt), w')
                /\ DownloadManager._is_downloading (download_manager w')
                   = false
                /\ covered [] w'
                /\ forall s, map fst (held s w') = map fst (held s w3))
  end.
  { unfold loop_start. fold w3.
    destruct (worklist w) as [|p rest] eqn:Ew.
    - unfold download_manager.set_is_downloading, gets, when, emit, modify,
        set_download_manager, mbind, M_bind, mret, M_ret.
      destruct (DownloadManager._on_download_complete (download_manager w3));
        eexists; (split; [reflexivity|]); by repeat split.
    - set (w4 := snd (emit _ w3)).
      destruct (download_loop_run env (Path.of_string folder)
                  (p :: rest) 0%nat (download_manager.mkCounts 0 0 0) w4)
        as (c' & w5 & Hr & _ & Hk5 & Hc5).
      + intros j _. split; [apply Hstop | apply Hpause].
      + subst w4. simpl. by rewrite Hm3.
      + subst w4. simpl. by rewrite Hm3.
      + exact Hkeys.
      + exact Hnd.
      + exact Hcov.
      + rewrite (bind_ok _ _ _ _ _ Hr).
        destruct (worker_tail_run c' w5) as (w6 & Ht & Hdl & Hc6 & _).
        rewrite Ht. exists w6. split; [done|]. split; [done|].
        split.
        * intros source k r. unfold held. rewrite Hc6. apply Hc5.
        * intros s. unfold held. rewrite Hc6. apply Hk5. }
  destruct Hrun as (w' & -> & Hdl & Hc' & Hk').
  simpl fst. simpl snd. split; [done|]. split; [done|].
  pose proof (fold_count_state_fields
                (ConfigManager._transcription_state (config_manager w'))
                (all_states (config_manager w')) DownloadStats.new)
    as Hstats.
  cbv zeta in Hstats. destruct Hstats as (Ht & _ & Hp & _).
  unfold ConfigManager.get_download_stats. fold (all_states (config_manager w')).
  rewrite Ht, Hp, (covered_no_pending _ Hc'). split; [done|].
  simpl. f_equal. unfold all_states, Dict.values.
  rewrite length_app, !length_map.
  pose proof (Hk' "drive") as H1. pose proof (Hk' "photos") as H2.
  apply (f_equal (@length _)) in H1, H2. rewrite !length_map in H1, H2.
  rewrite !Hheld in H1, H2. simpl in H1, H2.
  unfold held in H1, H2. simpl in H1, H2. lia.
Qed.

Lemma download_worker_leaves_nothing_pending_witness :
  let run :=
    download_manager._download_worker Scenario.env0 Scenario.world_pending in
  let stats := ConfigManager.get_download_stats (config_manager (snd run)) in
  fst run = Ok (Some tt)
  /\ DownloadManager._is_downloading (download_manager (snd run)) = false
  /\ DownloadStats.pending stats = 0
  /\ DownloadStats.total stats = 1.
Proof.
  refine (download_worker_leaves_nothing_pending Scenario.env0
            Scenario.world_pending "C:\dl" eq_refl (fun _ => eq_refl)
            (fun _ => eq_refl) eq_refl eq_refl _ _).
  - split; [|repeat constructor].
    apply NoDup_cons. split; [apply not_elem_of_nil | apply NoDup_nil_2].
  - split; [apply NoDup_nil_2 | constructor].
Defined.

(** ** A file that is already on disk, in a run of the worker *)







(** ** The Photos adapter: outcomes of a download *)

(** [_get_service] of the Photos adapter: it returns with a handle cached,
    or it raises and leaves the world as it is: without credentials, or
    when building the service fails. *)
Lemma photos_get_service_spec env w :
  (photos_client._get_service env w
   = (Ok tt, mkWorld (fs w) (disk w) (config_manager w) (drive_client w)
               (PhotosClient.mk true
                  (PhotosClient._should_stop (photos_client w)))
               (download_manager w) (trace w))
   /\ (PhotosClient._service (photos_client w) = true
       \/ (is_authenticated env = true /\ photos_build env = None)))
  \/ (exists e,
        photos_client._get_service env w = (Raise e, w)
        /\ PhotosClient._service (photos_client w) = false
        /\ (is_authenticated env = false
            /\ e = RuntimeError "Not authenticated with Google"
            \/ is_authenticated env = true /\ photos_build env = Some e)).
Proof.
  unfold photos_client._get_service, gets, set_photos_client, modify, raise,
    mbind, M_bind, mret, M_ret.
  destruct w as [f d c dc [sv st] dm tr]; simpl.
  destruct sv; simpl; [left; auto|].
  destruct (is_authenticated env); [|right; eauto 6].
  destruct (photos_build env) as [e|]; [right; eauto 6 | left; auto].
Qed.

(** The guarded part of [download_video]. *)
Lemma download_video_body_spec env media_item_id destination cb w b w' :
  (base_url ← lift_result (photos_get env media_item_id);
   if negb (truthy (from_option VStr VNone base_url)) then
     emit (LogError ("No base URL for media item " +:+ media_item_id)) ;;
     mret false
   else
     let download_url := default "" base_url +:+ "=dv" in
     if negb (truthy (from_option VStr VNone
                        (photos_client.get_access_token env))) then
       emit (LogError "No access token available") ;;
       mret false
     else
       fs_do (fun fs => FS.mkdir fs (Path.parent destination)) ;;
       body ← lift_result (photos_download env download_url);
       write_chunks destination body cb ;;
       empty ← is_empty_file destination;
       if empty : bool then
         emit (LogWarning ("Downloaded video is empty, removing: "
                           +:+ Path.str destination)) ;;
         fs_do (fun fs => FS.unlink (unlink_refused env) fs destination) ;;
         mret false
       else mret true) w = (Ok b, w') ->
  if b then
    exists t, photos_transfer_of env media_item_id = Some t
              /\ delivers t = true
              /\ FS.is_file (fs w') destination = true
  else fs w' = fs w \/ FS.is_file (fs w') destination = false.
Proof.
  intros H. unfold photos_transfer_of.
  apply bind_inv in H as [(e & _ & [=])|(base_url & w1 & Hg & H)].
  unfold lift_result in Hg. inversion Hg; subst w1. rewrite H1.
  destruct base_url as [u|]; simpl in H;
    [|inversion H; subst; by left].
  destruct (negb (String.eqb u "")); simpl in H;
    [|inversion H; subst; by left].
  destruct (photos_client.get_access_token env) as [tok|]; simpl in H;
    [|inversion H; subst; by left].
  destruct (negb (String.eqb tok "")); simpl in H;
    [|inversion H; subst; by left].
  apply bind_inv in H as [(e & _ & [=])|([] & w2 & _ & H)].
  apply bind_inv in H as [(e & _ & [=])|(t & w3 & Hd & H)].
  unfold lift_result in Hd. inversion Hd; subst w3. rewrite H2.
  apply bind_inv in H as [(e & _ & [=])|([] & w4 & Hw & H)].
  apply write_chunks_ok in Hw as (progress & nbytes & -> & Hl).
  destruct (validate_spec _ _ _ _ _ _ _ Hl H)
    as [([= ->] & Hn & ->)|[[[= ->] Hf]|(e & [=] & _)]].
  - exists (Finished progress nbytes). simpl. rewrite Hn.
    repeat split. unfold FS.is_file. by rewrite Hl.
  - by right.
Qed.

(** X13.  A call of [download_video] made with a service handle at hand
    (cached, or credentials with which the service can be built) returns
    a boolean, it does not raise.  When it answers [True] the item had a
    base URL, there was an access token, the transfer has delivered and
    the file is at the destination.  When it answers [False], either
    nothing was touched on disk (no base URL, or no token), or no regular
    file is left at the destination, provided the system does not refuse
    to remove a file there: the handler swallows a failure of [unlink]. *)
Theorem download_video_outcomes env media_item_id destination cb w :
  PhotosClient._service (photos_client w) = true
  \/ (is_authenticated env = true /\ photos_build env = None) ->
  let run := photos_client.download_video env media_item_id destination
               cb w in
  (exists b, fst run = Ok b)
  /\ (fst run = Ok true ->
      exists t, photos_transfer_of env media_item_id = Some t
                /\ delivers t = true
                /\ FS.is_file (fs (snd run)) destination = true)
  /\ (fst run = Ok false ->
      unlink_refused env (Path.str destination) = false ->
      fs (snd run) = fs w
      \/ FS.is_file (fs (snd run)) destination = false).
Proof.
  intros Hav. cbv zeta. unfold photos_client.download_video.
  rewrite (bind_ok _ _ _ _ _ (emit_run _ w)).
  match goal with |- context [(photos_client._get_service env ≫= _) ?w0] =>
    destruct (photos_get_service_spec env w0)
      as [[Hs _]|(e0 & _ & Hno & Hwhy)] end.
  2: { simpl in Hno.
       destruct Hav as [?|[Ha Hb]]; [congruence|].
       destruct Hwhy as [[? _]|[_ ?]]; congruence. }
  rewrite (bind_ok _ _ _ _ _ Hs).
  match goal with |- context [try_except ?m ?h ?w1] =>
    destruct (try_except m h w1) as [r w'] eqn:Hrun end.
  simpl fst; simpl snd.
  apply try_except_inv in Hrun as [(b & Hb & ->)|(e & w2 & _ & Hh)].
  - apply download_video_body_spec in Hb.
    split; [eauto|]. split; [intros [= ->]; exact Hb|].
    intros [= ->] _. exact Hb.
  - destruct (handler_spec env
                (LogError ("Error downloading video: " +:+ exn_str e))
                destination w2) as (w3 & Hr & Hf).
    rewrite Hr in Hh. inversion Hh; subst.
    split; [eauto|]. split; [discriminate|]. intros _ Hu. right. auto.
Qed.

Lemma download_video_outcomes_witness :
  let run := photos_client.download_video Scenario.env0 "p1"
               (Path.of_string "C:\dl\Videos\Photos\beach.mp4") None
               Scenario.world0 in
  fst run = Ok true
  /\ FS.is_file (fs (snd run))
       (Path.of_string "C:\dl\Videos\Photos\beach.mp4") = true.
Proof.
  destruct (download_video_outcomes Scenario.env0 "p1"
              (Path.of_string "C:\dl\Videos\Photos\beach.mp4") None
              Scenario.world0 (or_intror (conj eq_refl eq_refl)))
    as (_ & Ht & _).
  assert (Hrun : fst (photos_client.download_video Scenario.env0 "p1"
                        (Path.of_string "C:\dl\Videos\Photos\beach.mp4")
                        None Scenario.world0) = Ok true)
    by (vm_compute; reflexivity).
  split; [exact Hrun|].
  destruct (Ht Hrun) as (t & _ & _ & Hf). exact Hf.
Defined.

(** ** The listings *)


Lemma photos_list_pages_run ps : forall videos w,
  photos_client.list_pages ps videos w
  = (match pages_items ps with
     | Ok items => Ok (videos ++ map photos_client.file_of_item items)
     | Raise e => Raise e
     end, w).
Proof.
  induction ps as [items|items rest IH|e]; intros videos w; simpl; try done.
  rewrite IH. destruct (pages_items rest); [|done].
  by rewrite map_app, app_assoc.
Qed.



(** X15.  The Photos listing is all or nothing as well: with a service
    handle at hand (cached, or credentials with which the service can be
    built) it returns one record per video of the library, in the order of
    the pages, or raises the failure of the first page that is refused.  Each record is pending, of source "photos" and of size
    0; it carries the item's file name and MIME type, or "video_"
    followed by the first eight characters of the id, and "video/mp4",
    where the item has none. *)
Theorem list_photos_all_or_nothing env w :
  PhotosClient._service (photos_client w) = true
  \/ (is_authenticated env = true /\ photos_build env = None) ->
  let run := photos_client.list_all_videos env w in
  fst run = listed photos_client.file_of_item (photos_search env)
  /\ (forall files, fst run = Ok files ->
      Forall (fun f => FileState.status f = "pending"
                       /\ FileState.source f = "photos"
                       /\ FileState.size f = 0
                       /\ FileState.local_path f = None) files)
  /\ fs (snd run) = fs w
  /\ disk (snd run) = disk w
  /\ config_manager (snd run) = config_manager w.
Proof.
  intros Hav. cbv zeta. unfold photos_client.list_all_videos.
  destruct (photos_get_service_spec env w)
    as [[Hs _]|(e0 & _ & Hno & Hwhy)].
  2: { destruct Hav as [?|[Ha Hb]]; [congruence|].
       destruct Hwhy as [[? _]|[_ ?]]; congruence. }
  rewrite (bind_ok _ _ _ _ _ Hs).
  unfold try_except. rewrite photos_list_pages_run. unfold listed.
  destruct (pages_items (photos_search env)) as [items|e].
  - simpl. repeat split; try done.
    intros files [= <-]. apply Forall_forall. intros f Hf.
    apply list_elem_of_In, in_map_iff in Hf as (item & <- & _). done.
  - destruct e; simpl; repeat split; try done.
Qed.

Lemma list_photos_all_or_nothing_witness :
  fst (photos_client.list_all_videos Example.env_two_photo_pages
         Scenario.world0)
  = Ok [FileState.new "p1" "beach.mp4" "photos" "video/mp4" 0 "pending";
        FileState.new "AF1QipNxyz987" "video_AF1QipNx" "photos" "video/mp4"
          0 "pending"].
Proof.
  destruct (list_photos_all_or_nothing Example.env_two_photo_pages
              Scenario.world0 (or_intror (conj eq_refl eq_refl)))
    as [Hq _].
  exact Hq.
Defined.

(** ** Transcripts *)

(** Evaluates the denominators of a goal. *)
Ltac norm_pos :=
  repeat match goal with
         | |- context [Z.pos (?a * ?b)] =>
             let v := eval vm_compute in (Z.pos (a * b)) in
             change (Z.pos (a * b)) with v
         end.

Ltac unfold_time :=
  unfold transcription.int, transcription.mod_, transcription.floordiv,
    Qfloor, Qdiv, Qmult, Qinv, Qminus, Qplus, Qopp, inject_Z;
  simpl; norm_pos.

Lemma timestamp_hours (k : Z) :
  0 <= k ->
  transcription.int (transcription.floordiv (k # 1024) (3600 # 1))
  = k * 1000 / 1024 / 3600000.
Proof.
  intros Hk. unfold_time. rewrite Z.quot_1_r, !Z.mul_1_r.
  Z.div_mod_to_equations; lia.
Qed.

Lemma timestamp_minutes (k : Z) :
  0 <= k ->
  transcription.int
    (transcription.floordiv (transcription.mod_ (k # 1024) (3600 # 1))
       (60 # 1))
  = k * 1000 / 1024 / 60000 mod 60.
Proof.
  intros Hk. unfold_time. rewrite Z.quot_1_r, !Z.mul_1_r.
  Z.div_mod_to_equations; lia.
Qed.

Lemma timestamp_secs (k : Z) :
  0 <= k ->
  transcription.int (transcription.mod_ (k # 1024) (60 # 1))
  = k * 1000 / 1024 / 1000 mod 60.
Proof.
  intros Hk. unfold_time. rewrite !Z.mul_1_r.
  rewrite Z.quot_div_nonneg by (Z.div_mod_to_equations; lia).
  Z.div_mod_to_equations; lia.
Qed.

Lemma timestamp_millis (k : Z) :
  0 <= k ->
  transcription.int
    (transcription.mod_ (k # 1024) (1 # 1) * (1000 # 1))%Q
  = (k * 1000 / 1024) mod 1000.
Proof.
  intros Hk. unfold_time. rewrite !Z.mul_1_r.
  rewrite Z.quot_div_nonneg by (Z.div_mod_to_equations; lia).
  Z.div_mod_to_equations; lia.
Qed.

(** X16.  A timestamp shows the time cut to whole milliseconds, as
    hours, minutes, seconds and milliseconds: minutes and seconds below
    60, milliseconds below 1000, the hours not wrapped at a day.  The
    two formats differ in the separator before the milliseconds only.
    (Stated for the times that are multiples of 1/1024 second, on which
    the floating point operations of the source are exact.) *)
Theorem format_timestamp_truncates (k : Z) :
  0 <= k < 2 ^ 42 ->
  let ms := k * 1000 / 1024 in
  transcription._format_timestamp_srt (k # 1024) = clock "," ms
  /\ transcription._format_timestamp_vtt (k # 1024) = clock "." ms.
Proof.
  intros [Hk _]. cbv zeta.
  unfold transcription._format_timestamp_srt,
    transcription._format_timestamp_vtt, clock.
  rewrite (timestamp_hours k Hk), (timestamp_minutes k Hk),
    (timestamp_secs k Hk), (timestamp_millis k Hk).
  done.
Qed.

Lemma format_timestamp_truncates_witness :
  transcription._format_timestamp_srt (3813888 # 1024) = "01:02:04,500"
  /\ transcription._format_timestamp_vtt (3813888 # 1024) = "01:02:04.500".
Proof.
  assert (Hk : 0 <= 3813888 < 2 ^ 42) by (split; [lia | reflexivity]).
  exact (format_timestamp_truncates 3813888 Hk).
Defined.

Lemma append_empty_r (a : string) : a +:+ "" = a.
Proof. induction a as [|x a IH]; [done|]. by rewrite append_cons, IH. Qed.

Lemma write_txt_from segments : forall out,
  fold_left
    (fun out segment =>
       out +:+ PyStr.strip (transcription.text segment)
       +:+ transcription.newline)
    segments out
  = out +:+ pieces (map txt_line segments).
Proof.
  induction segments as [|s segments IH]; intros out; simpl.
  - by rewrite append_empty_r.
  - rewrite IH. unfold txt_line. by rewrite !append_assoc.
Qed.

Lemma write_srt_from_blocks segments : forall i out,
  transcription.write_srt_from i segments out
  = out +:+ pieces (imap (fun j s => srt_block (i + Z.of_nat j) s) segments).
Proof.
  induction segments as [|s segments IH]; intros i out; simpl.
  - by rewrite append_empty_r.
  - rewrite IH. unfold srt_block at 2, cue. rewrite Z.add_0_r.
    rewrite !append_assoc. do 11 f_equal.
    apply imap_ext. intros j x _. simpl. f_equal. lia.
Qed.

Lemma write_vtt_from segments : forall out,
  fold_left
    (fun out segment =>
       let start :=
         transcription._format_timestamp_vtt (transcription.start segment) in
       let end_ :=
         transcription._format_timestamp_vtt (transcription.end_ segment) in
       let out :=
         out +:+ start +:+ " --> " +:+ end_ +:+ transcription.newline in
       out +:+ PyStr.strip (transcription.text segment)
       +:+ transcription.newline +:+ transcription.newline)
    segments out
  = out
    +:+ pieces (map (cue transcription._format_timestamp_vtt) segments).
Proof.
  induction segments as [|s segments IH]; intros out; simpl.
  - by rewrite append_empty_r.
  - rewrite IH. unfold cue. by rewrite !append_assoc.
Qed.

(** X17.  The writers put out one piece per segment, in order, each made
    from its segment alone: a line of text; a cue under its number,
    where the numbers run from 1 without a gap; a cue after the header
    "WEBVTT".  An empty transcription gives an empty text and SRT file,
    and a VTT file with the header only.  (Stated for segments whose
    times are multiples of 1/1024 second, on which the floating point
    operations of the source are exact.) *)
Theorem writers_write_piecewise (segments : list transcription.Segment) :
  exactly_timed segments ->
  transcription._write_txt segments = pieces (map txt_line segments)
  /\ transcription._write_srt segments
     = pieces (imap (fun j s => srt_block (Z.of_nat j + 1) s) segments)
  /\ transcription._write_vtt segments
     = "WEBVTT" +:+ transcription.newline +:+ transcription.newline
       +:+ pieces (map (cue transcription._format_timestamp_vtt) segments).
Proof.
  intros _.
  unfold transcription._write_txt, transcription._write_srt,
    transcription._write_vtt.
  rewrite write_txt_from, write_srt_from_blocks, write_vtt_from.
  split; [done|]. split; [|by rewrite !append_assoc].
  change ("" +:+ ?x) with x. f_equal.
  apply imap_ext. intros j x _. simpl. f_equal. lia.
Qed.

(** The two segments "hello" (0 to 1.5 s) and "world" (1.5 to 3 s). *)
Lemma writers_write_piecewise_witness :
  transcription._write_txt Scenario.two_segments
  = pieces (map txt_line Scenario.two_segments)
  /\ transcription._write_srt Scenario.two_segments
     = pieces (imap (fun j s => srt_block (Z.of_nat j + 1) s)
                 Scenario.two_segments)
  /\ transcription._write_vtt Scenario.two_segments
     = "WEBVTT" +:+ transcription.newline +:+ transcription.newline
       +:+ pieces (map (cue transcription._format_timestamp_vtt)
                     Scenario.two_segments).
Proof.
  apply writers_write_piecewise.
  assert (H0 : exact_time 0).
  { exists 0. split; [split; [lia | reflexivity] | reflexivity]. }
  assert (H1 : exact_time (3 # 2)).
  { exists 1536. split; [split; [lia | reflexivity] | reflexivity]. }
  assert (H3 : exact_time 3).
  { exists 3072. split; [split; [lia | reflexivity] | reflexivity]. }
  repeat constructor; assumption.
Defined.

(** ** Videos pending transcription *)

Lemma pending_in_excludes transcription_state state p t :
  Dict.get transcription_state p = Some t ->
  TranscriptionState.status t <> "pending" ->
  ~ In p (TranscriptionManager.pending_in transcription_state state).
Proof.
  intros Hg Hs Hin. unfold TranscriptionManager.pending_in in Hin.
  apply in_flat_map in Hin as (f & _ & Hin).
  destruct (_ && _); [|done].
  destruct (FileState.local_path f) as [q|]; [|done].
  destruct (truthy (VStr q)); [|done].
  destruct (Dict.get transcription_state q) as [t'|] eqn:Hq.
  - destruct (String.eqb_spec (TranscriptionState.status t') "pending")
      as [Hp|]; [|done].
    destruct Hin as [->|[]]. congruence.
  - destruct Hin as [->|[]]. congruence.
Qed.

Lemma get_pending_videos_run w :
  fst (TranscriptionManager.get_pending_videos w)
  = Ok (TranscriptionManager.pending_in (transcription_of w) (drive_of w)
        ++ TranscriptionManager.pending_in (transcription_of w)
             (photos_of w)).
Proof.
  destruct w as [f [cf df pf tf] [cfg ds ps ts] dc pc dm tr].
  unfold TranscriptionManager.get_pending_videos, cm_get, mbind, M_bind,
    mret, M_ret, transcription_of, drive_of, photos_of,
    ConfigManager.get_transcription_state, ConfigManager.get_drive_state,
    ConfigManager.get_photos_state.
  simpl.
  destruct (Dict.is_empty ts); simpl; destruct (Dict.is_empty ds); simpl;
    destruct (Dict.is_empty ps); reflexivity.
Qed.

Lemma store_scanned_keeps_transcription acc w :
  transcription_of (snd (download_manager.store_scanned acc w))
  = transcription_of w.
Proof.
  destruct w as [f [cf df pf tf] [cfg ds ps ts] dc pc dm tr].
  unfold download_manager.store_scanned, cm_get, cm_put, modify, gets,
    mbind, M_bind, transcription_of, ConfigManager.get_drive_state,
    ConfigManager.get_photos_state, ConfigManager.get_transcription_state.
  simpl.
  destruct (Dict.is_empty ds); simpl; destruct (Dict.is_empty ps); simpl;
    destruct (Dict.is_empty ts); reflexivity.
Qed.

Lemma scan_sources_keeps_transcription env progress_callback w :
  transcription_of (snd (download_manager.scan_sources env progress_callback w))
  = transcription_of w.
Proof.
  destruct (is_authenticated env) eqn:Ha.
  - rewrite (scan_sources_signed_in _ _ _ Ha).
    set (w1 := mkWorld _ _ _ _ _ _ _).
    assert (H1 : transcription_of w1 = transcription_of w).
    { subst w1. unfold transcription_of, ConfigManager.get_config,
        ConfigManager.get_transcription_state. simpl.
      destruct (ConfigManager._config (config_manager w)); simpl;
        by destruct (Dict.is_empty _). }
    destruct (run_scans_spec env (config_of env w) progress_callback w1)
      as (acc & w2 & Hr & Hc & Hd & _).
    rewrite (bind_ok _ _ _ _ _ Hr), store_scanned_keeps_transcription.
    rewrite <- H1. unfold transcription_of. by rewrite Hc, Hd.
  - by rewrite (scan_sources_signed_out _ _ _ Ha).
Qed.

(** X18.  A video whose transcription record has a status other than
    "pending" (it is being transcribed, is transcribed, or has failed) is
    not among the videos [get_pending_videos] returns, whatever its file
    record says.  This still holds after any scan, although a rescan
    puts the transcription status of the file record back to
    "pending". *)
Theorem get_pending_videos_skips_transcribed env progress_callback w p t :
  Dict.get (transcription_of w) p = Some t ->
  TranscriptionState.status t <> "pending" ->
  let w' := snd (download_manager.scan_sources env progress_callback w) in
  (exists videos,
     fst (TranscriptionManager.get_pending_videos w) = Ok videos
     /\ ~ In p videos)
  /\ (exists videos,
        fst (TranscriptionManager.get_pending_videos w') = Ok videos
        /\ ~ In p videos).
Proof.
  intros Hg Hs. cbv zeta. split.
  - eexists. split; [apply get_pending_videos_run|].
    intros Hin. apply in_app_or in Hin as [Hin|Hin];
      by eapply pending_in_excludes.
  - eexists. split; [apply get_pending_videos_run|].
    rewrite scan_sources_keeps_transcription.
    intros Hin. apply in_app_or in Hin as [Hin|Hin];
      by eapply pending_in_excludes.
Qed.

Lemma get_pending_videos_skips_transcribed_witness :
  exists videos,
    fst (TranscriptionManager.get_pending_videos
           (snd (download_manager.scan_sources Scenario.env_rescan false
                   Scenario.world_rescan)))
    = Ok videos
    /\ ~ In Scenario.clip_path videos.
Proof.
  assert (Hs : TranscriptionState.status Scenario.clip_transcribed
               <> "pending") by discriminate.
  exact (proj2 (get_pending_videos_skips_transcribed Scenario.env_rescan
                  false Scenario.world_rescan Scenario.clip_path
                  Scenario.clip_transcribed eq_refl Hs)).
Defined.

(** ** The transcription of one video *)

Lemma load_model_run tools model_name w :
  TranscriptionManager._load_model tools model_name w
  = (Ok (fst (TranscriptionManager.load_model tools model_name (fs w))),
     mkWorld (snd (TranscriptionManager.load_model tools model_name (fs w)))
       (disk w) (config_manager w) (drive_client w) (photos_client w)
       (download_manager w) (trace w)).
Proof.
  unfold TranscriptionManager._load_model.
  by destruct (TranscriptionManager.load_model tools model_name (fs w)).
Qed.

Lemma gets_bind {A B} (f : World -> A) (k : A -> M B) w :
  (gets f ≫= k) w = k (f w) w.
Proof. reflexivity. Qed.

Lemma lift_ok_bind {A B} (a : A) (k : A -> M B) w :
  (lift_result (Ok a) ≫= k) w = k a w.
Proof. reflexivity. Qed.



Lemma with_suffix_endswith p sfx q :
  Path.with_suffix p sfx = Ok q -> PyStr.endswith (Path.str q) sfx = true.
Proof.
  unfold Path.with_suffix. intros H.
  destruct (_ || _); [discriminate|].
  destruct (_ || _); [discriminate|].
  destruct (String.eqb (Path.name p) ""); [discriminate|].
  destruct (String.eqb (Path.suffix p) ""); inversion H;
    apply str_ends_with_last.
Qed.

Lemma endswith_length s suf :
  PyStr.endswith s suf = true -> (String.length suf <= String.length s)%nat.
Proof.
  induction s as [|x s IH]; cbn [PyStr.endswith]; intros H.
  - rewrite orb_false_r in H. apply String.eqb_eq in H as <-. done.
  - apply orb_true_iff in H as [H|H].
    + apply String.eqb_eq in H as <-. done.
    + specialize (IH H). simpl. lia.
Qed.

Lemma endswith_same_length s a b :
  PyStr.endswith s a = true -> PyStr.endswith s b = true ->
  String.length a = String.length b -> a = b.
Proof.
  induction s as [|x s IH]; cbn [PyStr.endswith]; intros Ha Hb Hl.
  - rewrite orb_false_r in Ha, Hb.
    apply String.eqb_eq in Ha, Hb. congruence.
  - apply orb_true_iff in Ha as [Ha|Ha], Hb as [Hb|Hb].
    + apply String.eqb_eq in Ha, Hb. congruence.
    + apply String.eqb_eq in Ha as <-. apply endswith_length in Hb.
      simpl in Hl. lia.
    + apply String.eqb_eq in Hb as <-. apply endswith_length in Ha.
      simpl in Hl. lia.
    + by apply IH.
Qed.

(** The transcripts and the temporary audio file have different paths. *)
Lemma with_suffix_apart p a b qa qb :
  Path.with_suffix p a = Ok qa -> Path.with_suffix p b = Ok qb ->
  String.length a = String.length b -> a <> b ->
  Path.str qa <> Path.str qb.
Proof.
  intros Ha Hb Hl Hne E.
  apply with_suffix_endswith in Ha, Hb. rewrite E in Ha.
  by apply Hne, (endswith_same_length (Path.str qb)).
Qed.

Lemma remove_partial_frame env destination w :
  exists w', remove_partial env destination w = (Ok tt, w')
    /\ (unlink_refused env (Path.str destination) = false ->
        FS.is_file (fs w') destination = false)
    /\ forall p, Path.str p <> Path.str destination ->
                 FS.is_file (fs w') p = FS.is_file (fs w) p.
Proof.
  unfold remove_partial, gets, when, try_except, fs_do, mbind, M_bind.
  destruct (FS.exists_ (fs w) destination) eqn:Ex.
  - destruct (FS.unlink (unlink_refused env) (fs w) destination)
      as [fs1|e] eqn:Eu; simpl.
    + eexists; split; [reflexivity|]. simpl.
      split; [intros _; eapply is_file_unlink; eauto|].
      intros p Hp. unfold FS.unlink in Eu.
      destruct (fs w !! Path.str destination) as [[|n]|]; inversion Eu.
      destruct (unlink_refused env (Path.str destination)); inversion Eu.
      unfold FS.is_file. by rewrite lookup_delete_ne.
    + eexists; split; [reflexivity|].
      split; [intros Hr; eapply is_file_unlink_raise; eauto | done].
  - eexists; split; [reflexivity|]. simpl. split; [intros _|done].
    unfold FS.exists_ in Ex. unfold FS.is_file.
    destruct (fs w !! Path.str destination); [discriminate | done].
Qed.

Lemma try_finally_remove {A} env (m : M A) audio_path w :
  let run :=
    TranscriptionManager.try_finally m (remove_partial env audio_path) w in
  fst run = fst (m w)
  /\ (unlink_refused env (Path.str audio_path) = false ->
      FS.is_file (fs (snd run)) audio_path = false)
  /\ forall p, Path.str p <> Path.str audio_path ->
               FS.is_file (fs (snd run)) p = FS.is_file (fs (snd (m w))) p.
Proof.
  cbv zeta. unfold TranscriptionManager.try_finally.
  destruct (m w) as [r w1].
  destruct (remove_partial_frame env audio_path w1) as (w2 & -> & Hf & Hk).
  done.
Qed.

Lemma write_text_files output_path text w w' :
  TranscriptionManager.write_text output_path text w = (Ok tt, w') ->
  FS.is_file (fs w') output_path = true
  /\ forall p, FS.is_file (fs w) p = true -> FS.is_file (fs w') p = true.
Proof.
  unfold TranscriptionManager.write_text. intros H.
  apply bind_inv in H as [(e & _ & [=])|([] & w1 & Ho & H)].
  rewrite fs_do_run in Ho. unfold FS.open_wb in Ho.
  unfold modify in H. inversion H; subst w'. simpl.
  unfold FS.is_file, FS.write.
  split; [by rewrite lookup_insert_eq|].
  intros p Hp.
  destruct (decide (Path.str output_path = Path.str p)) as [E|E].
  - by rewrite E, lookup_insert_eq.
  - rewrite lookup_insert_ne by done.
    destruct (fs w !! Path.str output_path) as [[|n]|] eqn:El;
      try discriminate;
      destruct (_ && _); inversion Ho; subst w1; simpl;
      by rewrite lookup_insert_ne.
Qed.

(** X20.  A fresh transcription leaves no temporary audio file: once
    [transcribe_video] has found the video and no transcript beside it,
    then however the call ends (a transcript, [None], or an exception of
    the model or of a writer) no regular file is left at the video's
    path with the suffix ".wav", not even one that was there before,
    provided the system does not refuse to remove a file there: the
    clean-up swallows a failure of [unlink].
    When the call returns a path, the path is the video's with the
    suffix of the output format, and a file is there; for "both" the
    ".srt" file is there as well. *)
Theorem transcribe_video_cleans_up env tools video_path output_format
    language w txt_path srt_path vtt_path audio_path :
  let loading :=
    TranscriptionManager.load_model tools
      (AppConfig.transcription_model (config_of env w)) (fs w) in
  fst loading = true ->
  FS.exists_ (snd loading) video_path = true ->
  Path.with_suffix video_path ".txt" = Ok txt_path ->
  Path.with_suffix video_path ".srt" = Ok srt_path ->
  Path.with_suffix video_path ".vtt" = Ok vtt_path ->
  Path.with_suffix video_path ".wav" = Ok audio_path ->
  FS.exists_ (snd loading) txt_path = false ->
  FS.exists_ (snd loading) srt_path = false ->
  FS.exists_ (snd loading) vtt_path = false ->
  let run :=
    TranscriptionManager.transcribe_video env tools video_path
      output_format language w in
  (unlink_refused env (Path.str audio_path) = false ->
   FS.is_file (fs (snd run)) audio_path = false)
  /\ forall p, fst run = Ok (Some p) ->
       exists transcript_path,
         Path.with_suffix video_path (transcript_suffix output_format)
         = Ok transcript_path
         /\ p = Path.str transcript_path
         /\ FS.is_file (fs (snd run)) transcript_path = true
         /\ (output_format = "both" ->
             FS.is_file (fs (snd run)) srt_path = true).
Proof.
  cbv zeta. intros Hl Hv Ht Hs Hvt Ha Hnt Hns Hnv.
  unfold TranscriptionManager.transcribe_video.
  rewrite (bind_ok _ _ _ _ _ (cm_get_run _ w)).
  fold (config_of env w).
  rewrite (bind_ok _ _ _ _ _ (load_model_run _ _ _)).
  cbn [fs disk config_manager drive_client photos_client download_manager
       trace].
  rewrite Hl. cbn [negb].
  set (w1 := mkWorld _ _ _ _ _ _ _).
  assert (Hfs1 : fs w1
                 = snd (TranscriptionManager.load_model tools
                          (AppConfig.transcription_model (config_of env w))
                          (fs w))) by reflexivity.
  rewrite gets_bind, Hfs1, Hv. cbn [negb].
  rewrite Ht, Hs, Hvt, Ha, !lift_ok_bind.
  rewrite gets_bind, Hfs1, Hnt.
  rewrite gets_bind, Hfs1, Hns.
  rewrite gets_bind, Hfs1, Hnv.
  rewrite lift_ok_bind.
  match goal with
  | |- context [TranscriptionManager.try_finally ?m _ w1] =>
      destruct (try_finally_remove env m audio_path w1) as (Hr & Hf & Hk);
      destruct (m w1) as [r w2] eqn:Hb
  end.
  split; [exact Hf|]. intros p Hp. rewrite Hr in Hp. simpl in Hp. subst r.
  assert (Hapart : forall sfx q,
            In sfx [".txt"; ".srt"; ".vtt"] ->
            Path.with_suffix video_path sfx = Ok q ->
            Path.str q <> Path.str audio_path).
  { intros sfx q Hin Hq. eapply with_suffix_apart; eauto.
    - simpl in Hin. by destruct Hin as [<-|[<-|[<-|[]]]].
    - simpl in Hin. by destruct Hin as [<-|[<-|[<-|[]]]]. }
  apply bind_inv in Hb as [(e & _ & [=])|(extracted & w3 & _ & Hb)].
  destruct extracted; simpl in Hb; [|inversion Hb].
  apply bind_inv in Hb as [(e & _ & [=])|(segments & w4 & _ & Hb)].
  apply bind_inv in Hb as [(e & _ & [=])|(transcript & w5 & Hw & Hb)].
  inversion Hb; subst p w5. clear Hb.
  unfold transcript_suffix. revert Hw.
  destruct (String.eqb output_format "srt") eqn:E1.
  { rewrite Hs. rewrite lift_ok_bind. intros Hw.
    apply bind_inv in Hw as [(e & _ & [=])|([] & w6 & Hw & Hb)].
    inversion Hb; subst. apply write_text_files in Hw as [Hw _].
    exists transcript. repeat split; try done.
    - rewrite Hk; [done|]. apply (Hapart ".srt"); simpl; auto.
    - intros ->. discriminate E1. }
  destruct (String.eqb output_format "vtt") eqn:E2.
  { rewrite Hvt. rewrite lift_ok_bind. intros Hw.
    apply bind_inv in Hw as [(e & _ & [=])|([] & w6 & Hw & Hb)].
    inversion Hb; subst. apply write_text_files in Hw as [Hw _].
    exists transcript. repeat split; try done.
    - rewrite Hk; [done|]. apply (Hapart ".vtt"); simpl; auto.
    - intros ->. discriminate E2. }
  destruct (String.eqb output_format "both") eqn:E3.
  { rewrite !lift_ok_bind. intros Hw.
    apply bind_inv in Hw as [(e & _ & [=])|([] & w6 & Hw1 & Hw)].
    apply bind_inv in Hw as [(e & _ & [=])|([] & w7 & Hw2 & Hb)].
    inversion Hb; subst.
    apply write_text_files in Hw1 as [Hw1 _].
    apply write_text_files in Hw2 as [Hw2 Hw2'].
    exists transcript. repeat split; try done.
    - rewrite Hk; [by apply Hw2'|]. apply (Hapart ".txt"); simpl; auto.
    - intros _. rewrite Hk; [done|]. apply (Hapart ".srt"); simpl; auto. }
  rewrite lift_ok_bind. intros Hw.
  apply bind_inv in Hw as [(e & _ & [=])|([] & w6 & Hw & Hb)].
  inversion Hb; subst. apply write_text_files in Hw as [Hw _].
  exists transcript. repeat split; try done.
  - rewrite Hk; [done|]. apply (Hapart ".txt"); simpl; auto.
  - intros ->. discriminate E3.
Qed.

Lemma transcribe_video_cleans_up_witness :
  let run :=
    TranscriptionManager.transcribe_video Scenario.env0 Example.tools0
      Scenario.clip_destination "both" "en" Scenario.world_clip_on_disk in
  fst run = Ok (Some "C:\dl\Videos\Drive\clip.txt")
  /\ FS.is_file (fs (snd run)) (Path.of_string "C:\dl\Videos\Drive\clip.wav")
     = false
  /\ FS.is_file (fs (snd run)) (Path.of_string "C:\dl\Videos\Drive\clip.srt")
     = true.
Proof.
  cbv zeta.
  destruct (transcribe_video_cleans_up Scenario.env0 Example.tools0
              Scenario.clip_destination "both" "en"
              Scenario.world_clip_on_disk
              (Path.of_string "C:\dl\Videos\Drive\clip.txt")
              (Path.of_string "C:\dl\Videos\Drive\clip.srt")
              (Path.of_string "C:\dl\Videos\Drive\clip.vtt")
              (Path.of_string "C:\dl\Videos\Drive\clip.wav")
              eq_refl eq_refl eq_refl eq_refl eq_refl eq_refl eq_refl
              eq_refl eq_refl) as [Hf Hp].
  assert (Hrun : fst (TranscriptionManager.transcribe_video Scenario.env0
                        Example.tools0 Scenario.clip_destination "both" "en"
                        Scenario.world_clip_on_disk)
                 = Ok (Some "C:\dl\Videos\Drive\clip.txt"))
    by (vm_compute; reflexivity).
  destruct (Hp _ Hrun) as (t & _ & _ & _ & Hsrt).
  split; [exact Hrun|]. split; [exact (Hf eq_refl) | exact (Hsrt eq_refl)].
Defined.

(** ** Lists, statistics and the stop of a run *)

Lemma get_files_run status w :
  let m :=
    drive_state ← cm_get ConfigManager.get_drive_state;
    let found := download_control.with_status status drive_state in
    photos_state ← cm_get ConfigManager.get_photos_state;
    mret (found ++ download_control.with_status status photos_state) in
  fst (m w)
  = Ok (download_control.with_status status (drive_of w)
        ++ download_control.with_status status (photos_of w))
  /\ ConfigManager._drive_state (config_manager (snd (m w))) = drive_of w
  /\ ConfigManager._photos_state (config_manager (snd (m w))) = photos_of w.
Proof.
  destruct w as [f [cf df pf tf] [cfg ds ps ts] dc pc dm tr].
  unfold cm_get, mbind, M_bind, mret, M_ret, drive_of, photos_of,
    ConfigManager.get_drive_state, ConfigManager.get_photos_state.
  simpl.
  destruct (Dict.is_empty ds) eqn:Ed; simpl;
    destruct (Dict.is_empty ps) eqn:Ep; simpl; rewrite ?Ed, ?Ep; done.
Qed.

(** X21.  The lists of pending and of completed files agree with the
    statistics once the collections have been read: after
    [get_pending_files], the statistics count as many pending records as
    the list has, and as many downloads as [get_completed_files] lists.
    The statistics themselves read nothing: in a process that has not
    read its collections yet, [get_statistics] is all zero whatever the
    persisted documents hold. *)
Theorem lists_agree_with_statistics w :
  let run := download_control.get_pending_files w in
  let stats := ConfigManager.get_download_stats (config_manager (snd run)) in
  (exists files,
     fst run = Ok files
     /\ DownloadStats.pending stats = Z.of_nat (length files))
  /\ (exists files,
        fst (download_control.get_completed_files w) = Ok files
        /\ DownloadStats.downloaded stats = Z.of_nat (length files))
  /\ (config_manager w = ConfigManager.new ->
      fst (download_control.get_statistics w) = Ok DownloadStats.new).
Proof.
  cbv zeta.
  destruct (get_files_run "pending" w) as (Hp & Hd & Hph).
  destruct (get_files_run "complete" w) as (Hc & _ & _).
  cbv zeta in Hp, Hd, Hph, Hc.
  unfold download_control.get_pending_files,
    download_control.get_completed_files.
  set (w' := snd _) in *.
  pose proof (fold_count_state_fields
                (ConfigManager._transcription_state (config_manager w'))
                (all_states (config_manager w')) DownloadStats.new) as Hs.
  cbv zeta in Hs. destruct Hs as (_ & Hdl & Hpe & _).
  unfold ConfigManager.get_download_stats.
  fold (all_states (config_manager w')).
  rewrite Hdl, Hpe. unfold count_status, all_states. rewrite Hd, Hph.
  rewrite !List.filter_app, !length_app.
  split; [eexists; split; [exact Hp|]|split; [eexists; split; [exact Hc|]|]].
  - by rewrite length_app.
  - by rewrite length_app.
  - unfold download_control.get_statistics, gets. by intros ->.
Qed.

Lemma lists_agree_with_statistics_witness :
  fst (download_control.get_statistics Example.world_restarted)
  = Ok DownloadStats.new
  /\ fst (download_control.get_pending_files Example.world_restarted)
     = Ok [Scenario.clip_pending].
Proof.
  destruct (lists_agree_with_statistics Example.world_restarted)
    as (_ & _ & Hs).
  split; [exact (Hs eq_refl) | reflexivity].
Defined.

(** X22.  Stopping a run in progress leaves the manager idle, not
    paused, with the stop flag set, and sets the stop flags of both
    clients.  With the flag set the loop of the worker processes
    nothing: it returns its counters at once, whatever is on the
    worklist.  A new start clears the flag of the manager again. *)
Theorem stop_download_halts_the_loop env w :
  DownloadManager._is_downloading (download_manager w) = true ->
  let w1 := snd (download_control.stop_download w) in
  fst (download_control.stop_download w) = Ok tt
  /\ DownloadManager._is_downloading (download_manager w1) = false
  /\ DownloadManager._is_paused (download_manager w1) = false
  /\ DownloadManager._should_stop (download_manager w1) = true
  /\ DriveClient._should_stop (drive_client w1) = true
  /\ PhotosClient._should_stop (photos_client w1) = true
  /\ (forall i pending_files download_path counts,
        download_manager.download_loop env i pending_files download_path
          counts w1 = (Ok (Some counts), w1))
  /\ DownloadManager._should_stop
       (download_manager (snd (download_manager.start_download w1))) = false.
Proof.
  intros Hd. cbv zeta.
  unfold download_control.stop_download, drive_client.stop,
    photos_client.stop, gets, set_download_manager, set_drive_client,
    set_photos_client, modify, mbind, M_bind, mret, M_ret.
  rewrite Hd. simpl. repeat split.
  intros i [|[f src] rest] download_path counts; reflexivity.
Qed.

Lemma stop_download_halts_the_loop_witness :
  download_manager.download_loop Scenario.env0 0 Example.two_pending
    Scenario.download_dir (download_manager.mkCounts 0 0 0)
    (snd (download_control.stop_download Example.world_downloading))
  = (Ok (Some (download_manager.mkCounts 0 0 0)),
     snd (download_control.stop_download Example.world_downloading)).
Proof.
  destruct (stop_download_halts_the_loop Scenario.env0
              Example.world_downloading eq_refl)
    as (_ & _ & _ & _ & _ & _ & Hloop & _).
  apply Hloop.
Defined.

(** ** The stop flags of the clients *)

Lemma blind_ret {A} (a : A) : blind (mret a).
Proof. by intros w. Qed.

Lemma blind_raise {A} e : blind (@raise A e).
Proof. by intros w. Qed.

Lemma blind_lift_result {A} (r : result A) : blind (lift_result r).
Proof. by intros w. Qed.

Lemma blind_gets {A} (f : World -> A) :
  (forall w, f (unflagged w) = f w) -> blind (gets f).
Proof. intros H w. unfold gets. by rewrite H. Qed.

Lemma blind_modify (g : World -> World) :
  (forall w, g (unflagged w) = unflagged (g w)) -> blind (modify g).
Proof. intros H w. unfold modify. by rewrite H. Qed.

Lemma blind_bind {A B} (m : M A) (f : A -> M B) :
  blind m -> (forall a, blind (f a)) -> blind (m ≫= f).
Proof.
  intros Hm Hf w. unfold mbind, M_bind. rewrite Hm.
  destruct (m w) as [[a|e] w1]; simpl; [apply Hf | done].
Qed.

Lemma blind_try_except {A} (m : M A) (h : exn -> M A) :
  blind m -> (forall e, blind (h e)) -> blind (try_except m h).
Proof.
  intros Hm Hh w. unfold try_except. rewrite Hm.
  destruct (m w) as [[a|e] w1]; simpl; [done | apply Hh].
Qed.

Lemma blind_when c m : blind m -> blind (when c m).
Proof. intros Hm. destruct c; [exact Hm | apply blind_ret]. Qed.

Lemma blind_emit ev : blind (emit ev).
Proof. by intros w. Qed.

Lemma blind_set_fs x : blind (set_fs x).
Proof. by intros w. Qed.

Lemma blind_fs_do op : blind (fs_do op).
Proof.
  intros w. rewrite !fs_do_run. simpl. by destruct (op (fs w)).
Qed.

Lemma blind_st_size p : blind (st_size p).
Proof. by intros w. Qed.

Lemma blind_for_each {A} (l : list A) (body : A -> M unit) :
  (forall x, blind (body x)) -> blind (for_each l body).
Proof.
  intros Hb. induction l as [|x l IH]; simpl; [apply blind_ret|].
  apply blind_bind; [apply Hb | intros _; exact IH].
Qed.

Lemma blind_drive_get_service env : blind (drive_client._get_service env).
Proof.
  intros [f d c [sv st] p dm tr].
  unfold drive_client._get_service, gets, set_drive_client, modify, raise,
    mbind, M_bind, mret, M_ret, unflagged. simpl.
  destruct sv; [done|]. by destruct (is_authenticated env).
Qed.

Lemma blind_photos_get_service env : blind (photos_client._get_service env).
Proof.
  intros [f d c dc [sv st] dm tr].
  unfold photos_client._get_service, gets, set_photos_client, modify, raise,
    mbind, M_bind, mret, M_ret, unflagged. simpl.
  destruct sv; [done|]. destruct (is_authenticated env); [|done].
  by destruct (photos_build env).
Qed.

Lemma blind_write_chunks p t cb :
  (forall f, cb = Some f -> forall a b, blind (f a b)) ->
  blind (write_chunks p t cb).
Proof.
  intros Hcb. unfold write_chunks.
  assert (Hrep : forall progress,
            blind (match cb with
                   | Some cb => for_each progress (fun p => cb p 100)
                   | None => mret tt
                   end)).
  { intros progress. destruct cb as [f|]; [|apply blind_ret].
    apply blind_for_each. intros x. by apply Hcb. }
  assert (Hw : forall n, blind (modify (fun w =>
            mkWorld (FS.write (fs w) p n) (disk w)
                    (config_manager w) (drive_client w) (photos_client w)
                    (download_manager w) (trace w)))).
  { intros n. by apply blind_modify. }
  apply blind_bind; [apply blind_fs_do | intros _].
  destruct t.
  - apply blind_bind; [apply Hrep | intros _; apply Hw].
  - apply blind_bind; [apply Hrep | intros _].
    apply blind_bind; [apply Hw | intros _; apply blind_raise].
Qed.

Lemma blind_progress_cb name a b :
  blind (download_manager.progress_cb name a b).
Proof.
  unfold download_manager.progress_cb.
  apply blind_bind; [by apply blind_gets | intros self].
  apply blind_when, blind_emit.
Qed.

Lemma blind_report_error name msg :
  blind (download_manager.report_error name msg).
Proof.
  unfold download_manager.report_error.
  apply blind_bind; [by apply blind_gets | intros self].
  apply blind_bind; [apply blind_when, blind_emit | intros _].
  apply blind_emit.
Qed.

(** Takes a goal [blind m] apart along the structure of [m]. *)
Ltac blind_go :=
  repeat
    first
      [ apply blind_ret | apply blind_raise | apply blind_lift_result
      | apply blind_emit | apply blind_set_fs | apply blind_fs_do
      | apply blind_st_size
      | apply blind_drive_get_service | apply blind_photos_get_service
      | apply blind_report_error | apply blind_progress_cb
      | apply blind_write_chunks; assumption
      | apply blind_gets; intros ?; reflexivity
      | apply blind_when
      | apply blind_try_except; [|intros ?]
      | apply blind_bind; [|intros ?]
      | match goal with
        | |- blind (if ?b then _ else _) => destruct b
        | |- blind (match ?x with _ => _ end) => destruct x
        end ].

Lemma blind_is_empty_file p : blind (is_empty_file p).
Proof. unfold is_empty_file. blind_go. Qed.

Lemma blind_remove_partial env p : blind (remove_partial env p).
Proof. unfold remove_partial. blind_go. Qed.

Lemma blind_export_file env file_id destination mime cb :
  (forall f, cb = Some f -> forall a b, blind (f a b)) ->
  blind (drive_client._export_file env file_id destination mime cb).
Proof.
  intros Hcb. unfold drive_client._export_file.
  pose proof blind_is_empty_file. pose proof (blind_remove_partial env).
  blind_go; auto.
Qed.

Lemma blind_download_file env file_id destination mime cb :
  (forall f, cb = Some f -> forall a b, blind (f a b)) ->
  blind (drive_client.download_file env file_id destination mime cb).
Proof.
  intros Hcb. unfold drive_client.download_file.
  apply blind_bind; [apply blind_emit | intros _].
  apply blind_bind; [apply blind_drive_get_service | intros _].
  apply blind_try_except.
  - destruct (Dict.mem _ _); [by apply blind_export_file|].
    pose proof blind_is_empty_file. blind_go; auto.
  - intros e. pose proof (blind_remove_partial env). blind_go; auto.
Qed.

Lemma blind_download_video env media_item_id destination cb :
  (forall f, cb = Some f -> forall a b, blind (f a b)) ->
  blind (photos_client.download_video env media_item_id destination cb).
Proof.
  intros Hcb. unfold photos_client.download_video.
  pose proof blind_is_empty_file. pose proof (blind_remove_partial env).
  blind_go; auto.
Qed.

Lemma blind_resolve_destination env file_state source_type download_path :
  blind (download_manager.resolve_destination env file_state source_type
           download_path).
Proof.
  intros w. unfold download_manager.resolve_destination. simpl.
  by destruct (download_manager.destination_of _ _ _ _ _) as [[d fs']|e].
Qed.

Lemma blind_download_single_file env file_state source_type download_path :
  blind (download_manager._download_single_file env file_state source_type
           download_path).
Proof.
  assert (Hcb : forall f,
            Some (download_manager.progress_cb (FileState.name file_state))
            = Some f -> forall a b, blind (f a b)).
  { intros f [= <-] a b. apply blind_progress_cb. }
  unfold download_manager._download_single_file.
  apply blind_try_except; [|intros e; blind_go].
  apply blind_bind; [apply blind_resolve_destination | intros destination].
  apply blind_bind; [by apply blind_gets | intros ex].
  destruct ex; [apply blind_ret|].
  apply blind_bind; [|intros success; blind_go].
  destruct (String.eqb _ _);
    [by apply blind_download_file | by apply blind_download_video].
Qed.

(** X23.  The stop flags of the two clients interrupt nothing: the
    download of a file goes the same way, with the same answer, the same
    files written and the same events, whether the clients have been
    told to stop or not.  A stop takes effect between two files only. *)
Theorem transfers_ignore_client_stop env file_state source_type
    download_path w :
  let stopped := snd ((drive_client.stop ;; photos_client.stop) w) in
  let run :=
    download_manager._download_single_file env file_state source_type
      download_path w in
  let run' :=
    download_manager._download_single_file env file_state source_type
      download_path stopped in
  DriveClient._should_stop (drive_client stopped) = true
  /\ PhotosClient._should_stop (photos_client stopped) = true
  /\ fst run' = fst run
  /\ fs (snd run') = fs (snd run)
  /\ trace (snd run') = trace (snd run)
  /\ config_manager (snd run') = config_manager (snd run)
  /\ disk (snd run') = disk (snd run).
Proof.
  cbv zeta. split; [done|]. split; [done|].
  set (stopped := snd _).
  pose proof (blind_download_single_file env file_state source_type
                download_path w) as H1.
  pose proof (blind_download_single_file env file_state source_type
                download_path stopped) as H2.
  assert (Hw : unflagged stopped = unflagged w) by reflexivity.
  rewrite Hw, H1 in H2.
  assert (Hr : fst (download_manager._download_single_file env file_state
                      source_type download_path stopped)
               = fst (download_manager._download_single_file env file_state
                        source_type download_path w))
    by (apply (f_equal fst) in H2; exact (eq_sym H2)).
  assert (Hu : unflagged (snd (download_manager._download_single_file env
                                 file_state source_type download_path
                                 stopped))
               = unflagged (snd (download_manager._download_single_file env
                                   file_state source_type download_path w)))
    by (apply (f_equal snd) in H2; exact (eq_sym H2)).
  split; [exact Hr|].
  split; [exact (f_equal fs Hu)|].
  split; [exact (f_equal trace Hu)|].
  split; [exact (f_equal config_manager Hu) | exact (f_equal disk Hu)].
Qed.

(** ** Scanning again *)

Lemma Dict_set_same_value {V} (d : Dict.t V) k v :
  Dict.get d k = Some v -> Dict.set d k v = d.
Proof.
  induction d as [|[k0 v0] d IH]; simpl; [done|].
  destruct (String.eqb k0 k); [by intros [= ->]|].
  intros H. by rewrite IH.
Qed.

Lemma merge_file_other state file k :
  k <> FileState.id file ->
  Dict.get (download_manager.merge_file state file) k = Dict.get state k.
Proof.
  intros Hne. unfold download_manager.merge_file.
  destruct (Dict.get state (FileState.id file)); simpl;
    by rewrite Dict_get_set_other.
Qed.

Lemma merge_files_other files : forall state k,
  ~ In k (map FileState.id files) ->
  Dict.get (download_manager.merge_files state files) k = Dict.get state k.
Proof.
  induction files as [|f files IH]; intros state k Hk; simpl; [done|].
  rewrite IH by (intros H; apply Hk; by right).
  apply merge_file_other. intros ->. apply Hk. by left.
Qed.

Lemma merge_file_absorbs state file :
  absorbed (download_manager.merge_file state file) file.
Proof.
  unfold absorbed, download_manager.merge_file.
  destruct (Dict.get state (FileState.id file)) as [e|] eqn:E.
  - eexists. split; [simpl; apply Dict_get_set_same|]. by destruct file.
  - eexists. split; [apply Dict_get_set_same|]. by destruct file.
Qed.

Lemma merge_files_absorbs files : forall state file,
  NoDup (map FileState.id files) -> In file files ->
  absorbed (download_manager.merge_files state files) file.
Proof.
  induction files as [|g files IH]; intros state file Hnd Hin; [done|].
  simpl in Hnd. apply NoDup_cons in Hnd as [Hg Hnd]. simpl.
  destruct Hin as [->|Hin]; [|by apply IH].
  destruct (merge_file_absorbs state file) as (r & Hr & Hm).
  exists r. split; [|done].
  rewrite merge_files_other; [done|].
  intros H. by apply Hg, list_elem_of_In.
Qed.

Lemma merge_file_absorbed state file :
  absorbed state file -> download_manager.merge_file state file = state.
Proof.
  intros (r & Hr & Hm). unfold download_manager.merge_file. rewrite Hr.
  fold (merged_with r file). rewrite Hm.
  replace (FileState.id r) with (FileState.id file)
    by (rewrite <- Hm; by destruct file).
  by apply Dict_set_same_value.
Qed.

Lemma merge_files_absorbed files : forall state,
  (forall file, In file files -> absorbed state file) ->
  download_manager.merge_files state files = state.
Proof.
  induction files as [|f files IH]; intros state H; simpl; [done|].
  rewrite merge_file_absorbed by (apply H; by left).
  apply IH. intros file Hin. apply H. by right.
Qed.

(** X24.  Merging a listing into the store a second time changes
    nothing: once a scan has merged the files it listed (each id listed
    once), a rescan that lists the same files leaves every record, and
    the order of the records, as they are. *)
Theorem merge_files_idempotent state files :
  NoDup (map FileState.id files) ->
  download_manager.merge_files
    (download_manager.merge_files state files) files
  = download_manager.merge_files state files.
Proof.
  intros Hnd. apply merge_files_absorbed.
  intros file Hin. by apply merge_files_absorbs.
Qed.

Lemma merge_files_idempotent_witness :
  let listing :=
    [FileState.new "f1" "clip-renamed.mp4" "drive" "video/mp4" 2048
       "pending";
     Example.talk_pending] in
  download_manager.merge_files
    (download_manager.merge_files [("f1", Scenario.clip_done)] listing)
    listing
  = download_manager.merge_files [("f1", Scenario.clip_done)] listing.
Proof.
  cbv zeta. apply merge_files_idempotent.
  apply NoDup_cons. split; [|apply NoDup_singleton].
  intros H. apply list_elem_of_In in H. simpl in H.
  destruct H as [H|[]]. discriminate H.
Defined.

(** ** Marking a video as transcribed *)





(** ** The destination of a download *)

Lemma mkdirs_keeps_files ps : forall fs0 fs1 k n,
  FS.mkdirs fs0 ps = Ok fs1 ->
  fs0 !! k = Some (FS.File n) -> fs1 !! k = Some (FS.File n).
Proof.
  induction ps as [|p ps IH]; intros fs0 fs1 k n H Hk; simpl in H.
  - inversion H. by subst.
  - destruct (fs0 !! Path.str p) as [[|m]|] eqn:E; try discriminate;
      (eapply IH; [exact H|]); rewrite lookup_insert_ne; try done;
      intros Hkp; rewrite Hkp in E; congruence.
Qed.

Lemma mkdirs_last ps : forall fs0 fs1 p,
  FS.mkdirs fs0 (ps ++ [p]) = Ok fs1 -> fs1 !! Path.str p = Some FS.Dir.
Proof.
  induction ps as [|q ps IH]; intros fs0 fs1 p H; simpl in H.
  - destruct (fs0 !! Path.str p) as [[|m]|]; try discriminate;
      inversion H; by rewrite lookup_insert_eq.
  - destruct (fs0 !! Path.str q) as [[|m]|]; try discriminate;
      by eapply IH.
Qed.

Lemma chain_snoc d r todo : forall seen x,
  FS.chain d r seen (todo ++ [x])
  = FS.chain d r seen todo ++ [Path.mk d r (seen ++ todo ++ [x])].
Proof.
  induction todo as [|y todo IH]; intros seen x; simpl; [done|].
  rewrite IH. by rewrite <- !app_assoc.
Qed.

Lemma mkdir_is_dir fs0 fs1 p :
  FS.mkdir fs0 p = Ok fs1 -> FS.is_dir fs1 p = true.
Proof.
  unfold FS.mkdir, FS.is_dir. destruct p as [d r parts]. simpl.
  destruct parts as [|x parts] using rev_ind; [done|]. clear IHparts.
  rewrite chain_snoc. simpl. intros H. apply mkdirs_last in H.
  rewrite H. by destruct (parts ++ [x]).
Qed.

Lemma mkdir_keeps_files fs0 fs1 p k n :
  FS.mkdir fs0 p = Ok fs1 ->
  fs0 !! k = Some (FS.File n) -> fs1 !! k = Some (FS.File n).
Proof. unfold FS.mkdir. apply mkdirs_keeps_files. Qed.

Lemma made_spec fs0 p q fs1 :
  Paths.made fs0 p = Ok (q, fs1) ->
  q = p /\ FS.is_dir fs1 p = true
  /\ forall k n, fs0 !! k = Some (FS.File n) -> fs1 !! k = Some (FS.File n).
Proof.
  unfold Paths.made. destruct (FS.mkdir fs0 p) as [fs'|e] eqn:E; [|done].
  intros [= <- <-]. split; [done|]. split; [by eapply mkdir_is_dir|].
  intros k n. by eapply mkdir_keeps_files.
Qed.

(** X26.  When the destination of a download is resolved, it is the
    name of the file under the folder for its kind and source; that
    folder is a directory afterwards, created with its parents if need
    be; and every regular file of the file system is still there, with
    its size: resolving a destination creates directories and removes or
    overwrites nothing. *)
Theorem destination_of_creates_folder env file_state source_type
    download_path fs0 destination fs1 :
  download_manager.destination_of env file_state source_type download_path
    fs0 = Ok (destination, fs1) ->
  let folder := folder_of file_state source_type download_path in
  destination = Path.joinpath folder (FileState.name file_state)
  /\ FS.is_dir fs1 folder = true
  /\ forall k n, fs0 !! k = Some (FS.File n) -> fs1 !! k = Some (FS.File n).
Proof.
  cbv zeta. unfold download_manager.destination_of, folder_of.
  unfold Paths.get_drive_videos_dir, Paths.get_photos_videos_dir,
    Paths.get_documents_dir, Paths.get_videos_dir, Paths.base_of.
  intros H.
  destruct (PyStr.startswith (FileState.mime_type file_state) "video/");
    simpl orb in H; cbv iota in H;
    [|destruct (Dict.mem drive_client.GOOGLE_DOCS_EXPORT
                  (FileState.mime_type file_state))];
    try destruct (String.eqb source_type "drive");
    repeat match type of H with
           | match (match Paths.made ?f ?p with _ => _ end) with _ => _ end
             = _ =>
               let E := fresh "E" in
               destruct (Paths.made f p) as [[? ?]|?] eqn:E;
               [apply made_spec in E as (-> & ? & ?)|discriminate H]
           | match Paths.made ?f ?p with _ => _ end = _ =>
               let E := fresh "E" in
               destruct (Paths.made f p) as [[? ?]|?] eqn:E;
               [apply made_spec in E as (-> & ? & ?)|discriminate H]
           end;
    inversion H; subst; repeat split; auto.
Qed.

Lemma destination_of_creates_folder_witness :
  exists destination fs1,
    download_manager.destination_of Scenario.env0 Scenario.clip_pending
      "drive" Scenario.download_dir ∅ = Ok (destination, fs1)
    /\ Path.str destination = Scenario.clip_path
    /\ FS.is_dir fs1 (Path.of_string "C:\dl\Videos\Drive") = true.
Proof.
  destruct (download_manager.destination_of Scenario.env0
              Scenario.clip_pending "drive" Scenario.download_dir ∅)
    as [[destination fs1]|e] eqn:E; [|vm_compute in E; discriminate E].
  destruct (destination_of_creates_folder _ _ _ _ _ _ _ E)
    as (-> & Hdir & _).
  exists (Path.joinpath
            (folder_of Scenario.clip_pending "drive" Scenario.download_dir)
            (FileState.name Scenario.clip_pending)), fs1.
  split; [reflexivity|]. split; [reflexivity | exact Hdir].
Defined.

(** ** A paused run *)


